(** * COPD lung-sound inference API: a shallow embedding of the backend

    The development follows the layout of [backend/app]:
    - [core/config.py]            the [Settings] object and attribute lookup;
    - [models/prediction.py]      [Label], [PredictionStatus], [Prediction];
    - [services/inference.py]     the ONNX service and [get_inference_service];
    - [services/pytorch_inference.py] the PyTorch service;
    - [models/hftt_model.py]      [load_model_with_wrapper];
    - [utils/audio.py]            [load_waveform];
    - [repositories/predictions.py] the document-store repository;
    - [services/storage.py]       the upload store;
    - [routers/audio.py]          the endpoints and the background coroutine;
    - [scripts/test_model_loading.py] the checking script.

    Conventions.
    - A Python exception is a value of [exn], an instance of [Exception];
      a computation that may raise returns a [result].
    - Module globals, the collection, the stored files and the clock make
      up a [World]; a function with effects is a state-passing computation
      [M] in which a raised exception keeps the changes made before it.
    - Array elements are of a type [F] with NumPy's operations (class
      [NumPy]); every property holds for every instance, and the examples
      are over the reals.  A logits array is one-dimensional.
    - Calls into ONNX Runtime, PyTorch, librosa, bson, pathlib and the
      operating system are the fields of the class [Runtime]: functions of
      their arguments and of the world they are called in, each returning
      a value or raising.
    - A datetime counts microseconds; the collection keeps datetimes in
      whole milliseconds.
    - A coroutine run alone is such a computation; calls of [predict] and
      [load] interleaved on one service object are the step relation
      [step]; requests and background tasks run one after another are
      the relation [api_step].
    - The cursor of [list_recent] and a checkpoint as [torch.load] returns
      it are fields of the classes [Cursor] and [TorchCheckpoints]. *)

From Stdlib Require Import Reals Lra.
From stdpp Require Import base option list gmap strings fin_maps.

Local Open Scope string_scope.

(** ** Exceptions and results *)

Inductive exn_class :=
  | AttributeError | IndexError | ValueError | TypeError | KeyError
  | AssertionError | RuntimeError | FileNotFoundError | ImportError
  | InvalidId | ValidationError | DuplicateKeyError
  | HTTPException (status_code : Z) | OtherException.

Record exn := Exn { exn_cls : exn_class; exn_msg : string }.

(** [str(exc)] *)
Definition str_exc (e : exn) : string := exn_msg e.

Inductive result (A : Type) :=
  | Ok (a : A)
  | Raise (e : exn).
Arguments Ok {A} a.
Arguments Raise {A} e.

#[global] Instance result_ret : MRet result := fun _ a => Ok a.
#[global] Instance result_bind : MBind result := fun _ _ f m =>
  match m with Ok a => f a | Raise e => Raise e end.

Definition is_Ok {A} (r : result A) : bool :=
  match r with Ok _ => true | Raise _ => false end.

(** ** models/prediction.py *)

Inductive Label := CRACKLE | WHEEZE | BOTH | NONE.

#[global] Instance Label_eq_dec : EqDecision Label.
Proof. solve_decision. Defined.

(** [label.value] *)
Definition Label_value (l : Label) : string :=
  match l with
  | CRACKLE => "crackle"
  | WHEEZE => "wheeze"
  | BOTH => "both"
  | NONE => "none"
  end.

(** [list(Label)]: the members in declaration order. *)
Definition Label_members : list Label := [CRACKLE; WHEEZE; BOTH; NONE].

(** [enumerate(Label)] *)
Definition enumerate_Label : list (nat * Label) := imap (fun i l => (i, l)) Label_members.

Inductive PredictionStatus := PENDING | PROCESSING | COMPLETED | FAILED.

#[global] Instance PredictionStatus_eq_dec : EqDecision PredictionStatus.
Proof. solve_decision. Defined.

Definition PredictionStatus_value (s : PredictionStatus) : string :=
  match s with
  | PENDING => "pending"
  | PROCESSING => "processing"
  | COMPLETED => "completed"
  | FAILED => "failed"
  end.

(** The four label strings, as a set. *)
Definition label_strings : gset string :=
  {[ "crackle"; "wheeze"; "both"; "none" ]}.

(** ** The numeric runtime

    The array element type and NumPy's element-wise and reducing
    operations on one-dimensional arrays.  [np_max] and [np_argmax] are
    [None] where NumPy raises [ValueError] (an empty array). *)

Class NumPy (F : Type) := {
  np_zero : F;                       (* the literal 0.0 *)
  np_exp : F -> F;
  np_sub : F -> F -> F;
  np_div : F -> F -> F;
  np_sum : list F -> F;
  np_max : list F -> option F;
  np_argmax : list F -> option nat;
}.

Definition value_error (msg : string) : exn := Exn ValueError msg.
Definition index_error (msg : string) : exn := Exn IndexError msg.

Definition of_option {A} (o : option A) (e : exn) : result A :=
  match o with Some a => Ok a | None => Raise e end.

(** [a[i]] for a non-negative index [i]: [IndexError] out of range. *)
Definition getitem {A} (a : list A) (i : nat) : result A :=
  of_option (a !! i) (index_error "index out of range").

(** The dictionary returned by [predict]. *)
Record PredictResult (F : Type) := {
  label : Label;
  confidence : F;
  probabilities : gmap string F;
}.
Arguments label {F} _.
Arguments confidence {F} _.
Arguments probabilities {F} _.

Section Postprocess.
Context {F : Type} {NP : NumPy F}.

(** [_softmax], identical in both services:
    [exp = np.exp(logits - np.max(logits)); exp / exp.sum(axis=-1, keepdims=True)] *)
Definition _softmax (logits : list F) : result (list F) :=
  m ← of_option (np_max logits) (value_error "zero-size array to reduction operation maximum");
  let exp := (fun x => np_exp (np_sub x m)) <$> logits in
  let s := np_sum exp in
  Ok ((fun e => np_div e s) <$> exp).

(** [int(probabilities.argmax())] *)
Definition argmax_idx (probs : list F) : result nat :=
  of_option (np_argmax probs) (value_error "attempt to get argmax of an empty sequence").

(** *** services/inference.py: the tail of [AudioInferenceService.predict] *)

(** [{label.value: float(probabilities[idx]) for idx, label in enumerate(Label)}] *)
Fixpoint onnx_prob_dict (probs : list F) (items : list (nat * Label))
    (acc : gmap string F) : result (gmap string F) :=
  match items with
  | [] => Ok acc
  | (idx, l) :: rest =>
      p ← getitem probs idx;
      onnx_prob_dict probs rest (<[Label_value l := p]> acc)
  end.

Definition onnx_postprocess (logits : list F) : result (PredictResult F) :=
  probs ← _softmax logits;
  label_idx ← argmax_idx probs;
  lbl ← getitem Label_members label_idx;
  conf ← getitem probs label_idx;
  d ← onnx_prob_dict probs enumerate_Label ∅;
  Ok {| label := lbl; confidence := conf; probabilities := d |}.

(** *** services/pytorch_inference.py: the tail of
    [PyTorchAudioInferenceService.predict] *)

(** The dict literal [label_mapping], in insertion order. *)
Definition label_mapping : list (nat * Label) :=
  [(0, NONE); (1, CRACKLE); (2, WHEEZE); (3, BOTH)].

(** [label_mapping.get(label_idx, default)] *)
Fixpoint mapping_get (m : list (nat * Label)) (k : nat) (default : Label) : Label :=
  match m with
  | [] => default
  | (k', v) :: rest => if decide (k' = k) then v else mapping_get rest k default
  end.

(** The inner [for model_idx, mapped_label in label_mapping.items()]
    loop with its [break] and [else] clause, for one [label_enum]. *)
Fixpoint pytorch_find (probs : list F) (items : list (nat * Label))
    (label_enum : Label) : result F :=
  match items with
  | [] => Ok np_zero
  | (model_idx, mapped_label) :: rest =>
      if decide (mapped_label = label_enum)
      then getitem probs model_idx
      else pytorch_find probs rest label_enum
  end.

(** The outer [for idx, label_enum in enumerate(Label)] loop. *)
Fixpoint pytorch_prob_dict (probs : list F) (items : list (nat * Label))
    (prob_dict : gmap string F) : result (gmap string F) :=
  match items with
  | [] => Ok prob_dict
  | (_, label_enum) :: rest =>
      p ← pytorch_find probs label_mapping label_enum;
      pytorch_prob_dict probs rest (<[Label_value label_enum := p]> prob_dict)
  end.

Definition pytorch_postprocess (logits : list F) : result (PredictResult F) :=
  probs ← _softmax logits;
  label_idx ← argmax_idx probs;
  let lbl := mapping_get label_mapping label_idx NONE in
  prob_dict ← pytorch_prob_dict probs enumerate_Label ∅;
  conf ← getitem probs label_idx;
  Ok {| label := lbl; confidence := conf; probabilities := prob_dict |}.

End Postprocess.

(** The label the ONNX service gives output index [i]: [list(Label)[i]]. *)
Definition onnx_label_of_index (i : nat) : option Label := Label_members !! i.

(** The label the PyTorch service gives output index [i]:
    [label_mapping.get(i, Label.NONE)]. *)
Definition pytorch_label_of_index (i : nat) : Label := mapping_get label_mapping i NONE.

(** ** The real numbers as array elements

    An instance of exact arithmetic, [np.argmax] the first index of the
    maximum.  The services compute in 32-bit floats, where [exp] and
    the division round: this instance serves to run the examples, on
    logits whose order rounding does not change; the properties of the
    services are proved for every instance. *)

Definition R_max_list (l : list R) : option R :=
  match l with
  | [] => None
  | x :: rest => Some (foldr Rmax x rest)
  end.

(** First index holding the maximum: scanning left to right, the
    candidate changes only on a strictly larger element. *)
Fixpoint R_argmax_from (best : R) (best_i i : nat) (l : list R) : nat :=
  match l with
  | [] => best_i
  | x :: rest =>
      if Rlt_dec best x then R_argmax_from x i (S i) rest
      else R_argmax_from best best_i (S i) rest
  end.

Definition R_argmax (l : list R) : option nat :=
  match l with
  | [] => None
  | x :: rest => Some (R_argmax_from x 0 1 rest)
  end.

#[global] Instance R_numpy : NumPy R := {|
  np_zero := 0%R;
  np_exp := exp;
  np_sub := Rminus;
  np_div := Rdiv;
  np_sum := foldr Rplus 0%R;
  np_max := R_max_list;
  np_argmax := R_argmax;
|}.

(** ** core/config.py *)

(** Values an attribute of the settings object can hold. *)
Inductive attr :=
  | ANone
  | AStr (s : string)
  | APath (p : string)
  | AInt (n : Z)
  | AStrList (l : list string).

(** Python truthiness, as used by [x or y] and [if x]. *)
Definition truthy (a : attr) : bool :=
  match a with
  | ANone => false
  | AStr s => negb (String.eqb s "")
  | APath _ => true
  | AInt n => negb (n =? 0)%Z
  | AStrList l => match l with [] => false | _ => true end
  end.

(** [str(a)] for the values used as paths. *)
Definition attr_str (a : attr) : string :=
  match a with
  | AStr s | APath s => s
  | ANone => "None"
  | _ => ""
  end.

(** [Path(a)]: made from a string or a path; any other value is a
    [TypeError]. *)
Definition Path_of (a : attr) : result string :=
  match a with
  | AStr s | APath s => Ok s
  | ANone =>
      Raise (Exn TypeError "expected str, bytes or os.PathLike object, not NoneType")
  | AInt _ => Raise (Exn TypeError "expected str, bytes or os.PathLike object, not int")
  | AStrList _ => Raise (Exn TypeError "expected str, bytes or os.PathLike object, not list")
  end.

(** The fields [Settings] declares; nothing else. *)
Record Settings := {
  app_name : string;
  environment : string;
  mongo_uri : string;
  mongo_db : string;
  storage_bucket : string;
  upload_dir : string;
  model_path : string;
  inference_batch_size : Z;
  allow_origins : list string;
  infra_path : option string;
  momo_path : option string;
}.

Definition DEFAULT_INFRA_PATH : string := "/app/infra/infra.json".
Definition DEFAULT_MOMO_PATH : string := "/app/resources/momo.json".

(** [Settings()] with every field at its declared default. *)
Definition default_Settings : Settings := {|
  app_name := "COPD Lung Sound Inference API";
  environment := "development";
  mongo_uri := "mongodb://localhost:27017/copd_app";
  mongo_db := "copd_app";
  storage_bucket := "lung-audio";
  upload_dir := "/tmp/copd/uploads";
  model_path := "models/audio_classifier.onnx";
  inference_batch_size := 1;
  allow_origins := ["http://localhost:3000"];
  infra_path := Some DEFAULT_INFRA_PATH;
  momo_path := Some DEFAULT_MOMO_PATH;
|}.

Definition attribute_error (cls name : string) : exn :=
  Exn AttributeError ("'" +:+ cls +:+ "' object has no attribute '" +:+ name +:+ "'").

Definition opt_path (o : option string) : attr :=
  match o with Some p => APath p | None => ANone end.

(** An object whose attributes are read by name: [settings.<name>]. *)
Class SettingsObject (S : Type) := {
  getattr : S -> string -> result attr;
}.

(** Reading a data attribute of a [Settings] instance: the declared
    fields, and [AttributeError] for any other name (the model forbids
    extra fields, so an instance has no others). *)
Definition Settings_getattr (s : Settings) (name : string) : result attr :=
  if String.eqb name "app_name" then Ok (AStr (app_name s))
  else if String.eqb name "environment" then Ok (AStr (environment s))
  else if String.eqb name "mongo_uri" then Ok (AStr (mongo_uri s))
  else if String.eqb name "mongo_db" then Ok (AStr (mongo_db s))
  else if String.eqb name "storage_bucket" then Ok (AStr (storage_bucket s))
  else if String.eqb name "upload_dir" then Ok (APath (upload_dir s))
  else if String.eqb name "model_path" then Ok (APath (model_path s))
  else if String.eqb name "inference_batch_size" then Ok (AInt (inference_batch_size s))
  else if String.eqb name "allow_origins" then Ok (AStrList (allow_origins s))
  else if String.eqb name "infra_path" then Ok (opt_path (infra_path s))
  else if String.eqb name "momo_path" then Ok (opt_path (momo_path s))
  else Raise (attribute_error "Settings" name).

#[global] Instance Settings_object : SettingsObject Settings := {|
  getattr := Settings_getattr;
|}.

(** A settings object given by a table of attributes, for configurations
    that carry attributes [Settings] does not declare. *)
#[global] Instance table_object : SettingsObject (gmap string attr) := {|
  getattr := fun t name => of_option (t !! name) (attribute_error "Settings" name);
|}.

(** [c.lower()] on an ASCII character. *)
Definition lower_ascii (c : Ascii.ascii) : Ascii.ascii :=
  let n := Ascii.nat_of_ascii c in
  if (65 <=? n)%nat && (n <=? 90)%nat then Ascii.ascii_of_nat (n + 32) else c.

(** [s.lower()] *)
Fixpoint str_lower (s : string) : string :=
  match s with
  | EmptyString => EmptyString
  | String c rest => String (lower_ascii c) (str_lower rest)
  end.

(** [a.lower()]: only strings have the method. *)
Definition attr_lower (a : attr) : result string :=
  match a with
  | AStr s => Ok (str_lower s)
  | ANone => Raise (attribute_error "NoneType" "lower")
  | APath _ => Raise (attribute_error "PosixPath" "lower")
  | AInt _ => Raise (attribute_error "int" "lower")
  | AStrList _ => Raise (attribute_error "list" "lower")
  end.

(** [settings.model_type.lower() == "pytorch"] *)
Definition model_type_is_pytorch {S} {SO : SettingsObject S} (settings : S) : result bool :=
  mt ← getattr settings "model_type";
  low ← attr_lower mt;
  Ok (String.eqb low "pytorch").

(** ** The world the backend runs in *)

(** Field values of a stored document. *)
Inductive value (F : Type) :=
  | VNull
  | VStr (s : string)
  | VInt (n : Z)
  | VFloat (x : F)
  | VDateTime (t : Z)
  | VDict (d : gmap string F).
Arguments VNull {F}.
Arguments VStr {F} s.
Arguments VInt {F} n.
Arguments VFloat {F} x.
Arguments VDateTime {F} t.
Arguments VDict {F} d.

(** A one-dimensional waveform or a two-dimensional feature matrix. *)
Inductive array (F : Type) :=
  | Arr1 (a : list F)
  | Arr2 (a : list (list F)).
Arguments Arr1 {F} a.
Arguments Arr2 {F} a.

Inductive backend := ONNX | PYTORCH.

#[global] Instance backend_eq_dec : EqDecision backend.
Proof. solve_decision. Defined.

(** The tail of [predict] of the service of backend [b]. *)
Definition postprocess {F} {NP : NumPy F} (b : backend) (logits : list F)
    : result (PredictResult F) :=
  match b with
  | ONNX => onnx_postprocess logits
  | PYTORCH => pytorch_postprocess logits
  end.

(** What the model observes of the calls into the ML runtimes. *)
Inductive event (F : Type) :=
  | EvSessionCreated (session : nat)
  | EvModelLoaded (model classifier : nat)
  | EvPredict (b : backend) (input : array F).
Arguments EvSessionCreated {F} session.
Arguments EvModelLoaded {F} model classifier.
Arguments EvPredict {F} b input.

(** [AudioInferenceService]: the fields of an instance. *)
Record AudioInferenceService := {
  onnx_model_path : attr;
  _session : option nat;
}.

(** [PyTorchAudioInferenceService]: the fields of an instance. *)
Record PyTorchAudioInferenceService := {
  pt_model_path : attr;
  pt_icbhi_path : attr;
  _model : option nat;
  _classifier : option nat;
  _model_info : option nat;
}.

Record World (F : Type) := {
  documents : gmap string (gmap string (value F)); (* collection "predictions", by _id *)
  files : gmap string string;                      (* stored uploads: path to content *)
  clock : Z;                                       (* datetime.utcnow() *)
  base_dir : string;                               (* storage_service.base_dir *)
  inference_service : AudioInferenceService;       (* module global *)
  pytorch_inference_service : option PyTorchAudioInferenceService; (* module global *)
  scheduled : list (string * string);              (* tasks made by asyncio.create_task *)
  sys_path : list string;
  cwd : string;
  log : list (event F);
}.
Arguments documents {F} _.
Arguments files {F} _.
Arguments clock {F} _.
Arguments base_dir {F} _.
Arguments inference_service {F} _.
Arguments pytorch_inference_service {F} _.
Arguments scheduled {F} _.
Arguments sys_path {F} _.
Arguments cwd {F} _.
Arguments log {F} _.

Definition set_documents {F} (d : gmap string (gmap string (value F))) (w : World F) : World F :=
  {| documents := d; files := files w; clock := clock w; base_dir := base_dir w;
     inference_service := inference_service w;
     pytorch_inference_service := pytorch_inference_service w;
     scheduled := scheduled w; sys_path := sys_path w; cwd := cwd w; log := log w |}.

Definition set_files {F} (f : gmap string string) (w : World F) : World F :=
  {| documents := documents w; files := f; clock := clock w; base_dir := base_dir w;
     inference_service := inference_service w;
     pytorch_inference_service := pytorch_inference_service w;
     scheduled := scheduled w; sys_path := sys_path w; cwd := cwd w; log := log w |}.

Definition set_clock {F} (c : Z) (w : World F) : World F :=
  {| documents := documents w; files := files w; clock := c; base_dir := base_dir w;
     inference_service := inference_service w;
     pytorch_inference_service := pytorch_inference_service w;
     scheduled := scheduled w; sys_path := sys_path w; cwd := cwd w; log := log w |}.

Definition set_inference_service {F} (s : AudioInferenceService) (w : World F) : World F :=
  {| documents := documents w; files := files w; clock := clock w; base_dir := base_dir w;
     inference_service := s;
     pytorch_inference_service := pytorch_inference_service w;
     scheduled := scheduled w; sys_path := sys_path w; cwd := cwd w; log := log w |}.

Definition set_pytorch_inference_service {F} (s : option PyTorchAudioInferenceService)
    (w : World F) : World F :=
  {| documents := documents w; files := files w; clock := clock w; base_dir := base_dir w;
     inference_service := inference_service w;
     pytorch_inference_service := s;
     scheduled := scheduled w; sys_path := sys_path w; cwd := cwd w; log := log w |}.

Definition set_scheduled {F} (t : list (string * string)) (w : World F) : World F :=
  {| documents := documents w; files := files w; clock := clock w; base_dir := base_dir w;
     inference_service := inference_service w;
     pytorch_inference_service := pytorch_inference_service w;
     scheduled := t; sys_path := sys_path w; cwd := cwd w; log := log w |}.

Definition set_sys_path {F} (p : list string) (w : World F) : World F :=
  {| documents := documents w; files := files w; clock := clock w; base_dir := base_dir w;
     inference_service := inference_service w;
     pytorch_inference_service := pytorch_inference_service w;
     scheduled := scheduled w; sys_path := p; cwd := cwd w; log := log w |}.

Definition set_cwd {F} (d : string) (w : World F) : World F :=
  {| documents := documents w; files := files w; clock := clock w; base_dir := base_dir w;
     inference_service := inference_service w;
     pytorch_inference_service := pytorch_inference_service w;
     scheduled := scheduled w; sys_path := sys_path w; cwd := d; log := log w |}.

Definition set_log {F} (l : list (event F)) (w : World F) : World F :=
  {| documents := documents w; files := files w; clock := clock w; base_dir := base_dir w;
     inference_service := inference_service w;
     pytorch_inference_service := pytorch_inference_service w;
     scheduled := scheduled w; sys_path := sys_path w; cwd := cwd w; log := l |}.

(** *** Computations: state passing with exceptions

    A raised exception keeps the state changes made before it. *)

Definition M (F A : Type) : Type := World F -> result A * World F.

#[global] Instance M_ret {F} : MRet (M F) := fun _ a w => (Ok a, w).
#[global] Instance M_bind {F} : MBind (M F) := fun _ _ f m w =>
  match m w with
  | (Ok a, w') => f a w'
  | (Raise e, w') => (Raise e, w')
  end.

Definition get_world {F} : M F (World F) := fun w => (Ok w, w).
Definition modify {F} (f : World F -> World F) : M F unit := fun w => (Ok tt, f w).
Definition raise {F A} (e : exn) : M F A := fun w => (Raise e, w).
Definition lift {F A} (r : result A) : M F A := fun w => (r, w).
Definition ask {F A} (f : World F -> result A) : M F A := fun w => (f w, w).

(** [try: body except Exception as exc: handler(exc)] *)
Definition try_except {F A} (body : M F A) (handler : exn -> M F A) : M F A := fun w =>
  match body w with
  | (Ok a, w') => (Ok a, w')
  | (Raise e, w') => handler e w'
  end.

(** [try: body finally: fin] *)
Definition try_finally {F A} (body : M F A) (fin : M F unit) : M F A := fun w =>
  let '(r, w') := body w in
  match fin w' with
  | (Ok _, w'') => (r, w'')
  | (Raise e, w'') => (Raise e, w'')
  end.

Definition emit {F} (e : event F) : M F unit :=
  modify (fun w => set_log (log w ++ [e]) w).

(** [datetime.utcnow()]: reads the clock, which then moves on.  The
    clock counts microseconds, the resolution of a Python [datetime]. *)
Definition utcnow {F} : M F Z := fun w => (Ok (clock w), set_clock (clock w + 1)%Z w).

(** *** The libraries the backend calls

    Each call is a function of its arguments and of the world it is made
    in, returning a value or raising. *)

(** [checkpoint["args"]] as far as the loader reads it. *)
Record Args := {
  args_model : option string;   (* getattr(args, "model", None) *)
}.

Record Checkpoint := {
  ckpt_ref : nat;
  ckpt_args : option Args;      (* checkpoint.get("args", None) *)
}.

(** What [torch.load] returns.  With [weights_only=False] it is whatever
    object was pickled: a dictionary, as the training script saves it
    (its [args] absent, [None] or a namespace), or an object of another
    class, named by its type. *)
Inductive pickled :=
  | PickledDict (checkpoint : Checkpoint)
  | PickledObject (type_name : string).

Class Runtime (F : Type) := {
  (* bson: ObjectId(s), as the canonical string of the id; None is InvalidId *)
  ObjectId : string -> option string;
  (* the id the driver gives an inserted document *)
  new_object_id : World F -> string;
  (* pathlib *)
  path_suffix : string -> string;
  path_name : string -> string;
  path_join : string -> string -> string;
  (* Path(p).absolute(): it asks for the working directory when p is
     relative, and raises what that raises *)
  path_absolute : World F -> string -> result string;
  (* Path(p).exists(): False when nothing is there; an error other than
     that (no permission to look) is raised *)
  path_exists : World F -> string -> result bool;
  (* uuid.uuid4().hex *)
  uuid4_hex : World F -> string;
  (* librosa.load(path, sr=sample_rate, mono=True)[0] *)
  librosa_load : World F -> string -> Z -> result (list F);
  (* the body of extract_mel_spectrogram: librosa and NumPy calls on floats *)
  mel_spectrogram : list F -> result (list (list F));
  (* ort.InferenceSession(path, providers=...) *)
  ort_InferenceSession : World F -> string -> result nat;
  (* expand_dims, session.run and squeeze: the logits of one clip *)
  session_run : World F -> nat -> array F -> result (list F);
  (* executing the module pytorch_inference (imports torch) *)
  import_pytorch_inference : World F -> result unit;
  (* PyTorchModelLoader(model_path, icbhi_path).get_model_info(): it may
     raise; what it returns is stored in _model_info and not read again *)
  loader_get_model_info : World F -> attr -> attr -> result nat;
  (* torch.load(path, map_location="cpu", weights_only=False) *)
  torch_load : World F -> string -> result pickled;
  (* os.chdir(path) *)
  os_chdir : World F -> string -> result unit;
  (* from models import get_backbone_class *)
  import_get_backbone_class : World F -> result unit;
  (* building the backbone named by model_type with its keyword arguments *)
  build_backbone : World F -> Checkpoint -> string -> string -> result nat;
  (* model.load_state_dict, model.eval, the classifier and its state *)
  restore_state : World F -> Checkpoint -> nat -> result nat;
  (* model.to(device), classifier.to(device), model.eval(), classifier.eval() *)
  to_device_eval : World F -> nat -> nat -> result unit;
  (* tensor conversion, model and classifier forward passes, squeeze *)
  torch_forward : World F -> nat -> nat -> array F -> result (list F);
  (* traceback.format_exc() *)
  format_exc : exn -> string;
}.

Section Backend.
Context {F : Type} {NP : NumPy F} {RT : Runtime F}.

(** ** utils/audio.py *)

Definition DEFAULT_SAMPLE_RATE : Z := 16000.
Definition DEFAULT_DURATION_SEC : Z := 5.

(** [a[:stop]] on a one-dimensional array, for any integer [stop]. *)
Definition slice_to {A} (a : list A) (stop : Z) : list A :=
  if (stop <? 0)%Z then take (length a - Z.to_nat (- stop)) a
  else take (Z.to_nat stop) a.

(** [np.pad(a, (0, pad_width))]: zeros appended. *)
Definition np_pad_end (a : list F) (pad_width : Z) : list F :=
  a ++ replicate (Z.to_nat pad_width) np_zero.

(** The part of [load_waveform] after [librosa.load]. *)
Definition fit_length (waveform : list F) (sample_rate : Z) : list F :=
  let target_length := (sample_rate * DEFAULT_DURATION_SEC)%Z in
  if (Z.of_nat (length waveform) <? target_length)%Z then
    let pad_width := (target_length - Z.of_nat (length waveform))%Z in
    np_pad_end waveform pad_width
  else slice_to waveform target_length.

Definition load_waveform (path : string) (sample_rate : Z) : M F (list F) :=
  waveform ← ask (fun w => librosa_load w path sample_rate);
  mret (fit_length waveform sample_rate).

Definition extract_mel_spectrogram (waveform : list F) : M F (list (list F)) :=
  lift (mel_spectrogram waveform).

(** ** services/inference.py: [AudioInferenceService] *)

Definition assertion_error : exn := Exn AssertionError "".

(** [AudioInferenceService.load]: run alone, entering and leaving
    [async with self._lock] is immediate. *)
Definition onnx_load : M F unit :=
  w ← get_world;
  let svc := inference_service w in
  match _session svc with
  | None =>
      s ← ask (fun w => ort_InferenceSession w (attr_str (onnx_model_path svc)));
      modify (set_inference_service
                {| onnx_model_path := onnx_model_path svc; _session := Some s |});;
      emit (EvSessionCreated s)
  | Some _ => mret tt
  end.

(** [AudioInferenceService.predict] *)
Definition onnx_predict (features : array F) : M F (PredictResult F) :=
  emit (EvPredict ONNX features);;
  w ← get_world;
  (match _session (inference_service w) with
   | None => onnx_load
   | Some _ => mret tt
   end);;
  w ← get_world;
  match _session (inference_service w) with
  | None => raise assertion_error
  | Some s =>
      logits ← ask (fun w => session_run w s features);
      lift (onnx_postprocess logits)
  end.

(** ** models/hftt_model.py *)

Definition opt_eqb (o : option string) (s : string) : bool :=
  match o with Some x => String.eqb x s | None => false end.

Definition opt_show (o : option string) : string :=
  match o with Some x => x | None => "None" end.

(** [os.chdir(path)] *)
Definition chdir (path : string) : M F unit :=
  ask (fun w => os_chdir w path);;
  modify (set_cwd path).

(** Lines 123 to 183: the inner [try], with [finally: os.chdir(original_cwd)]. *)
Definition import_and_build (checkpoint : Checkpoint) (model_type : option string)
    (icbhi_path_str original_cwd : string) : M F (nat * nat) :=
  try_finally
    (chdir icbhi_path_str;;
     ask import_get_backbone_class;;
     model ← (if opt_eqb model_type "hftt" then
                ask (fun w => build_backbone w checkpoint "hftt" icbhi_path_str)
              else if opt_eqb model_type "beats" then
                ask (fun w => build_backbone w checkpoint "beats" icbhi_path_str)
              else
                raise (value_error ("Unsupported model type: " +:+ opt_show model_type)));
     classifier ← ask (fun w => restore_state w checkpoint model);
     mret (model, classifier))
    (chdir original_cwd).

(** Line 109, [checkpoint.get("args", None)], reads the dictionary; an
    object of a class without [get] raises [AttributeError]. *)
Definition checkpoint_get (loaded : pickled) : result Checkpoint :=
  match loaded with
  | PickledDict checkpoint => Ok checkpoint
  | PickledObject type_name => Raise (attribute_error type_name "get")
  end.

(** The world after lines 115 and 116: the directory is put first on
    [sys.path] unless it is on it already. *)
Definition with_icbhi_on_path (icbhi_path_str : string) (w : World F) : World F :=
  if bool_decide (icbhi_path_str ∈ sys_path w) then w
  else set_sys_path (icbhi_path_str :: sys_path w) w.

(** [Path(icbhi_path).exists()] *)
Definition icbhi_exists (icbhi_path : attr) (w : World F) : result bool :=
  p ← Path_of icbhi_path;
  path_exists w p.

(** [str(Path(icbhi_path).absolute())] *)
Definition icbhi_absolute (icbhi_path : attr) (w : World F) : result string :=
  p ← Path_of icbhi_path;
  path_absolute w p.

(** [use_icbhi_import and icbhi_path and Path(icbhi_path).exists()]:
    the path is made and [exists()] called only when the first two are
    true. *)
Definition import_guard (icbhi_path : attr) (use_icbhi_import : bool) (w : World F)
    : result bool :=
  if use_icbhi_import && truthy icbhi_path then icbhi_exists icbhi_path w
  else Ok false.

(** Lines 106 to 116 run before the [try] of line 118: what they raise
    leaves the function as it is. *)
Definition load_model_with_wrapper (checkpoint_path : string) (icbhi_path : attr)
    (use_icbhi_import : bool) : M F (nat * nat) :=
  loaded ← ask (fun w => torch_load w checkpoint_path);
  checkpoint ← lift (checkpoint_get loaded);
  let args := ckpt_args checkpoint in
  let model_type := match args with Some a => args_model a | None => None end in
  guard ← ask (import_guard icbhi_path use_icbhi_import);
  if guard : bool then
    icbhi_path_str ← ask (icbhi_absolute icbhi_path);
    modify (with_icbhi_on_path icbhi_path_str);;
    try_except
      (w ← get_world;
       let original_cwd := cwd w in
       import_and_build checkpoint model_type icbhi_path_str original_cwd)
      (fun e =>
         let error_msg := "Could not import from ICBHI_2017: " +:+ str_exc e +:+ format_exc e in
         raise (Exn RuntimeError
                  ("Failed to load PyTorch model from " +:+ checkpoint_path +:+ ": "
                   +:+ error_msg +:+ "Make sure ICBHI_2017 directory is accessible at "
                   +:+ attr_str icbhi_path)))
  else
    raise (Exn RuntimeError
             ("Cannot load model without ICBHI_2017 architecture. "
              +:+ "Please ensure ICBHI_2017 directory is accessible or provide icbhi_path.")).

(** ** services/pytorch_inference.py: [PyTorchAudioInferenceService] *)

Definition set_pt (f : PyTorchAudioInferenceService -> PyTorchAudioInferenceService)
    : M F unit :=
  modify (fun w => set_pytorch_inference_service (f <$> pytorch_inference_service w) w).

(** The instance [self] is the global one; calling a method of an
    instance that was never made cannot happen. *)
Definition pt_self : M F PyTorchAudioInferenceService :=
  w ← get_world;
  lift (of_option (pytorch_inference_service w) (attribute_error "NoneType" "predict")).

(** The [RuntimeError] that [load] raises from the exception [e]: its
    message holds the model path, [str(e)] and the traceback. *)
Definition load_failure (self : PyTorchAudioInferenceService) (e : exn) : exn :=
  Exn RuntimeError
    ("Failed to load PyTorch model from " +:+ attr_str (pt_model_path self)
     +:+ " Error: " +:+ str_exc e +:+ " Traceback: " +:+ format_exc e).

(** [PyTorchAudioInferenceService.load] *)
Definition pytorch_load : M F unit :=
  self ← pt_self;
  match _model self with
  | None =>
      try_except
        (info ← ask (fun w => loader_get_model_info w (pt_model_path self) (pt_icbhi_path self));
         set_pt (fun s => {| pt_model_path := pt_model_path s; pt_icbhi_path := pt_icbhi_path s;
                             _model := _model s; _classifier := _classifier s;
                             _model_info := Some info |});;
         mc ← load_model_with_wrapper (attr_str (pt_model_path self)) (pt_icbhi_path self) true;
         set_pt (fun s => {| pt_model_path := pt_model_path s; pt_icbhi_path := pt_icbhi_path s;
                             _model := Some mc.1; _classifier := Some mc.2;
                             _model_info := _model_info s |});;
         emit (EvModelLoaded mc.1 mc.2);;
         ask (fun w => to_device_eval w mc.1 mc.2))
        (fun e => raise (load_failure self e))
  | Some _ => mret tt
  end.

(** [PyTorchAudioInferenceService.predict] *)
Definition pytorch_predict (waveform : array F) : M F (PredictResult F) :=
  emit (EvPredict PYTORCH waveform);;
  self ← pt_self;
  (match _model self with
   | None => pytorch_load
   | Some _ => mret tt
   end);;
  self ← pt_self;
  match _model self, _classifier self with
  | Some model, Some classifier =>
      logits ← ask (fun w => torch_forward w model classifier waveform);
      lift (pytorch_postprocess logits)
  | _, _ => raise assertion_error
  end.

(** [PyTorchAudioInferenceService()] with both arguments at their default [None]. *)
Definition new_PyTorchAudioInferenceService {S} {SO : SettingsObject S} (settings : S)
    : M F PyTorchAudioInferenceService :=
  mp ← lift (getattr settings "model_path");
  ip ← lift (getattr settings "icbhi_path");
  mret {| pt_model_path := mp; pt_icbhi_path := ip;
          _model := None; _classifier := None; _model_info := None |}.

Definition get_pytorch_inference_service {S} {SO : SettingsObject S} (settings : S) : M F backend :=
  w ← get_world;
  match pytorch_inference_service w with
  | None =>
      svc ← new_PyTorchAudioInferenceService settings;
      modify (set_pytorch_inference_service (Some svc));;
      mret PYTORCH
  | Some _ => mret PYTORCH
  end.

(** [get_inference_service]: the result names which of the two global
    service objects is returned. *)
Definition get_inference_service {S} {SO : SettingsObject S} (settings : S) : M F backend :=
  is_pt ← lift (model_type_is_pytorch settings);
  if is_pt : bool then
    ask import_pytorch_inference;;
    get_pytorch_inference_service settings
  else mret ONNX.

(** [service.predict(x)] on the object [get_inference_service] returned. *)
Definition predict (service : backend) (x : array F) : M F (PredictResult F) :=
  match service with
  | ONNX => onnx_predict x
  | PYTORCH => pytorch_predict x
  end.

End Backend.

(** ** models/prediction.py: the pydantic models *)

Record PredictionCreate := {
  pc_filename : string;
  pc_content_type : string;
  pc_file_size : Z;
  pc_storage_path : string;
  pc_user_id : option string;
}.

Record Prediction (F : Type) := {
  p_id : string;
  p_filename : string;
  p_content_type : string;
  p_file_size : Z;
  p_storage_path : string;
  p_status : PredictionStatus;
  p_label : option Label;
  p_confidence : option F;
  p_probabilities : option (gmap string F);
  p_created_at : Z;
  p_updated_at : Z;
  p_user_id : option string;
  p_notes : option string;
}.
Arguments p_id {F} _.
Arguments p_filename {F} _.
Arguments p_content_type {F} _.
Arguments p_file_size {F} _.
Arguments p_storage_path {F} _.
Arguments p_status {F} _.
Arguments p_label {F} _.
Arguments p_confidence {F} _.
Arguments p_probabilities {F} _.
Arguments p_created_at {F} _.
Arguments p_updated_at {F} _.
Arguments p_user_id {F} _.
Arguments p_notes {F} _.

Definition validation_error (field : string) : exn :=
  Exn ValidationError ("validation error for Prediction: " +:+ field).

Section Validation.
Context {F : Type}.

Definition required_str (doc : gmap string (value F)) (k : string) : result string :=
  match doc !! k with
  | Some (VStr s) => Ok s
  | _ => Raise (validation_error k)
  end.

Definition required_int (doc : gmap string (value F)) (k : string) : result Z :=
  match doc !! k with
  | Some (VInt n) => Ok n
  | _ => Raise (validation_error k)
  end.

Definition optional_str (doc : gmap string (value F)) (k : string) : result (option string) :=
  match doc !! k with
  | None | Some VNull => Ok None
  | Some (VStr s) => Ok (Some s)
  | _ => Raise (validation_error k)
  end.

Definition optional_float (doc : gmap string (value F)) (k : string) : result (option F) :=
  match doc !! k with
  | None | Some VNull => Ok None
  | Some (VFloat x) => Ok (Some x)
  | _ => Raise (validation_error k)
  end.

Definition optional_dict (doc : gmap string (value F)) (k : string)
    : result (option (gmap string F)) :=
  match doc !! k with
  | None | Some VNull => Ok None
  | Some (VDict d) => Ok (Some d)
  | _ => Raise (validation_error k)
  end.

(** A datetime field with [default_factory=datetime.utcnow]. *)
Definition datetime_field (doc : gmap string (value F)) (k : string) (now : Z) : result Z :=
  match doc !! k with
  | None => Ok now
  | Some (VDateTime t) => Ok t
  | _ => Raise (validation_error k)
  end.

Definition Label_of_value (s : string) : option Label :=
  if String.eqb s "crackle" then Some CRACKLE
  else if String.eqb s "wheeze" then Some WHEEZE
  else if String.eqb s "both" then Some BOTH
  else if String.eqb s "none" then Some NONE
  else None.

Definition PredictionStatus_of_value (s : string) : option PredictionStatus :=
  if String.eqb s "pending" then Some PENDING
  else if String.eqb s "processing" then Some PROCESSING
  else if String.eqb s "completed" then Some COMPLETED
  else if String.eqb s "failed" then Some FAILED
  else None.

Definition status_field (doc : gmap string (value F)) : result PredictionStatus :=
  match doc !! "status" with
  | None => Ok PENDING
  | Some (VStr s) => of_option (PredictionStatus_of_value s) (validation_error "status")
  | _ => Raise (validation_error "status")
  end.

Definition label_field (doc : gmap string (value F)) : result (option Label) :=
  match doc !! "label" with
  | None | Some VNull => Ok None
  | Some (VStr s) =>
      match Label_of_value s with
      | Some l => Ok (Some l)
      | None => Raise (validation_error "label")
      end
  | _ => Raise (validation_error "label")
  end.

(** The [Prediction] built from the keys of a document whose [_id] is the string [id]:
    each declared field is read from the document with its declared type
    and default; keys the model does not declare are ignored.  A field
    holding a value of another type is rejected; pydantic would convert
    some such values (a numeric string for [file_size]), which no
    document that [create] or [update_status] writes holds. *)
Definition Prediction_validate (id : string) (doc : gmap string (value F)) (now : Z)
    : result (Prediction F) :=
  filename ← required_str doc "filename";
  content_type ← required_str doc "content_type";
  file_size ← required_int doc "file_size";
  storage_path ← required_str doc "storage_path";
  status ← status_field doc;
  lbl ← label_field doc;
  conf ← optional_float doc "confidence";
  probs ← optional_dict doc "probabilities";
  created_at ← datetime_field doc "created_at" now;
  updated_at ← datetime_field doc "updated_at" now;
  user_id ← optional_str doc "user_id";
  notes ← optional_str doc "notes";
  Ok {| p_id := id; p_filename := filename; p_content_type := content_type;
        p_file_size := file_size; p_storage_path := storage_path; p_status := status;
        p_label := lbl; p_confidence := conf; p_probabilities := probs;
        p_created_at := created_at; p_updated_at := updated_at;
        p_user_id := user_id; p_notes := notes |}.

End Validation.

Section Repository.
Context {F : Type} {NP : NumPy F} {RT : Runtime F}.

(** ** repositories/predictions.py: [PredictionRepository]

    The collection maps the [_id] of a document to its other fields. *)

Definition opt_str_value (o : option string) : value F :=
  match o with Some s => VStr s | None => VNull end.

(** [payload.model_dump()] *)
Definition model_dump (payload : PredictionCreate) : gmap string (value F) :=
  {[ "filename" := VStr (pc_filename payload);
     "content_type" := VStr (pc_content_type payload);
     "file_size" := VInt (pc_file_size payload);
     "storage_path" := VStr (pc_storage_path payload);
     "user_id" := opt_str_value (pc_user_id payload) ]}.

(** The [Prediction] built from a document, the default factories reading the clock. *)
Definition to_Prediction (id : string) (doc : gmap string (value F)) : M F (Prediction F) :=
  w ← get_world;
  lift (Prediction_validate id doc (clock w)).

(** A BSON datetime counts milliseconds: the driver cuts the
    microseconds of a [datetime] down to whole milliseconds when it
    encodes one. *)
Definition bson_datetime (t : Z) : Z := (t / 1000 * 1000)%Z.

(** A field value as the collection keeps it. *)
Definition bson (v : value F) : value F :=
  match v with
  | VDateTime t => VDateTime (bson_datetime t)
  | _ => v
  end.

(** [collection.insert_one(document)]: the driver picks the id; an id
    already present is a duplicate-key error.  What is stored is the
    encoded document. *)
Definition insert_one (document : gmap string (value F)) : M F string :=
  w ← get_world;
  let oid := new_object_id w in
  match documents w !! oid with
  | Some _ => raise (Exn DuplicateKeyError "duplicate key error")
  | None =>
      modify (set_documents (<[oid := bson <$> document]> (documents w)));;
      mret oid
  end.

(** [document = payload.model_dump()] after [document.update({...})]. *)
Definition created_document (payload : PredictionCreate) (created updated : Z)
    : gmap string (value F) :=
  <["updated_at" := VDateTime updated]>
    (<["created_at" := VDateTime created]>
       (<["status" := VStr (PredictionStatus_value PENDING)]> (model_dump payload))).

Definition create (payload : PredictionCreate) : M F (Prediction F) :=
  created ← utcnow;
  updated ← utcnow;
  let document := created_document payload created updated in
  inserted_id ← insert_one document;
  to_Prediction inserted_id document.

Definition invalid_id (s : string) : exn :=
  Exn InvalidId ("'" +:+ s +:+ "' is not a valid ObjectId").

Definition get (prediction_id : string) : M F (option (Prediction F)) :=
  match ObjectId prediction_id with
  | None => mret None
  | Some oid =>
      w ← get_world;
      match documents w !! oid with
      | None => mret None
      | Some document => p ← to_Prediction oid document; mret (Some p)
      end
  end.

(** [collection.find_one_and_update({"_id": oid}, {"$set": updates},
    return_document=ReturnDocument.AFTER)] *)
Definition find_one_and_update (oid : string) (updates : gmap string (value F))
    : M F (option (gmap string (value F))) :=
  w ← get_world;
  match documents w !! oid with
  | None => mret None
  | Some document =>
      let after := (bson <$> updates) ∪ document in
      modify (set_documents (<[oid := after]> (documents w)));;
      mret (Some after)
  end.

(** The dictionary [updates] that [update_status] builds. *)
Definition status_updates (status : PredictionStatus) (now : Z)
    (lbl : option Label) (conf : option F) (probs : option (gmap string F))
    (notes : option string) : gmap string (value F) :=
  let updates : gmap string (value F) :=
    {[ "status" := VStr (PredictionStatus_value status); "updated_at" := VDateTime now ]} in
  let updates := match lbl with
                 | Some l => <["label" := VStr (Label_value l)]> updates
                 | None => updates
                 end in
  let updates := match conf with
                 | Some c => <["confidence" := VFloat c]> updates
                 | None => updates
                 end in
  let updates := match probs with
                 | Some d => <["probabilities" := VDict d]> updates
                 | None => updates
                 end in
  match notes with
  | Some n => <["notes" := VStr n]> updates
  | None => updates
  end.

Definition update_status (prediction_id : string) (status : PredictionStatus)
    (lbl : option Label) (conf : option F) (probs : option (gmap string F))
    (notes : option string) : M F (option (Prediction F)) :=
  now ← utcnow;
  let updates := status_updates status now lbl conf probs notes in
  oid ← lift (of_option (ObjectId prediction_id) (invalid_id prediction_id));
  document ← find_one_and_update oid updates;
  match document with
  | None => mret None
  | Some d => p ← to_Prediction oid d; mret (Some p)
  end.

(** The keys [update_status] may write. *)
Definition status_keys : gset string :=
  {[ "status"; "updated_at"; "label"; "confidence"; "probabilities"; "notes" ]}.

(** ** services/storage.py *)

Record UploadFile := {
  upload_filename : option string;
  upload_content_type : option string;
  upload_body : string;
}.

(** [x or y] on strings *)
Definition str_or (x y : string) : string := if String.eqb x "" then y else x.

Definition opt_str_or (x : option string) (y : string) : string :=
  match x with Some s => str_or s y | None => y end.

(** [save_upload]: the chunks read from the upload, written in order,
    make up its whole body. *)
Definition save_upload (upload : UploadFile) : M F string :=
  let suffix := str_or (path_suffix (opt_str_or (upload_filename upload) "")) ".wav" in
  w ← get_world;
  let dest_path := path_join (base_dir w) (uuid4_hex w +:+ suffix) in
  modify (set_files (<[dest_path := upload_body upload]> (files w)));;
  mret dest_path.

(** Where [save_upload] puts an upload made in the world [w]. *)
Definition upload_path (file : UploadFile) (w : World F) : string :=
  path_join (base_dir w)
    (uuid4_hex w +:+ str_or (path_suffix (opt_str_or (upload_filename file) "")) ".wav").

(** The world in which the driver picks the id of the document that
    [upload_audio] creates: the file stored, the clock read twice. *)
Definition upload_insert_world (file : UploadFile) (w : World F) : World F :=
  set_clock (clock w + 1 + 1)
    (set_files (<[upload_path file w := upload_body file]> (files w)) w).

(** [saved_path.stat().st_size] *)
Definition stat_size (path : string) : M F Z :=
  w ← get_world;
  match files w !! path with
  | Some content => mret (Z.of_nat (String.length content))
  | None => raise (Exn FileNotFoundError path)
  end.

(** ** routers/audio.py *)

(** [not file.content_type or not file.content_type.startswith("audio")] *)
Definition unsupported_type (content_type : option string) : bool :=
  match content_type with
  | None => true
  | Some ct => String.eqb ct "" || negb (String.prefix "audio" ct)
  end.

(** The coroutine [asyncio.create_task] is given is recorded, not run. *)
Definition create_task (prediction_id audio_path : string) : M F unit :=
  modify (fun w => set_scheduled (scheduled w ++ [(prediction_id, audio_path)]) w).

(** [upload_audio]; the first component of the result is the response
    status the route declares. *)
Definition upload_audio (file : UploadFile) : M F (Z * Prediction F) :=
  if unsupported_type (upload_content_type file) then
    raise (Exn (HTTPException 400) "Unsupported file type")
  else
    saved_path ← save_upload file;
    size ← stat_size saved_path;
    prediction ← create {| pc_filename := opt_str_or (upload_filename file) (path_name saved_path);
                           pc_content_type := default "" (upload_content_type file);
                           pc_file_size := size;
                           pc_storage_path := saved_path;
                           pc_user_id := None |};
    create_task (p_id prediction) saved_path;;
    mret (201%Z, prediction).

Definition get_prediction (prediction_id : string) : M F (Prediction F) :=
  prediction ← get prediction_id;
  match prediction with
  | None => raise (Exn (HTTPException 404) "Prediction not found")
  | Some p => mret p
  end.

(** The [try] body of [_process_prediction] up to the inference result. *)
Definition run_inference {S} {SO : SettingsObject S} (settings : S) (audio_path : string)
    : M F (PredictResult F) :=
  service ← get_inference_service settings;
  waveform ← load_waveform audio_path DEFAULT_SAMPLE_RATE;
  is_pt ← lift (model_type_is_pytorch settings);
  if is_pt : bool then predict service (Arr1 waveform)
  else
    features ← extract_mel_spectrogram waveform;
    predict service (Arr2 features).

Definition _process_prediction {S} {SO : SettingsObject S} (settings : S)
    (prediction_id audio_path : string) : M F unit :=
  try_finally
    (try_except
       (res ← run_inference settings audio_path;
        update_status prediction_id COMPLETED
          (Some (label res)) (Some (confidence res)) (Some (probabilities res)) None;;
        mret tt)
       (fun exc =>
          update_status prediction_id FAILED None None None (Some (str_exc exc));;
          mret tt))
    (mret tt).

(** The record [after] is the record [doc] completed with the result
    [res]: status, label, confidence and probabilities are those of the
    result. *)
Definition completed_with (doc after : gmap string (value F)) (res : PredictResult F) : Prop :=
  after !! "status" = Some (VStr (PredictionStatus_value COMPLETED)) /\
  after !! "label" = Some (VStr (Label_value (label res))) /\
  after !! "confidence" = Some (VFloat (confidence res)) /\
  after !! "probabilities" = Some (VDict (probabilities res)) /\
  after !! "notes" = doc !! "notes".

(** The record [after] is the record [doc] failed with the exception
    [exc]: the notes are its string, no result is written. *)
Definition failed_with (doc after : gmap string (value F)) (exc : exn) : Prop :=
  after !! "status" = Some (VStr (PredictionStatus_value FAILED)) /\
  after !! "notes" = Some (VStr (str_exc exc)) /\
  after !! "label" = doc !! "label" /\
  after !! "confidence" = doc !! "confidence" /\
  after !! "probabilities" = doc !! "probabilities".

(** The terminal status that belongs to the outcome of a step. *)
Definition terminal_status (doc after : gmap string (value F))
    (outcome : result (PredictResult F)) : Prop :=
  match outcome with
  | Ok res => completed_with doc after res
  | Raise exc => failed_with doc after exc
  end.

End Repository.

(** ** Lazy loading under interleaving

    Several coroutines call [predict] or [load] on one service object.
    Each is at one of the program points below; a step runs one
    coroutine from its point to the next.  The points are finer than the
    event loop's (which switches coroutines only at an [await]), so
    every schedule of the event loop is a run of this system. *)

Inductive pc :=
  | AtPredict                       (* predict: before [if self._session is None] *)
  | AtAcquire (in_predict : bool)   (* load: at [async with self._lock] *)
  | AtCheck (in_predict : bool)     (* lock held: before the inner [is None] test *)
  | AtCreate (in_predict : bool)    (* lock held: about to build and assign *)
  | AtFinish (in_predict : bool)    (* lock held: the statements after the assignment *)
  | AtRelease (in_predict : bool) (raised : option exn) (* leaving the [async with] block *)
  | AtAssert                        (* predict: after [load] returned *)
  | Running (handle : nat)          (* predict: inference with the loaded object *)
  | Finished (raised : option exn).

(** The points inside the [async with] block. *)
Definition in_block (p : pc) : bool :=
  match p with
  | AtCheck _ | AtCreate _ | AtFinish _ | AtRelease _ _ => true
  | _ => false
  end.

Record Service := {
  loaded : option nat;       (* self._session, or self._model *)
  lock_holder : option nat;  (* the coroutine inside self._lock, if any *)
  created : list nat;        (* every object ever assigned, in order *)
  coroutines : list pc;
}.

Definition fresh_service : Service :=
  {| loaded := None; lock_holder := None; created := []; coroutines := [] |}.

Definition at_pc (st : Service) (i : nat) (p : pc) : Prop := coroutines st !! i = Some p.

Definition goto (st : Service) (i : nat) (p : pc) : Service :=
  {| loaded := loaded st; lock_holder := lock_holder st; created := created st;
     coroutines := <[i := p]> (coroutines st) |}.

(** Where [load] returns to: into [predict], or to its own caller. *)
Definition after_load (in_predict : bool) (raised : option exn) : pc :=
  match raised with
  | Some e => Finished (Some e)
  | None => if in_predict then AtAssert else Finished None
  end.

Inductive step (b : backend) : Service -> Service -> Prop :=
  | step_call_predict st :
      step b st {| loaded := loaded st; lock_holder := lock_holder st; created := created st;
                   coroutines := coroutines st ++ [AtPredict] |}
  | step_call_load st :
      step b st {| loaded := loaded st; lock_holder := lock_holder st; created := created st;
                   coroutines := coroutines st ++ [AtAcquire false] |}
  | step_predict_none st i :
      at_pc st i AtPredict -> loaded st = None ->
      step b st (goto st i (AtAcquire true))
  | step_predict_some st i h :
      at_pc st i AtPredict -> loaded st = Some h ->
      step b st (goto st i AtAssert)
  | step_acquire st i ip :
      at_pc st i (AtAcquire ip) -> lock_holder st = None ->
      step b st {| loaded := loaded st; lock_holder := Some i; created := created st;
                   coroutines := <[i := AtCheck ip]> (coroutines st) |}
  | step_check_none st i ip :
      at_pc st i (AtCheck ip) -> loaded st = None ->
      step b st (goto st i (AtCreate ip))
  | step_check_some st i ip h :
      at_pc st i (AtCheck ip) -> loaded st = Some h ->
      step b st (goto st i (AtRelease ip None))
  | step_create_ok st i ip h :
      at_pc st i (AtCreate ip) ->
      step b st {| loaded := Some h; lock_holder := lock_holder st;
                   created := created st ++ [h];
                   coroutines := <[i := AtFinish ip]> (coroutines st) |}
  | step_create_raise st i ip e :
      at_pc st i (AtCreate ip) ->
      step b st (goto st i (AtRelease ip (Some e)))
  | step_finish_ok st i ip :
      at_pc st i (AtFinish ip) ->
      step b st (goto st i (AtRelease ip None))
  | step_finish_raise st i ip e :
      b = PYTORCH -> at_pc st i (AtFinish ip) ->
      step b st (goto st i (AtRelease ip (Some e)))
  | step_release st i ip r :
      at_pc st i (AtRelease ip r) ->
      step b st {| loaded := loaded st; lock_holder := None; created := created st;
                   coroutines := <[i := after_load ip r]> (coroutines st) |}
  | step_assert_some st i h :
      at_pc st i AtAssert -> loaded st = Some h ->
      step b st (goto st i (Running h))
  | step_assert_none st i :
      at_pc st i AtAssert -> loaded st = None ->
      step b st (goto st i (Finished (Some assertion_error)))
  | step_run st i h r :
      at_pc st i (Running h) ->
      step b st (goto st i (Finished r)).

(** The points a coroutine reaches only after seeing or making the
    loaded object. *)
Definition past_load (p : pc) : bool :=
  match p with
  | AtFinish _ | AtRelease _ None | AtAssert | Running _ => true
  | _ => false
  end.

(** Every coroutine past the load has an object to use. *)
Definition loaded_inv (st : Service) : Prop :=
  forall i p, at_pc st i p -> past_load p = true -> is_Some (loaded st).

(** The states some schedule reaches from a fresh service object. *)
Definition reachable (b : backend) (st : Service) : Prop := rtc (step b) fresh_service st.

(** The invariant of the lock: a coroutine inside the block is the
    holder; one about to build the object sees none loaded; what is
    loaded is the only object ever assigned. *)
Definition lock_inv (st : Service) : Prop :=
  (forall i p, at_pc st i p -> in_block p = true -> lock_holder st = Some i) /\
  (forall i ip, at_pc st i (AtCreate ip) -> loaded st = None) /\
  created st = option_list (loaded st).

(** ** A concrete runtime

    One way the libraries can behave, on the reals; the examples run in
    it.  Object ids are 24 hexadecimal digits. *)

Definition is_hex_digit (c : Ascii.ascii) : bool :=
  let n := Ascii.nat_of_ascii c in
  ((48 <=? n)%nat && (n <=? 57)%nat) || ((97 <=? n)%nat && (n <=? 102)%nat)
  || ((65 <=? n)%nat && (n <=? 70)%nat).

Fixpoint all_hex (s : string) : bool :=
  match s with
  | EmptyString => true
  | String c rest => is_hex_digit c && all_hex rest
  end.

Definition hex24 (s : string) : option string :=
  if (String.length s =? 24)%nat && all_hex s then Some (str_lower s) else None.

Fixpoint zeros (n : nat) : string :=
  match n with
  | O => EmptyString
  | S k => String (Ascii.ascii_of_nat 48) (zeros k)
  end.

(** The [n]-th id handed out: one followed by [n] zeros, padded to 24 digits. *)
Definition nth_object_id (n : nat) : string :=
  zeros (23 - n) +:+ "1" +:+ zeros (Nat.min n 23).

Definition sample_of_byte (c : Ascii.ascii) : R := INR (Ascii.nat_of_ascii c).

Definition demo_runtime : Runtime R := {|
  ObjectId := hex24;
  new_object_id := fun w => nth_object_id (size (documents w));
  path_suffix := fun _ => "";
  path_name := fun p => p;
  path_join := fun d n => d +:+ "/" +:+ n;
  path_absolute := fun _ p => Ok p;
  path_exists := fun w p => Ok (bool_decide (is_Some (files w !! p)));
  uuid4_hex := fun w => zeros (S (size (files w)));
  librosa_load := fun w path _ =>
    match files w !! path with
    | Some content => Ok (sample_of_byte <$> String.list_ascii_of_string content)
    | None => Raise (Exn FileNotFoundError path)
    end;
  mel_spectrogram := fun waveform => Ok [waveform];
  ort_InferenceSession := fun _ _ => Ok 1%nat;
  session_run := fun _ _ _ => Ok [2%R; 1%R; 0%R; 0%R];
  import_pytorch_inference := fun _ => Ok tt;
  loader_get_model_info := fun _ _ _ => Ok 0%nat;
  torch_load := fun w path =>
    match files w !! path with
    | Some _ =>
        Ok (PickledDict {| ckpt_ref := 0; ckpt_args := Some {| args_model := Some "hftt" |} |})
    | None => Raise (Exn FileNotFoundError path)
    end;
  os_chdir := fun _ _ => Ok tt;
  import_get_backbone_class := fun _ => Ok tt;
  build_backbone := fun _ _ _ _ => Ok 2%nat;
  restore_state := fun _ _ _ => Ok 3%nat;
  to_device_eval := fun _ _ _ => Ok tt;
  torch_forward := fun _ _ _ _ => Ok [0%R; 0%R; 0%R; 0%R; 1%R];
  format_exc := fun e => exn_msg e;
|}.

(** The world after the modules are imported: nothing stored, the ONNX
    service made with the configured model path, no PyTorch service. *)
Definition initial_world {F} (settings : Settings) : World F := {|
  documents := ∅;
  files := ∅;
  clock := 0;
  base_dir := upload_dir settings;
  inference_service := {| onnx_model_path := APath (model_path settings); _session := None |};
  pytorch_inference_service := None;
  scheduled := [];
  sys_path := [];
  cwd := "/app";
  log := [];
|}.

(** *** Frame conditions *)

(** The stored documents and files, the clock and the task list are the
    same in both worlds. *)
Definition same_store {F} (w w' : World F) : Prop :=
  documents w' = documents w /\ files w' = files w /\ clock w' = clock w /\
  scheduled w' = scheduled w /\ base_dir w' = base_dir w.

(** A computation that leaves them alone, whether it returns or raises. *)
Definition keeps_store {F A} (m : M F A) : Prop := forall w, same_store w (m w).2.

(** The session of the global ONNX service, if it has one. *)
Definition onnx_session {F} (w : World F) : option nat :=
  _session (inference_service w).

(** The model of the global PyTorch service, if it has one. *)
Definition pytorch_model {F} (w : World F) : option nat :=
  pytorch_inference_service w ≫= _model.

(** The service object as the interleaving model sees it: [l] loaded,
    the lock with [holder], and the coroutines [cs] followed by one more
    at the point [p]. *)
Definition service_view (l : option nat) (holder : option nat) (history : list nat)
    (cs : list pc) (p : pc) : Service :=
  {| loaded := l; lock_holder := holder; created := history; coroutines := cs ++ [p] |}.

(** How a call that returned [r] ends. *)
Definition outcome {A} (r : result A) : option exn :=
  match r with Ok _ => None | Raise e => Some e end.

(** A computation that leaves what [get] reads as it was. *)
Definition unchanged {F A B} (get : World F -> B) (m : M F A) : Prop :=
  forall w, get (m w).2 = get w.

(** A computation after which an object read by [get], once there, is
    still the same object, whether the computation returns or raises. *)
Definition keeps {F A} (get : World F -> option nat) (m : M F A) : Prop :=
  forall w x, get w = Some x -> get (m w).2 = Some x.

(** A computation that never replaces a loaded session or model. *)
Definition keeps_loaded {F A} (m : M F A) : Prop :=
  keeps onnx_session m /\ keeps pytorch_model m.

(** An event that is a call of [predict]. *)
Definition is_predict_call {F} (e : event F) : bool :=
  match e with EvPredict _ _ => true | _ => false end.

(** Events among which there is no [predict] call. *)
Definition no_predict_call {F} (events : list (event F)) : Prop :=
  Forall (fun e => is_predict_call e = false) events.

(** A computation that only adds events, none of them a [predict] call. *)
Definition calls_no_backend {F A} (m : M F A) : Prop :=
  forall w, exists rest, log (m w).2 = (log w ++ rest)%list /\ no_predict_call rest.

(** Settings objects that carry a [model_type]. *)
Definition onnx_table : gmap string attr :=
  {[ "model_type" := AStr "onnx"; "model_path" := APath "models/audio_classifier.onnx" ]}.

Definition pytorch_table : gmap string attr :=
  {[ "model_type" := AStr "PyTorch"; "model_path" := APath "best.pth";
     "icbhi_path" := APath "ICBHI_2017" ]}.

(** *** Example worlds *)

(** A stored recording of three samples, read at one sample per second. *)
Definition three_sample_world : World R :=
  set_files {[ "/tmp/copd/uploads/a.wav" := "abc" ]} (initial_world default_Settings).

(** A world holding one pending prediction, as [create] leaves it. *)
Definition pending_document : gmap string (value R) :=
  {[ "filename" := VStr "a.wav"; "content_type" := VStr "audio/wav";
     "file_size" := VInt 3; "storage_path" := VStr "/tmp/copd/uploads/a.wav";
     "user_id" := VNull; "status" := VStr "pending";
     "created_at" := VDateTime 0; "updated_at" := VDateTime 0 ]}.

Definition one_pending_world : World R :=
  set_clock 2
    (set_documents {[ "000000000000000000000001" := pending_document ]}
       three_sample_world).

(** Two uploads: a WAV recording and a PDF. *)
Definition wav_upload : UploadFile :=
  {| upload_filename := Some "a.wav"; upload_content_type := Some "audio/wav";
     upload_body := "abc" |}.

Definition pdf_upload : UploadFile :=
  {| upload_filename := Some "a.pdf"; upload_content_type := Some "application/pdf";
     upload_body := "abc" |}.

(** A service object after one [predict] call has loaded the object 7
    and left the lock. *)
Definition loaded_service : Service :=
  {| loaded := Some 7; lock_holder := None; created := [7]; coroutines := [AtAssert] |}.

(** The same service object when a second [predict] call has just begun. *)
Definition busy_service : Service :=
  {| loaded := Some 7; lock_holder := None; created := [7];
     coroutines := [AtAssert; AtPredict] |}.

(** A world holding a checkpoint file and the ICBHI_2017 directory. *)
Definition checkpoint_world : World R :=
  set_files {[ "best.pth" := "weights"; "ICBHI_2017" := "" ]} (initial_world default_Settings).

(** ** More example worlds and runtimes *)

(** A runtime like [demo_runtime] in which moving the model to the
    device fails. *)
Definition failing_device_runtime : Runtime R := {|
  ObjectId := ObjectId (Runtime := demo_runtime);
  new_object_id := new_object_id (Runtime := demo_runtime);
  path_suffix := path_suffix (Runtime := demo_runtime);
  path_name := path_name (Runtime := demo_runtime);
  path_join := path_join (Runtime := demo_runtime);
  path_absolute := path_absolute (Runtime := demo_runtime);
  path_exists := path_exists (Runtime := demo_runtime);
  uuid4_hex := uuid4_hex (Runtime := demo_runtime);
  librosa_load := librosa_load (Runtime := demo_runtime);
  mel_spectrogram := mel_spectrogram (Runtime := demo_runtime);
  ort_InferenceSession := ort_InferenceSession (Runtime := demo_runtime);
  session_run := session_run (Runtime := demo_runtime);
  import_pytorch_inference := import_pytorch_inference (Runtime := demo_runtime);
  loader_get_model_info := loader_get_model_info (Runtime := demo_runtime);
  torch_load := torch_load (Runtime := demo_runtime);
  os_chdir := os_chdir (Runtime := demo_runtime);
  import_get_backbone_class := import_get_backbone_class (Runtime := demo_runtime);
  build_backbone := build_backbone (Runtime := demo_runtime);
  restore_state := restore_state (Runtime := demo_runtime);
  to_device_eval := fun _ _ _ => Raise (Exn OtherException "CUDA error");
  torch_forward := torch_forward (Runtime := demo_runtime);
  format_exc := format_exc (Runtime := demo_runtime);
|}.

(** The checkpoint world with the PyTorch service object made, nothing
    loaded yet. *)
Definition pytorch_service_world : World R :=
  set_pytorch_inference_service
    (Some {| pt_model_path := APath "best.pth"; pt_icbhi_path := APath "ICBHI_2017";
             _model := None; _classifier := None; _model_info := None |})
    checkpoint_world.

(** ** More on the interleaving model *)

(** Every coroutine that runs inference does so with the loaded object. *)
Definition running_inv (st : Service) : Prop :=
  forall i h, at_pc st i (Running h) -> loaded st = Some h.

(** Whoever holds the lock is inside the block. *)
Definition holder_inv (st : Service) : Prop :=
  forall i, lock_holder st = Some i -> exists p, at_pc st i p /\ in_block p = true.

(** A coroutine that has not returned or raised yet. *)
Definition unfinished (p : pc) : bool :=
  match p with Finished _ => false | _ => true end.

(** Two [predict] calls on a fresh service object: the first is inside
    the lock, the second waits for it. *)
Definition contended_service : Service :=
  {| loaded := None; lock_holder := Some 0; created := [];
     coroutines := [AtCheck true; AtAcquire true] |}.

(** Two [predict] calls that both passed the assertion. *)
Definition two_running_service : Service :=
  {| loaded := Some 7; lock_holder := None; created := [7];
     coroutines := [Running 7; Running 7] |}.

(** ** repositories/predictions.py: [list_recent]

    The cursor [collection.find().sort("created_at", -1).limit(limit)]
    is the database's: how it orders documents with equal or missing
    [created_at] and what it makes of a limit that is zero or negative
    is not the repository's code.  It is a field of the class [Cursor]:
    the documents it yields in the world it is opened in, in order, each
    with its [_id]. *)

Class Cursor (F : Type) := {
  find_sort_limit : World F -> Z -> list (string * gmap string (value F));
}.

Section ListRecent.
Context {F : Type} {NP : NumPy F} {RT : Runtime F} {CU : Cursor F}.

(** The comprehension over the cursor, which builds a [Prediction] from
    each normalised document: the documents are read in order,
    [_normalize] turning each [_id] into its string; the first one that
    fails validation ends the loop with its exception. *)
Fixpoint read_cursor (cursor : list (string * gmap string (value F)))
    : M F (list (Prediction F)) :=
  match cursor with
  | [] => mret []
  | (oid, document) :: rest =>
      p ← to_Prediction oid document;
      ps ← read_cursor rest;
      mret (p :: ps)
  end.

Definition list_recent (limit : Z) : M F (list (Prediction F)) :=
  w ← get_world;
  read_cursor (find_sort_limit w limit).

(** routers/audio.py: [list_predictions], whose [limit] defaults to 20. *)
Definition list_predictions (limit : option Z) : M F (list (Prediction F)) :=
  list_recent (default 20%Z limit).

End ListRecent.

(** A cursor as the database gives it over documents that all have a
    [created_at] date: newest first, at most [|limit|] of them, and all
    of them when [limit] is 0. *)
Definition created_at_of {F} (doc : gmap string (value F)) : Z :=
  match doc !! "created_at" with Some (VDateTime t) => t | _ => 0%Z end.

Fixpoint insert_newest_first {F} (c : string * gmap string (value F))
    (l : list (string * gmap string (value F))) : list (string * gmap string (value F)) :=
  match l with
  | [] => [c]
  | c' :: rest =>
      if (created_at_of c'.2 <? created_at_of c.2)%Z then c :: c' :: rest
      else c' :: insert_newest_first c rest
  end.

Definition demo_cursor : Cursor R := {|
  find_sort_limit := fun w limit =>
    let sorted := foldr insert_newest_first [] (map_to_list (documents w)) in
    if (limit =? 0)%Z then sorted else take (Z.abs_nat limit) sorted;
|}.

(** ** A record as it reads back from the collection

    The record [create] returns is built from the document before it is
    encoded; the stored document has its two datetimes cut to whole
    milliseconds. *)
Definition Prediction_as_stored {F} (p : Prediction F) : Prediction F :=
  {| p_id := p_id p; p_filename := p_filename p; p_content_type := p_content_type p;
     p_file_size := p_file_size p; p_storage_path := p_storage_path p;
     p_status := p_status p; p_label := p_label p; p_confidence := p_confidence p;
     p_probabilities := p_probabilities p;
     p_created_at := bson_datetime (p_created_at p);
     p_updated_at := bson_datetime (p_updated_at p);
     p_user_id := p_user_id p; p_notes := p_notes p |}.

(** ** The server, one request or task at a time *)

Section Api.
Context {F : Type} {NP : NumPy F} {RT : Runtime F} {CU : Cursor F}.

(** The three statuses the code writes. *)
Definition written_status (doc : gmap string (value F)) : Prop :=
  doc !! "status" = Some (VStr (PredictionStatus_value PENDING)) \/
  doc !! "status" = Some (VStr (PredictionStatus_value COMPLETED)) \/
  doc !! "status" = Some (VStr (PredictionStatus_value FAILED)).

(** Every stored document has a valid ObjectId string as key, reads as
    a [Prediction], and has one of the three statuses; every scheduled
    task is for a stored document. *)
Definition store_inv (w : World F) : Prop :=
  (forall id doc, documents w !! id = Some doc ->
     ObjectId id = Some id /\
     is_Ok (Prediction_validate id doc 0) = true /\
     written_status doc) /\
  (forall id path, (id, path) ∈ scheduled w -> is_Some (documents w !! id)).

(** What the server does next: it answers one request, or it runs, from
    start to end, a task that an upload has scheduled. *)
Inductive api_step {S} {SO : SettingsObject S} (settings : S) : World F -> World F -> Prop :=
  | api_upload_audio (file : UploadFile) (w : World F) :
      api_step settings w (upload_audio file w).2
  | api_get_prediction (prediction_id : string) (w : World F) :
      api_step settings w (get_prediction prediction_id w).2
  | api_list_predictions (limit : option Z) (w : World F) :
      api_step settings w (list_predictions limit w).2
  | api_process_prediction (prediction_id audio_path : string) (w : World F) :
      (prediction_id, audio_path) ∈ scheduled w ->
      api_step settings w (_process_prediction settings prediction_id audio_path w).2.

End Api.

(** The initial world after one upload of [wav_upload], and after the
    task that the upload scheduled has run under the default settings. *)
Definition uploaded_world : World R :=
  (upload_audio (RT := demo_runtime) wav_upload (initial_world default_Settings)).2.

Definition processed_world : World R :=
  (_process_prediction (RT := demo_runtime) default_Settings
     "000000000000000000000001" "/tmp/copd/uploads/0.wav" uploaded_world).2.

(** ** services/storage.py: the upload read in chunks *)

Fixpoint str_take (n : nat) (s : string) : string :=
  match n, s with
  | S n', String c rest => String c (str_take n' rest)
  | _, _ => EmptyString
  end.

Fixpoint str_drop (n : nat) (s : string) : string :=
  match n, s with
  | S n', String _ rest => str_drop n' rest
  | _, _ => s
  end.

(** [upload.read(size)] on an upload of which [unread] is left: up to
    [size] bytes, and what is left after them; the empty string at the
    end of the upload. *)
Definition upload_read (size : nat) (unread : string) : string * string :=
  (str_take size unread, str_drop size unread).

(** The loop [while chunk := await upload.read(size): await f.write(chunk)],
    from an upload of which [unread] is left into a file that holds
    [written].  A round that writes shortens what is unread, so the
    loop is given more rounds than the upload has bytes. *)
Fixpoint copy_chunks (rounds size : nat) (unread written : string) : string :=
  match rounds with
  | O => written
  | S rounds' =>
      let '(chunk, unread') := upload_read size unread in
      if String.eqb chunk "" then written
      else copy_chunks rounds' size unread' (written +:+ chunk)
  end.

(** [1024 * 1024] *)
Definition CHUNK_SIZE : N := 1024 * 1024.

Section Storage.
Context {F : Type} {NP : NumPy F} {RT : Runtime F}.

(** [save_upload] with its loop: the file is opened for writing, which
    makes it empty, and the chunks are appended one by one. *)
Definition save_upload_in_chunks (upload : UploadFile) : M F string :=
  let suffix := str_or (path_suffix (opt_str_or (upload_filename upload) "")) ".wav" in
  w ← get_world;
  let dest_path := path_join (base_dir w) (uuid4_hex w +:+ suffix) in
  let body := upload_body upload in
  let content := copy_chunks (S (String.length body)) (N.to_nat CHUNK_SIZE) body "" in
  modify (set_files (<[dest_path := content]> (files w)));;
  mret dest_path.

End Storage.

Section MoreMethods.
Context {F : Type} {NP : NumPy F} {RT : Runtime F}.

(** [path.unlink()]: a stored file is removed; a path at which no file
    is stored cannot be unlinked. *)
Definition unlink (path : string) : M F unit :=
  w ← get_world;
  match files w !! path with
  | Some _ => modify (set_files (delete path (files w)))
  | None => raise (Exn FileNotFoundError path)
  end.

(** [delete_file] *)
Definition delete_file (path : string) : M F unit :=
  found ← ask (fun w => path_exists w path);
  if found : bool then unlink path else mret tt.

(** ** services/pytorch_inference.py: [get_model_info] of the service *)

Definition pytorch_get_model_info : M F nat :=
  self ← pt_self;
  match _model_info self with
  | None =>
      info ← ask (fun w => loader_get_model_info w (pt_model_path self) (pt_icbhi_path self));
      set_pt (fun s => {| pt_model_path := pt_model_path s; pt_icbhi_path := pt_icbhi_path s;
                          _model := _model s; _classifier := _classifier s;
                          _model_info := Some info |});;
      mret info
  | Some info => mret info
  end.

End MoreMethods.

(** ** models/hftt_model.py: [PyTorchModelLoader]

    A checkpoint as the training script saves it: a dictionary that may
    hold an epoch, the state dicts of the model, the classifier (one, or
    a list of them) and the projector, and the training arguments.  Of a
    state dict the loader reads only the shapes of its tensors. *)

Inductive pyval :=
  | PyNone
  | PyBool (b : bool)
  | PyInt (n : Z)
  | PyStr (s : string).

Inductive classifier_state :=
  | StateDict (d : gmap string (list Z))
  | StateList (l : list (gmap string (list Z))).

Record checkpoint_dict := {
  ck_epoch : option pyval;                  (* checkpoint["epoch"], if the key is there *)
  ck_model : option (gmap string (list Z)); (* checkpoint["model"] *)
  ck_classifier : option classifier_state;  (* checkpoint["classifier"] *)
  ck_projector : option (gmap string (list Z));
  ck_namespace : option (gmap string pyval); (* checkpoint["args"], by attribute *)
}.

Class TorchCheckpoints (F : Type) := {
  (* torch.load(path, map_location=..., weights_only=False): the keys and
     shapes read here are the same on every device *)
  torch_load_checkpoint : World F -> string -> result checkpoint_dict;
}.

(** The fields of a [PyTorchModelLoader] that its methods read. *)
Record PyTorchModelLoader := {
  loader_checkpoint_path : string;
  loader_icbhi_path : option string;
  loader_checkpoint : option checkpoint_dict;   (* self._checkpoint *)
}.

(** [PyTorchModelLoader(checkpoint_path, icbhi_path)], for arguments of
    the declared types: a path, and a path or [None]. *)
Definition new_PyTorchModelLoader (checkpoint_path : string) (icbhi_path : option string)
    : PyTorchModelLoader :=
  {| loader_checkpoint_path := checkpoint_path;
     loader_icbhi_path := icbhi_path;
     loader_checkpoint := None |}.

(** [getattr(args, name, default)] *)
Definition namespace_getattr (args : gmap string pyval) (name : string) (default : pyval)
    : pyval :=
  match args !! name with Some v => v | None => default end.

(** Lines 51 to 56: the entries every information dictionary has. *)
Definition base_info (checkpoint : checkpoint_dict) : gmap string pyval :=
  {[ "epoch" := default PyNone (ck_epoch checkpoint);
     "has_model" := PyBool (bool_decide (is_Some (ck_model checkpoint)));
     "has_classifier" := PyBool (bool_decide (is_Some (ck_classifier checkpoint)));
     "has_projector" := PyBool (bool_decide (is_Some (ck_projector checkpoint))) ]}.

(** Lines 59 to 67: [info.update({...})] when the checkpoint has [args];
    the entries of the update replace those of [info]. *)
Definition args_info (checkpoint : checkpoint_dict) (info : gmap string pyval)
    : gmap string pyval :=
  match ck_namespace checkpoint with
  | None => info
  | Some args =>
      ({[ "model_type" := namespace_getattr args "model" (PyStr "unknown");
          "n_cls" := namespace_getattr args "n_cls" PyNone;
          "n_mels" := namespace_getattr args "n_mels" PyNone;
          "sample_rate" := namespace_getattr args "sample_rate" PyNone;
          "desired_length" := namespace_getattr args "desired_length" PyNone ]}
         : gmap string pyval) ∪ info
  end.

(** Lines 70 to 77: the dimensions of the classifier's weight. *)
Definition classifier_info (checkpoint : checkpoint_dict) (info : gmap string pyval)
    : result (gmap string pyval) :=
  match ck_classifier checkpoint with
  | None => Ok info
  | Some state =>
      classifier_state ← match state with
                         | StateDict d => Ok d
                         | StateList l => getitem l 0
                         end;
      match classifier_state !! "weight" with
      | None => Ok info
      | Some shape =>
          input_dim ← getitem shape 1;
          let info := <["classifier_input_dim" := PyInt input_dim]> info in
          output_dim ← getitem shape 0;
          Ok (<["classifier_output_dim" := PyInt output_dim]> info)
      end
  end.

Section Loader.
Context {F : Type} {RT : Runtime F} {TC : TorchCheckpoints F}.

(** [load_checkpoint]: the result, and the loader object afterwards. *)
Definition load_checkpoint (self : PyTorchModelLoader) (w : World F)
    : result checkpoint_dict * PyTorchModelLoader :=
  match loader_checkpoint self with
  | Some checkpoint => (Ok checkpoint, self)
  | None =>
      match path_exists w (loader_checkpoint_path self) with
      | Raise e => (Raise e, self)
      | Ok false =>
          (Raise (Exn FileNotFoundError
                    ("Checkpoint not found: " +:+ loader_checkpoint_path self)), self)
      | Ok true =>
          match torch_load_checkpoint w (loader_checkpoint_path self) with
          | Ok checkpoint =>
              (Ok checkpoint,
               {| loader_checkpoint_path := loader_checkpoint_path self;
                  loader_icbhi_path := loader_icbhi_path self;
                  loader_checkpoint := Some checkpoint |})
          | Raise e => (Raise e, self)
          end
      end
  end.

(** [get_model_info] of the loader *)
Definition PyTorchModelLoader_get_model_info (self : PyTorchModelLoader) (w : World F)
    : result (gmap string pyval) * PyTorchModelLoader :=
  match load_checkpoint self w with
  | (Ok checkpoint, self') =>
      (classifier_info checkpoint (args_info checkpoint (base_info checkpoint)), self')
  | (Raise e, self') => (Raise e, self')
  end.

End Loader.

(** The keys of an information dictionary. *)
Definition base_keys : gset string :=
  {[ "epoch"; "has_model"; "has_classifier"; "has_projector" ]}.

Definition args_keys : gset string :=
  {[ "model_type"; "n_cls"; "n_mels"; "sample_rate"; "desired_length" ]}.

Definition dims_keys : gset string :=
  {[ "classifier_input_dim"; "classifier_output_dim" ]}.

(** The state dict whose weight the loader looks at, if there is one. *)
Definition first_classifier_state (checkpoint : checkpoint_dict)
    : option (gmap string (list Z)) :=
  match ck_classifier checkpoint with
  | Some (StateDict d) => Some d
  | Some (StateList l) => l !! 0
  | None => None
  end.

(** The shape of the weight the loader looks at, if there is one. *)
Definition classifier_weight_shape (checkpoint : checkpoint_dict) : option (list Z) :=
  match first_classifier_state checkpoint with
  | Some d => d !! "weight"
  | None => None
  end.

(** The keys of the information dictionary of a checkpoint. *)
Definition info_keys (checkpoint : checkpoint_dict) : gset string :=
  base_keys
  ∪ match ck_namespace checkpoint with Some _ => args_keys | None => ∅ end
  ∪ match classifier_weight_shape checkpoint with Some _ => dims_keys | None => ∅ end.

(** A checkpoint of a four-class model with a classifier over 768
    features, saved after epoch 12 without the [model] attribute in its
    arguments. *)
Definition demo_checkpoint : checkpoint_dict :=
  {| ck_epoch := Some (PyInt 12);
     ck_model := Some {[ "encoder.weight" := [768; 768]%Z ]};
     ck_classifier := Some (StateList [ {[ "weight" := [4; 768]%Z; "bias" := [4%Z] ]} ]);
     ck_projector := None;
     ck_namespace := Some {[ "n_cls" := PyInt 4 ]} |}.

Definition demo_checkpoints : TorchCheckpoints R := {|
  torch_load_checkpoint := fun w path =>
    match files w !! path with
    | Some _ => Ok demo_checkpoint
    | None => Raise (Exn FileNotFoundError path)
    end;
|}.

(** ** What the models are given

    The raw clip for the PyTorch service, the mel-spectrogram features
    of the clip for the ONNX service; the clip has
    [DEFAULT_SAMPLE_RATE * DEFAULT_DURATION_SEC] samples. *)
Definition model_input {F} {RT : Runtime F} (b : backend) (x : array F) : Prop :=
  exists waveform : list F,
    Z.of_nat (length waveform) = (DEFAULT_SAMPLE_RATE * DEFAULT_DURATION_SEC)%Z /\
    match b with
    | PYTORCH => x = Arr1 waveform
    | ONNX => exists features, mel_spectrogram waveform = Ok features /\ x = Arr2 features
    end.

(** ** scripts/test_model_loading.py

    What the script prints is left out; what it returns is kept. *)

Definition MODEL_PATH : string :=
  "../ICBHI_2017/save/icbhi_hftt_projectors_loss_seed2_hftt/best.pth".

(** Lines 79 to 106: the checks on the structure of the checkpoint.
    The shape of the weight is read when it is printed, the input
    dimension first. *)
Definition validate_structure (checkpoint : checkpoint_dict) : result bool :=
  match ck_model checkpoint, ck_classifier checkpoint with
  | None, _ => Ok false
  | Some _, None => Ok false
  | Some model_state, Some state =>
      classifier_state ← match state with
                         | StateDict d => Ok d
                         | StateList l => getitem l 0
                         end;
      match classifier_state !! "weight" with
      | Some weight_shape =>
          _ ← getitem weight_shape 1;
          _ ← getitem weight_shape 0;
          Ok true
      | None => Ok true
      end
  end.

Section Script.
Context {F : Type} {RT : Runtime F} {TC : TorchCheckpoints F}.

(** [test_model_loading]: the test [MODEL_PATH.exists()] comes before
    the [try] block; every exception of the block is caught and turned
    into [False]. *)
Definition test_model_loading (w : World F) : result bool :=
  found ← path_exists w MODEL_PATH;
  if negb found then Ok false
  else
    match torch_load_checkpoint w MODEL_PATH ≫= validate_structure with
    | Ok success => Ok success
    | Raise _ => Ok false
    end.

(** The exit status of the script: [sys.exit(0 if success else 1)], and
    1 when an exception ends it. *)
Definition exit_status (w : World F) : Z :=
  match test_model_loading w with
  | Ok true => 0%Z
  | Ok false => 1%Z
  | Raise _ => 1%Z
  end.

End Script.

(** A world that holds the checkpoint at the path the script reads. *)
Definition script_world : World R :=
  set_files {[ MODEL_PATH := "weights" ]} (initial_world default_Settings).

(** * Properties *)

(** ** Results *)

Lemma result_bind_Ok {A B} (m : result A) (f : A -> result B) (b : B) :
  m ≫= f = Ok b <-> exists a, m = Ok a /\ f a = Ok b.
Proof.
  destruct m as [a|e]; simpl; split.
  - intros Hf. exists a. split; [reflexivity | exact Hf].
  - intros (a' & Ha & Hf). injection Ha as ->. exact Hf.
  - discriminate.
  - intros (a' & Ha & _). discriminate.
Qed.

Lemma getitem_Ok {A} (a : list A) (i : nat) (x : A) :
  getitem a i = Ok x <-> a !! i = Some x.
Proof.
  unfold getitem, of_option. destruct (a !! i); split; congruence.
Qed.

Lemma getitem_lt {A} (a : list A) (i : nat) (x : A) :
  getitem a i = Ok x -> i < length a.
Proof. rewrite getitem_Ok. apply lookup_lt_Some. Qed.

(** ** The index-to-label maps of the two services *)

Lemma Label_value_inj (a b : Label) : Label_value a = Label_value b -> a = b.
Proof. destruct a, b; simpl; intros Heq; try reflexivity; discriminate Heq. Qed.

Lemma Label_value_in (l : Label) : Label_value l ∈ label_strings.
Proof. destruct l; unfold label_strings; simpl; set_solver. Qed.

Lemma pytorch_rotates (i : nat) (l : Label) :
  onnx_label_of_index i = Some l ->
  pytorch_label_of_index (S i) = (if decide (i = 3) then NONE else l) /\
  pytorch_label_of_index i <> l.
Proof.
  unfold onnx_label_of_index, pytorch_label_of_index.
  destruct i as [|[|[|[|i]]]]; simpl; intros Hl; try discriminate Hl;
    injection Hl as <-; split; try reflexivity; discriminate.
Qed.

Lemma enumerate_Label_eq :
  enumerate_Label = [(0, CRACKLE); (1, WHEEZE); (2, BOTH); (3, NONE)].
Proof. reflexivity. Qed.

Section PostprocessFacts.
Context {F : Type} {NP : NumPy F}.

(** The dictionary the ONNX comprehension builds. *)
Lemma onnx_prob_dict_Ok (probs : list F) (d : gmap string F) :
  onnx_prob_dict probs enumerate_Label ∅ = Ok d <->
  exists p0 p1 p2 p3,
    probs !! 0 = Some p0 /\ probs !! 1 = Some p1 /\
    probs !! 2 = Some p2 /\ probs !! 3 = Some p3 /\
    d = <["none" := p3]> (<["both" := p2]> (<["wheeze" := p1]> (<["crackle" := p0]> ∅))).
Proof.
  rewrite enumerate_Label_eq. cbn [onnx_prob_dict Label_value].
  unfold getitem, of_option. split.
  - destruct (probs !! 0) as [p0|]; [|discriminate]. cbn [mbind result_bind].
    destruct (probs !! 1) as [p1|]; [|discriminate]. cbn [mbind result_bind].
    destruct (probs !! 2) as [p2|]; [|discriminate]. cbn [mbind result_bind].
    destruct (probs !! 3) as [p3|]; [|discriminate]. cbn [mbind result_bind].
    intros Hd. injection Hd as <-. exists p0, p1, p2, p3. auto.
  - intros (p0 & p1 & p2 & p3 & -> & -> & -> & -> & ->). reflexivity.
Qed.

(** The dictionary the PyTorch loops build. *)
Lemma pytorch_prob_dict_Ok (probs : list F) (d : gmap string F) :
  pytorch_prob_dict probs enumerate_Label ∅ = Ok d <->
  exists p0 p1 p2 p3,
    probs !! 0 = Some p0 /\ probs !! 1 = Some p1 /\
    probs !! 2 = Some p2 /\ probs !! 3 = Some p3 /\
    d = <["none" := p0]> (<["both" := p3]> (<["wheeze" := p2]> (<["crackle" := p1]> ∅))).
Proof.
  rewrite enumerate_Label_eq.
  cbn [pytorch_prob_dict pytorch_find label_mapping Label_value].
  repeat (case_decide; try congruence).
  unfold getitem, of_option. split.
  - destruct (probs !! 1) as [p1|]; [|discriminate]. cbn [mbind result_bind].
    destruct (probs !! 2) as [p2|]; [|discriminate]. cbn [mbind result_bind].
    destruct (probs !! 3) as [p3|]; [|discriminate]. cbn [mbind result_bind].
    destruct (probs !! 0) as [p0|]; [|discriminate]. cbn [mbind result_bind].
    intros Hd. injection Hd as <-. exists p0, p1, p2, p3. auto.
  - intros (p0 & p1 & p2 & p3 & -> & -> & -> & -> & ->). reflexivity.
Qed.

Lemma four_keys_dom (a b c d : F) :
  dom (<["none" := a]> (<["both" := b]> (<["wheeze" := c]> (<["crackle" := d]> (∅ : gmap string F)))))
  = label_strings.
Proof.
  rewrite !dom_insert_L, dom_empty_L. unfold label_strings. set_solver.
Qed.

(** What a successful ONNX post-processing computed. *)
Lemma onnx_postprocess_Ok (logits : list F) (r : PredictResult F) :
  onnx_postprocess logits = Ok r <->
  exists probs i p0 p1 p2 p3,
    _softmax logits = Ok probs /\ np_argmax probs = Some i /\
    onnx_label_of_index i = Some (label r) /\
    probs !! i = Some (confidence r) /\
    probs !! 0 = Some p0 /\ probs !! 1 = Some p1 /\
    probs !! 2 = Some p2 /\ probs !! 3 = Some p3 /\
    probabilities r =
      <["none" := p3]> (<["both" := p2]> (<["wheeze" := p1]> (<["crackle" := p0]> ∅))).
Proof.
  unfold onnx_postprocess. split.
  - intros Hr.
    apply result_bind_Ok in Hr as (probs & Hs & Hr).
    apply result_bind_Ok in Hr as (i & Hi & Hr).
    apply result_bind_Ok in Hr as (lbl & Hl & Hr).
    apply result_bind_Ok in Hr as (conf & Hc & Hr).
    apply result_bind_Ok in Hr as (d & Hd & Hr).
    injection Hr as <-. simpl.
    apply onnx_prob_dict_Ok in Hd as (p0 & p1 & p2 & p3 & H0 & H1 & H2 & H3 & ->).
    exists probs, i, p0, p1, p2, p3.
    unfold argmax_idx, of_option in Hi. destruct (np_argmax probs) as [j|]; [|discriminate].
    injection Hi as ->.
    apply getitem_Ok in Hl. apply getitem_Ok in Hc. auto 10.
  - intros (probs & i & p0 & p1 & p2 & p3 & Hs & Hi & Hl & Hc & H0 & H1 & H2 & H3 & Hd).
    rewrite Hs. cbn [mbind result_bind]. unfold argmax_idx. rewrite Hi.
    cbn [mbind result_bind of_option].
    apply getitem_Ok in Hl. rewrite Hl. cbn [mbind result_bind].
    apply getitem_Ok in Hc. rewrite Hc. cbn [mbind result_bind].
    assert (Hdict : onnx_prob_dict probs enumerate_Label ∅ = Ok (probabilities r)).
    { apply onnx_prob_dict_Ok. exists p0, p1, p2, p3. auto. }
    rewrite Hdict. cbn [mbind result_bind]. destruct r; reflexivity.
Qed.

(** What a successful PyTorch post-processing computed. *)
Lemma pytorch_postprocess_Ok (logits : list F) (r : PredictResult F) :
  pytorch_postprocess logits = Ok r <->
  exists probs i p0 p1 p2 p3,
    _softmax logits = Ok probs /\ np_argmax probs = Some i /\
    label r = pytorch_label_of_index i /\
    probs !! i = Some (confidence r) /\
    probs !! 0 = Some p0 /\ probs !! 1 = Some p1 /\
    probs !! 2 = Some p2 /\ probs !! 3 = Some p3 /\
    probabilities r =
      <["none" := p0]> (<["both" := p3]> (<["wheeze" := p2]> (<["crackle" := p1]> ∅))).
Proof.
  unfold pytorch_postprocess. split.
  - intros Hr.
    apply result_bind_Ok in Hr as (probs & Hs & Hr).
    apply result_bind_Ok in Hr as (i & Hi & Hr).
    apply result_bind_Ok in Hr as (d & Hd & Hr).
    apply result_bind_Ok in Hr as (conf & Hc & Hr).
    injection Hr as <-. simpl.
    apply pytorch_prob_dict_Ok in Hd as (p0 & p1 & p2 & p3 & H0 & H1 & H2 & H3 & ->).
    exists probs, i, p0, p1, p2, p3.
    unfold argmax_idx, of_option in Hi. destruct (np_argmax probs) as [j|]; [|discriminate].
    injection Hi as ->.
    apply getitem_Ok in Hc. auto 10.
  - intros (probs & i & p0 & p1 & p2 & p3 & Hs & Hi & Hl & Hc & H0 & H1 & H2 & H3 & Hd).
    rewrite Hs. cbn [mbind result_bind]. unfold argmax_idx. rewrite Hi.
    cbn [mbind result_bind of_option].
    assert (Hdict : pytorch_prob_dict probs enumerate_Label ∅ = Ok (probabilities r)).
    { apply pytorch_prob_dict_Ok. exists p0, p1, p2, p3. auto. }
    rewrite Hdict. cbn [mbind result_bind].
    apply getitem_Ok in Hc. rewrite Hc. cbn [mbind result_bind].
    unfold pytorch_label_of_index in Hl. rewrite <- Hl. destruct r; reflexivity.
Qed.

End PostprocessFacts.

(** ** The real-number runtime *)

Local Open Scope R_scope.

Lemma sum_exp_pos (g : R -> R) (l : list R) :
  0 <= foldr Rplus 0 ((fun x => exp (g x)) <$> l).
Proof.
  induction l as [|x l IH]; cbn [fmap list_fmap foldr].
  - lra.
  - pose proof (exp_pos (g x)). change (list_fmap R R (fun x => exp (g x)) l)
      with ((fun x => exp (g x)) <$> l). lra.
Qed.

(** Softmax over the reals: every entry is [exp (y - m) / s] for one
    maximum [m] and one positive sum [s]. *)
Lemma R_softmax_Ok (x : R) (l : list R) :
  exists m s, 0 < s /\ _softmax (x :: l) = Ok ((fun y => exp (y - m) / s) <$> (x :: l)).
Proof.
  exists (foldr Rmax x l).
  exists (foldr Rplus 0 ((fun y => exp (y - foldr Rmax x l)) <$> (x :: l))).
  split.
  - cbn [fmap list_fmap foldr].
    pose proof (exp_pos (x - foldr Rmax x l)).
    pose proof (sum_exp_pos (fun y => y - foldr Rmax x l) l). lra.
  - unfold _softmax. cbn [np_max R_numpy R_max_list of_option mbind result_bind].
    f_equal. rewrite <- list_fmap_compose. reflexivity.
Qed.

Lemma softmax_entry_increasing (m s a b : R) :
  0 < s -> (a < b <-> exp (a - m) / s < exp (b - m) / s).
Proof.
  intros Hs. split.
  - intros Hab. apply Rmult_lt_compat_r; [apply Rinv_0_lt_compat; exact Hs|].
    apply exp_increasing. lra.
  - intros Hlt. apply Rmult_lt_reg_r in Hlt; [|apply Rinv_0_lt_compat; exact Hs].
    apply exp_lt_inv in Hlt. lra.
Qed.

(** A strictly increasing map does not move the argmax. *)
Lemma R_argmax_from_increasing (f : R -> R) (l : list R) :
  (forall a b, a < b <-> f a < f b) ->
  forall best best_i i,
    R_argmax_from (f best) best_i i (f <$> l) = R_argmax_from best best_i i l.
Proof.
  intros Hf. induction l as [|x l IH]; intros best best_i i; [reflexivity|].
  cbn [fmap list_fmap R_argmax_from].
  destruct (Rlt_dec (f best) (f x)) as [Hlt|Hnlt];
    destruct (Rlt_dec best x) as [Hlt'|Hnlt'].
  - apply IH.
  - exfalso. apply Hnlt'. apply (proj2 (Hf best x)). exact Hlt.
  - exfalso. apply Hnlt. apply (proj1 (Hf best x)). exact Hlt'.
  - apply IH.
Qed.

Lemma R_argmax_increasing (f : R -> R) (l : list R) :
  (forall a b, a < b <-> f a < f b) -> R_argmax (f <$> l) = R_argmax l.
Proof.
  intros Hf. destruct l as [|x l]; [reflexivity|].
  cbn [fmap list_fmap R_argmax]. f_equal. apply R_argmax_from_increasing, Hf.
Qed.

(** Over the reals the predicted index is the argmax of the logits. *)
Lemma R_softmax_argmax (logits probs : list R) :
  _softmax logits = Ok probs -> np_argmax probs = R_argmax logits.
Proof.
  destruct logits as [|x l]; [discriminate|].
  destruct (R_softmax_Ok x l) as (m & s & Hs & Heq). rewrite Heq.
  intros Hp. injection Hp as <-.
  change (R_argmax ((fun y => exp (y - m) / s) <$> x :: l) = R_argmax (x :: l)).
  apply (R_argmax_increasing (fun y => exp (y - m) / s)).
  intros a b. apply softmax_entry_increasing, Hs.
Qed.

Ltac R_argmax_eval :=
  unfold R_argmax, R_argmax_from;
  repeat match goal with
    | |- context [Rlt_dec ?a ?b] => destruct (Rlt_dec a b); try lra
    end;
  try reflexivity.

Lemma R_argmax_1000 : R_argmax [1; 0; 0; 0] = Some 0%nat.
Proof. R_argmax_eval. Qed.

Lemma R_argmax_2100 : R_argmax [2; 1; 0; 0] = Some 0%nat.
Proof. R_argmax_eval. Qed.

Lemma R_argmax_00001 : R_argmax [0; 0; 0; 0; 1] = Some 4%nat.
Proof. R_argmax_eval. Qed.

Local Close Scope R_scope.

(** ** C2 and C4: what the two services return *)

Local Open Scope R_scope.

(** Over the reals the probabilities are the image of the logits under
    one strictly increasing function. *)
Lemma R_probs (x : R) (l : list R) :
  exists p : R -> R,
    (forall a b, a < b -> p a < p b) /\ _softmax (x :: l) = Ok (p <$> x :: l).
Proof.
  destruct (R_softmax_Ok x l) as (m & s & Hs & Heq).
  exists (fun y => exp (y - m) / s). split; [|exact Heq].
  intros a b Hab. apply (softmax_entry_increasing m s a b Hs), Hab.
Qed.

(** Both services on the logits [1, 0, 0, 0]. *)
Lemma R_eval_1000 :
  exists (p : R -> R) (r1 r2 : PredictResult R),
    p 0 < p 1 /\
    onnx_postprocess [1; 0; 0; 0] = Ok r1 /\
    pytorch_postprocess [1; 0; 0; 0] = Ok r2 /\
    r1 = {| label := CRACKLE; confidence := p 1;
            probabilities := <["none" := p 0]> (<["both" := p 0]>
                               (<["wheeze" := p 0]> (<["crackle" := p 1]> ∅))) |} /\
    r2 = {| label := NONE; confidence := p 1;
            probabilities := <["none" := p 1]> (<["both" := p 0]>
                               (<["wheeze" := p 0]> (<["crackle" := p 0]> ∅))) |}.
Proof.
  destruct (R_probs 1 [0; 0; 0]) as (p & Hp & Hs).
  pose proof (R_softmax_argmax _ _ Hs) as Ha. rewrite R_argmax_1000 in Ha.
  exists p. eexists. eexists. split; [apply Hp; lra|].
  split; [|split; [|split; reflexivity]].
  - apply onnx_postprocess_Ok.
    exists (p <$> [1; 0; 0; 0]), 0%nat, (p 1), (p 0), (p 0), (p 0).
    repeat split; assumption || reflexivity.
  - apply pytorch_postprocess_Ok.
    exists (p <$> [1; 0; 0; 0]), 0%nat, (p 1), (p 0), (p 0), (p 0).
    repeat split; assumption || reflexivity.
Qed.

(** The PyTorch service on five logits whose largest is the last. *)
Lemma R_eval_00001 :
  exists (p : R -> R) (r : PredictResult R),
    p 0 < p 1 /\
    pytorch_postprocess [0; 0; 0; 0; 1] = Ok r /\
    r = {| label := NONE; confidence := p 1;
           probabilities := <["none" := p 0]> (<["both" := p 0]>
                              (<["wheeze" := p 0]> (<["crackle" := p 0]> ∅))) |}.
Proof.
  destruct (R_probs 0 [0; 0; 0; 1]) as (p & Hp & Hs).
  pose proof (R_softmax_argmax _ _ Hs) as Ha. rewrite R_argmax_00001 in Ha.
  exists p. eexists. split; [apply Hp; lra|].
  split; [|reflexivity].
  apply pytorch_postprocess_Ok.
  exists (p <$> [0; 0; 0; 0; 1]), 4%nat, (p 0), (p 0), (p 0), (p 0).
  repeat split; assumption || reflexivity.
Qed.

Local Close Scope R_scope.

(** C2, as stated, fails: on the logits [1, 0, 0, 0] the ONNX service
    returns the label crackle and the PyTorch service the label none, and
    the two dictionaries give the string "crackle" different
    probabilities. *)
Lemma C2_backends_disagree :
  exists r1 r2 : PredictResult R,
    onnx_postprocess [1; 0; 0; 0]%R = Ok r1 /\
    pytorch_postprocess [1; 0; 0; 0]%R = Ok r2 /\
    label r1 = CRACKLE /\ label r2 = NONE /\
    label r1 <> label r2 /\
    probabilities r1 !! "crackle" <> probabilities r2 !! "crackle" /\
    onnx_label_of_index 0 = Some CRACKLE /\ pytorch_label_of_index 0 = NONE.
Proof.
  destruct R_eval_1000 as (p & r1 & r2 & Hlt & H1 & H2 & -> & ->).
  eexists. eexists. split; [exact H1|]. split; [exact H2|].
  cbn [label probabilities]. repeat split; try discriminate.
  rewrite !lookup_insert_ne by discriminate. rewrite !lookup_insert_eq.
  intros Heq. injection Heq as Heq. rewrite Heq in Hlt. revert Hlt. apply Rlt_irrefl.
Qed.

Section Services.
Context {F : Type} {NP : NumPy F}.

(** C2, amended: for the same logits the two services compute the same
    probabilities, the same argmax index and the same confidence; the
    ONNX service maps index [k] to the [k]-th member of [Label], the
    PyTorch service through its own [label_mapping], each dictionary
    gives the probability at [k] to the label its service maps [k] to,
    and the two returned labels differ. *)
Theorem C2_backends_relabel (logits : list F) (r1 r2 : PredictResult F) :
  onnx_postprocess logits = Ok r1 ->
  pytorch_postprocess logits = Ok r2 ->
  exists probs i,
    _softmax logits = Ok probs /\ np_argmax probs = Some i /\
    onnx_label_of_index i = Some (label r1) /\
    label r2 = pytorch_label_of_index i /\
    label r2 <> label r1 /\
    confidence r1 = confidence r2 /\
    forall k l, onnx_label_of_index k = Some l ->
      probabilities r1 !! Label_value l = probs !! k /\
      probabilities r2 !! Label_value (pytorch_label_of_index k) = probs !! k.
Proof.
  intros H1 H2.
  apply onnx_postprocess_Ok in H1
    as (probs & i & p0 & p1 & p2 & p3 & Hs & Hi & Hl & Hc & H0 & H1 & H2' & H3 & Hd).
  apply pytorch_postprocess_Ok in H2
    as (probs' & i' & q0 & q1 & q2 & q3 & Hs' & Hi' & Hl' & Hc' & G0 & G1 & G2 & G3 & Hd').
  rewrite Hs in Hs'. injection Hs' as <-.
  rewrite Hi in Hi'. injection Hi' as <-.
  exists probs, i. repeat split; try assumption.
  - rewrite Hl'. apply (pytorch_rotates i (label r1) Hl).
  - congruence.
  - rewrite Hd. unfold onnx_label_of_index in H.
    destruct k as [|[|[|[|k]]]]; simpl in H; try discriminate H;
      injection H as <-; cbn [Label_value];
      rewrite ?lookup_insert_eq, ?(lookup_insert_ne _ _ _ _) by discriminate;
      rewrite ?lookup_insert_ne by discriminate; rewrite ?lookup_insert_eq; congruence.
  - rewrite Hd'. unfold onnx_label_of_index in H.
    destruct k as [|[|[|[|k]]]]; simpl in H; try discriminate H;
      injection H as <-; cbn [Label_value pytorch_label_of_index mapping_get label_mapping];
      simpl; rewrite ?lookup_insert_ne by discriminate; rewrite ?lookup_insert_eq; congruence.
Qed.

End Services.

(** The amended C2 at the real logits [1, 0, 0, 0]. *)
Lemma C2_backends_relabel_witness :
  exists r1 r2 : PredictResult R,
    onnx_postprocess [1; 0; 0; 0]%R = Ok r1 /\
    pytorch_postprocess [1; 0; 0; 0]%R = Ok r2 /\
    exists probs i,
      _softmax [1; 0; 0; 0]%R = Ok probs /\ np_argmax probs = Some i /\
      onnx_label_of_index i = Some (label r1) /\
      label r2 = pytorch_label_of_index i /\
      label r2 <> label r1 /\
      confidence r1 = confidence r2 /\
      forall k l, onnx_label_of_index k = Some l ->
        probabilities r1 !! Label_value l = probs !! k /\
        probabilities r2 !! Label_value (pytorch_label_of_index k) = probs !! k.
Proof.
  destruct R_eval_1000 as (p & r1 & r2 & _ & H1 & H2 & _).
  exists r1, r2. split; [exact H1|]. split; [exact H2|].
  exact (C2_backends_relabel [1; 0; 0; 0]%R r1 r2 H1 H2).
Defined.

(** C4, as stated, fails for the PyTorch service: on five logits whose
    largest is the last, the result has the label none and as confidence
    the probability at index 4, while its dictionary reports for "none"
    the probability at index 0. *)
Lemma C4_confidence_mismatch :
  exists r : PredictResult R,
    postprocess PYTORCH [0; 0; 0; 0; 1]%R = Ok r /\
    probabilities r !! Label_value (label r) <> Some (confidence r).
Proof.
  destruct R_eval_00001 as (p & r & Hlt & Hr & ->).
  eexists. split; [exact Hr|].
  cbn [label confidence probabilities Label_value].
  rewrite lookup_insert_eq. intros Heq. injection Heq as Heq.
  rewrite Heq in Hlt. revert Hlt. apply Rlt_irrefl.
Qed.

Section Shape.
Context {F : Type} {NP : NumPy F}.

(** C4, amended: a successful result of either service has one of the
    four labels and a dictionary whose keys are exactly the four label
    strings; its confidence is the probability at the argmax index [i];
    whenever [i < 4] (always for ONNX) that is the probability the
    dictionary reports for the returned label; a PyTorch result with
    [4 <= i] has the label none, for which the dictionary reports the
    probability at index 0. *)
Theorem C4_result_shape (b : backend) (logits : list F) (r : PredictResult F) :
  postprocess b logits = Ok r ->
  Label_value (label r) ∈ label_strings /\
  dom (probabilities r) = label_strings /\
  exists probs i,
    _softmax logits = Ok probs /\ np_argmax probs = Some i /\
    probs !! i = Some (confidence r) /\
    (b = ONNX -> i < 4) /\
    (i < 4 -> probabilities r !! Label_value (label r) = Some (confidence r)) /\
    (4 <= i -> label r = NONE /\ probabilities r !! "none" = probs !! 0).
Proof.
  intros Hr. split; [apply Label_value_in|].
  destruct b; cbn [postprocess] in Hr.
  - apply onnx_postprocess_Ok in Hr
      as (probs & i & p0 & p1 & p2 & p3 & Hs & Hi & Hl & Hc & H0 & H1 & H2 & H3 & Hd).
    rewrite Hd. split; [apply four_keys_dom|].
    exists probs, i.
    assert (Hi4 : i < 4) by (apply (lookup_lt_Some Label_members i (label r)), Hl).
    split_and!; try assumption; [intros _; exact Hi4 | | intros Hge; lia].
    intros _. unfold onnx_label_of_index in Hl.
    destruct i as [|[|[|[|i]]]]; simpl in Hl; try discriminate Hl;
      injection Hl as <-; cbn [Label_value];
      rewrite ?lookup_insert_ne by discriminate; rewrite ?lookup_insert_eq; congruence.
  - apply pytorch_postprocess_Ok in Hr
      as (probs & i & p0 & p1 & p2 & p3 & Hs & Hi & Hl & Hc & H0 & H1 & H2 & H3 & Hd).
    rewrite Hd. split; [apply four_keys_dom|].
    exists probs, i. split_and!; try assumption; try discriminate.
    + intros Hi4. rewrite Hl. unfold pytorch_label_of_index.
      destruct i as [|[|[|[|i]]]]; try lia; simpl;
        rewrite ?lookup_insert_ne by discriminate; rewrite ?lookup_insert_eq; congruence.
    + intros Hge. split.
      * rewrite Hl. unfold pytorch_label_of_index.
        destruct i as [|[|[|[|i]]]]; try lia; reflexivity.
      * rewrite lookup_insert_eq. congruence.
Qed.

End Shape.

(** The amended C4 at the real logits [1, 0, 0, 0], ONNX service. *)
Lemma C4_result_shape_witness :
  exists r : PredictResult R,
    postprocess ONNX [1; 0; 0; 0]%R = Ok r /\
    Label_value (label r) ∈ label_strings /\
    dom (probabilities r) = label_strings /\
    exists probs i,
      _softmax [1; 0; 0; 0]%R = Ok probs /\ np_argmax probs = Some i /\
      probs !! i = Some (confidence r) /\
      (ONNX = ONNX -> i < 4) /\
      (i < 4 -> probabilities r !! Label_value (label r) = Some (confidence r)) /\
      (4 <= i -> label r = NONE /\ probabilities r !! "none" = probs !! 0).
Proof.
  destruct R_eval_1000 as (p & r1 & r2 & _ & H1 & _).
  exists r1. split; [exact H1|].
  exact (C4_result_shape ONNX [1; 0; 0; 0]%R r1 H1).
Defined.

(** ** C8: [load_waveform] *)

Section Waveform.
Context {F : Type} {NP : NumPy F} {RT : Runtime F}.

Lemma slice_to_nonneg {A} (a : list A) (stop : Z) :
  (0 <= stop)%Z -> slice_to a stop = take (Z.to_nat stop) a.
Proof.
  intros Hs. unfold slice_to.
  destruct (stop <? 0)%Z eqn:Hneg; [apply Z.ltb_lt in Hneg; lia | reflexivity].
Qed.

Lemma fit_length_short (waveform : list F) (sample_rate : Z) :
  (Z.of_nat (length waveform) < sample_rate * 5)%Z ->
  fit_length waveform sample_rate =
    (waveform ++ replicate (Z.to_nat (sample_rate * 5) - length waveform) np_zero)%list.
Proof.
  intros Hlt. unfold fit_length, DEFAULT_DURATION_SEC, np_pad_end.
  destruct (Z.of_nat (length waveform) <? sample_rate * 5)%Z eqn:Hc;
    [|apply Z.ltb_ge in Hc; lia].
  do 2 f_equal. lia.
Qed.

Lemma fit_length_long (waveform : list F) (sample_rate : Z) :
  (0 <= sample_rate)%Z ->
  (sample_rate * 5 <= Z.of_nat (length waveform))%Z ->
  fit_length waveform sample_rate = take (Z.to_nat (sample_rate * 5)) waveform.
Proof.
  intros Hs Hge. unfold fit_length, DEFAULT_DURATION_SEC.
  destruct (Z.of_nat (length waveform) <? sample_rate * 5)%Z eqn:Hc;
    [apply Z.ltb_lt in Hc; lia|].
  apply slice_to_nonneg. lia.
Qed.

Lemma fit_length_length (waveform : list F) (sample_rate : Z) :
  (0 <= sample_rate)%Z ->
  Z.of_nat (length (fit_length waveform sample_rate)) = (sample_rate * 5)%Z.
Proof.
  intros Hs.
  destruct (Z_lt_le_dec (Z.of_nat (length waveform)) (sample_rate * 5)) as [Hlt|Hge].
  - rewrite fit_length_short by exact Hlt.
    rewrite length_app, length_replicate. lia.
  - rewrite fit_length_long by assumption.
    rewrite length_take. lia.
Qed.

(** C8: for a sample rate that is not negative, whenever
    [librosa.load] accepts the file, [load_waveform] returns exactly
    [sample_rate * 5] samples (80000 at the default rate): a shorter
    recording followed by zeros, or the first [sample_rate * 5] samples of
    a longer one. *)
Theorem C8_load_waveform_length (path : string) (sample_rate : Z) (w : World F)
    (raw : list F) :
  (0 <= sample_rate)%Z ->
  librosa_load w path sample_rate = Ok raw ->
  exists waveform,
    load_waveform path sample_rate w = (Ok waveform, w) /\
    Z.of_nat (length waveform) = (sample_rate * 5)%Z /\
    (DEFAULT_SAMPLE_RATE * DEFAULT_DURATION_SEC = 80000)%Z /\
    ((Z.of_nat (length raw) < sample_rate * 5)%Z ->
       waveform = (raw ++ replicate (Z.to_nat (sample_rate * 5) - length raw) np_zero)%list) /\
    ((sample_rate * 5 <= Z.of_nat (length raw))%Z ->
       waveform = take (Z.to_nat (sample_rate * 5)) raw).
Proof.
  intros Hs Hload. exists (fit_length raw sample_rate). split_and!.
  - unfold load_waveform, ask, mbind, M_bind, mret, M_ret. rewrite Hload. reflexivity.
  - apply fit_length_length, Hs.
  - reflexivity.
  - apply fit_length_short.
  - apply fit_length_long, Hs.
Qed.

(** [load_waveform] accepts exactly the files [librosa.load] accepts. *)
Lemma load_waveform_raises (path : string) (sample_rate : Z) (w : World F) (e : exn) :
  librosa_load w path sample_rate = Raise e ->
  load_waveform path sample_rate w = (Raise e, w).
Proof.
  intros Hload. unfold load_waveform, ask, mbind, M_bind. rewrite Hload. reflexivity.
Qed.

End Waveform.

(** C8 at a recording of three samples read at one sample per second:
    five samples come back, the three read and two zeros. *)
Lemma C8_load_waveform_length_witness :
  exists raw waveform : list R,
    (0 <= 1)%Z /\
    librosa_load (Runtime := demo_runtime) three_sample_world "/tmp/copd/uploads/a.wav" 1
      = Ok raw /\
    load_waveform (RT := demo_runtime) "/tmp/copd/uploads/a.wav" 1 three_sample_world
      = (Ok waveform, three_sample_world) /\
    Z.of_nat (length waveform) = (1 * 5)%Z /\
    waveform = (raw ++ replicate 2 0%R)%list.
Proof.
  assert (Hraw : librosa_load (Runtime := demo_runtime) three_sample_world
                   "/tmp/copd/uploads/a.wav" 1
                 = Ok (sample_of_byte <$> String.list_ascii_of_string "abc"))
    by reflexivity.
  destruct (C8_load_waveform_length (RT := demo_runtime) "/tmp/copd/uploads/a.wav" 1
              three_sample_world _ ltac:(lia) Hraw)
    as (waveform & Hw & Hlen & _ & Hshort & _).
  eexists. exists waveform. split; [lia|]. split; [exact Hraw|].
  split; [exact Hw|]. split; [exact Hlen|].
  apply Hshort. simpl. lia.
Defined.

(** ** The repository *)

Section RepositoryFacts.
Context {F : Type} {NP : NumPy F} {RT : Runtime F}.

Lemma M_bind_unfold {A B} (m : M F A) (f : A -> M F B) (w : World F) :
  (m ≫= f) w = match m w with
               | (Ok a, w') => f a w'
               | (Raise e, w') => (Raise e, w')
               end.
Proof. reflexivity. Qed.

(** What [update_status] writes under each key. *)
Lemma status_updates_lookup (status : PredictionStatus) (now : Z) (lbl : option Label)
    (conf : option F) (probs : option (gmap string F)) (notes : option string) (k : string) :
  status_updates status now lbl conf probs notes !! k =
    if decide (k = "status") then Some (VStr (PredictionStatus_value status))
    else if decide (k = "updated_at") then Some (VDateTime now)
    else if decide (k = "label") then (fun l => VStr (Label_value l)) <$> lbl
    else if decide (k = "confidence") then VFloat <$> conf
    else if decide (k = "probabilities") then VDict <$> probs
    else if decide (k = "notes") then VStr <$> notes
    else None.
Proof.
  unfold status_updates.
  destruct lbl, conf, probs, notes; cbn [fmap option_fmap option_map];
    repeat case_decide; subst;
    repeat (first [rewrite lookup_insert_eq | rewrite lookup_insert_ne by congruence
                  | rewrite lookup_singleton_eq | rewrite lookup_singleton_ne by congruence]);
    try reflexivity; exfalso; congruence.
Qed.

(** [$set]: the written keys take their new value, every other key
    keeps the stored one. *)
Lemma set_lookup (updates doc : gmap string (value F)) (k : string) :
  (updates ∪ doc) !! k = match updates !! k with
                         | Some v => Some v
                         | None => doc !! k
                         end.
Proof.
  rewrite lookup_union. destruct (updates !! k), (doc !! k); reflexivity.
Qed.

Lemma status_keys_elem (k : string) :
  k ∈ status_keys <->
  k = "status" \/ k = "updated_at" \/ k = "label" \/ k = "confidence" \/
  k = "probabilities" \/ k = "notes".
Proof.
  unfold status_keys. rewrite !elem_of_union, !elem_of_singleton. tauto.
Qed.

Lemma status_updates_other (status : PredictionStatus) (now : Z) (lbl : option Label)
    (conf : option F) (probs : option (gmap string F)) (notes : option string) (k : string) :
  k ∉ status_keys ->
  status_updates status now lbl conf probs notes !! k = None.
Proof.
  intros Hk. rewrite status_updates_lookup. rewrite status_keys_elem in Hk.
  repeat case_decide; try reflexivity; exfalso; apply Hk; tauto.
Qed.

End RepositoryFacts.

(** A key given by a literal is none of the keys [update_status] writes. *)
Ltac other_key :=
  rewrite status_keys_elem; intros [?|[?|[?|[?|[?|?]]]]]; discriminate.

(** The value of a literal key after [$set]. *)
Ltac after_key :=
  rewrite set_lookup, status_updates_lookup;
  repeat (case_decide; try congruence); try reflexivity.

Section RepositoryClaims.
Context {F : Type} {NP : NumPy F} {RT : Runtime F}.

(** What a successful validation read from the document. *)
Lemma Prediction_validate_Ok (id : string) (doc : gmap string (value F)) (now : Z)
    (p : Prediction F) :
  Prediction_validate id doc now = Ok p ->
  p_id p = id /\
  doc !! "filename" = Some (VStr (p_filename p)) /\
  doc !! "content_type" = Some (VStr (p_content_type p)) /\
  doc !! "file_size" = Some (VInt (p_file_size p)) /\
  doc !! "storage_path" = Some (VStr (p_storage_path p)) /\
  status_field doc = Ok (p_status p) /\
  label_field doc = Ok (p_label p) /\
  optional_float doc "confidence" = Ok (p_confidence p) /\
  optional_dict doc "probabilities" = Ok (p_probabilities p) /\
  datetime_field doc "created_at" now = Ok (p_created_at p) /\
  datetime_field doc "updated_at" now = Ok (p_updated_at p) /\
  optional_str doc "user_id" = Ok (p_user_id p) /\
  optional_str doc "notes" = Ok (p_notes p).
Proof.
  unfold Prediction_validate. intros Hp.
  apply result_bind_Ok in Hp as (filename & H1 & Hp).
  apply result_bind_Ok in Hp as (content_type & H2 & Hp).
  apply result_bind_Ok in Hp as (file_size & H3 & Hp).
  apply result_bind_Ok in Hp as (storage_path & H4 & Hp).
  apply result_bind_Ok in Hp as (status & H5 & Hp).
  apply result_bind_Ok in Hp as (lbl & H6 & Hp).
  apply result_bind_Ok in Hp as (conf & H7 & Hp).
  apply result_bind_Ok in Hp as (probs & H8 & Hp).
  apply result_bind_Ok in Hp as (created_at & H9 & Hp).
  apply result_bind_Ok in Hp as (updated_at & H10 & Hp).
  apply result_bind_Ok in Hp as (user_id & H11 & Hp).
  apply result_bind_Ok in Hp as (notes & H12 & Hp).
  injection Hp as <-. cbn.
  unfold required_str in H1, H2, H4. unfold required_int in H3.
  destruct (doc !! "filename") as [[]|]; try discriminate H1. injection H1 as ->.
  destruct (doc !! "content_type") as [[]|]; try discriminate H2. injection H2 as ->.
  destruct (doc !! "file_size") as [[]|]; try discriminate H3. injection H3 as ->.
  destruct (doc !! "storage_path") as [[]|]; try discriminate H4. injection H4 as ->.
  split_and!; done.
Qed.

(** [get], evaluated. *)
Lemma get_eval (prediction_id : string) (w : World F) :
  get prediction_id w =
    match ObjectId prediction_id with
    | None => (Ok None, w)
    | Some oid =>
        match documents w !! oid with
        | None => (Ok None, w)
        | Some doc =>
            match Prediction_validate oid doc (clock w) with
            | Ok p => (Ok (Some p), w)
            | Raise e => (Raise e, w)
            end
        end
    end.
Proof.
  unfold get. destruct (ObjectId prediction_id) as [oid|]; [|reflexivity].
  rewrite M_bind_unfold. cbn [get_world].
  destruct (documents w !! oid) as [doc|]; [|reflexivity].
  rewrite M_bind_unfold. unfold to_Prediction. rewrite M_bind_unfold. cbn [get_world lift].
  destruct (Prediction_validate oid doc (clock w)); reflexivity.
Qed.

(** [get] changes nothing. *)
Lemma get_pure (prediction_id : string) (w : World F) : (get prediction_id w).2 = w.
Proof.
  rewrite get_eval.
  destruct (ObjectId prediction_id) as [oid|]; [|reflexivity].
  destruct (documents w !! oid) as [doc|]; [|reflexivity].
  destruct (Prediction_validate oid doc (clock w)); reflexivity.
Qed.


(** The encoded datetime is the last whole millisecond. *)
Lemma bson_datetime_le (t : Z) : (bson_datetime t <= t < bson_datetime t + 1000)%Z.
Proof.
  unfold bson_datetime.
  pose proof (Z.mod_pos_bound t 1000). pose proof (Z.div_mod t 1000). lia.
Qed.

Lemma bson_datetime_idem (t : Z) : bson_datetime (bson_datetime t) = bson_datetime t.
Proof. unfold bson_datetime. rewrite Z.div_mul by lia. reflexivity. Qed.

(** Encoding changes the datetimes of a document and nothing else. *)
Lemma bson_status_updates (status : PredictionStatus) (now : Z) (lbl : option Label)
    (conf : option F) (probs : option (gmap string F)) (notes : option string) :
  bson <$> status_updates status now lbl conf probs notes
  = status_updates (F := F) status (bson_datetime now) lbl conf probs notes.
Proof.
  unfold status_updates.
  destruct lbl, conf, probs, notes;
    rewrite ?fmap_insert, map_fmap_singleton; reflexivity.
Qed.

Lemma bson_created_document (payload : PredictionCreate) (created updated : Z) :
  bson <$> created_document payload created updated
  = created_document (F := F) payload (bson_datetime created) (bson_datetime updated).
Proof.
  unfold created_document, model_dump.
  rewrite ?fmap_insert, map_fmap_singleton. cbn [bson].
  destruct (pc_user_id payload); reflexivity.
Qed.

(** [update_status], evaluated. *)
Lemma update_status_eval (prediction_id : string) (status : PredictionStatus)
    (lbl : option Label) (conf : option F) (probs : option (gmap string F))
    (notes : option string) (w : World F) :
  update_status prediction_id status lbl conf probs notes w =
    let w1 := set_clock (clock w + 1) w in
    match ObjectId prediction_id with
    | None => (Raise (invalid_id prediction_id), w1)
    | Some oid =>
        match documents w !! oid with
        | None => (Ok None, w1)
        | Some doc =>
            let after :=
              status_updates status (bson_datetime (clock w)) lbl conf probs notes ∪ doc in
            let w2 := set_documents (<[oid := after]> (documents w)) w1 in
            match Prediction_validate oid after (clock w + 1) with
            | Ok p => (Ok (Some p), w2)
            | Raise e => (Raise e, w2)
            end
        end
    end.
Proof.
  unfold update_status. rewrite M_bind_unfold. cbn [utcnow].
  rewrite M_bind_unfold. unfold lift at 1.
  destruct (ObjectId prediction_id) as [oid|]; cbn [of_option]; [|reflexivity].
  rewrite M_bind_unfold. unfold find_one_and_update. rewrite M_bind_unfold.
  cbn [get_world set_clock documents].
  destruct (documents w !! oid) as [doc|]; [|reflexivity].
  rewrite bson_status_updates.
  rewrite M_bind_unfold. cbn [modify mret M_ret].
  rewrite M_bind_unfold. unfold to_Prediction. rewrite M_bind_unfold.
  cbn [get_world lift set_documents clock].
  destruct (Prediction_validate _ _ _); reflexivity.
Qed.

End RepositoryClaims.


Section UpdateStatus.
Context {F : Type} {NP : NumPy F} {RT : Runtime F}.

(** C10, amended: for an id string that is a valid ObjectId,
    [update_status] changes, in the document it names, only [status],
    [updated_at] and those of [label], [confidence], [probabilities] and
    [notes] that are passed; every other key of that document, every
    other document and every other part of the world but the clock is
    unchanged; and when no document has that id it returns [None] and
    leaves the collection as it was. *)
Theorem C10_update_status_frame (prediction_id oid : string) (status : PredictionStatus)
    (lbl : option Label) (conf : option F) (probs : option (gmap string F))
    (notes : option string) (w : World F) :
  ObjectId prediction_id = Some oid ->
  exists r w',
    update_status prediction_id status lbl conf probs notes w = (r, w') /\
    files w' = files w /\ scheduled w' = scheduled w /\ log w' = log w /\
    inference_service w' = inference_service w /\
    pytorch_inference_service w' = pytorch_inference_service w /\
    (forall other, other <> oid -> documents w' !! other = documents w !! other) /\
    match documents w !! oid with
    | None => r = Ok None /\ documents w' = documents w
    | Some doc =>
        exists after,
          documents w' !! oid = Some after /\
          after !! "status" = Some (VStr (PredictionStatus_value status)) /\
          after !! "updated_at" = Some (VDateTime (bson_datetime (clock w))) /\
          after !! "label" =
            match lbl with Some l => Some (VStr (Label_value l)) | None => doc !! "label" end /\
          after !! "confidence" =
            match conf with Some c => Some (VFloat c) | None => doc !! "confidence" end /\
          after !! "probabilities" =
            match probs with Some d => Some (VDict d) | None => doc !! "probabilities" end /\
          after !! "notes" =
            match notes with Some n => Some (VStr n) | None => doc !! "notes" end /\
          (forall k, k ∉ status_keys -> after !! k = doc !! k) /\
          after !! "filename" = doc !! "filename" /\
          after !! "content_type" = doc !! "content_type" /\
          after !! "file_size" = doc !! "file_size" /\
          after !! "storage_path" = doc !! "storage_path" /\
          after !! "created_at" = doc !! "created_at" /\
          after !! "user_id" = doc !! "user_id"
    end.
Proof.
  intros Hoid. rewrite update_status_eval, Hoid. cbn zeta.
  destruct (documents w !! oid) as [doc|] eqn:Hdoc.
  - set (after := status_updates status (bson_datetime (clock w)) lbl conf probs notes ∪ doc).
    assert (Hother : forall k, k ∉ status_keys -> after !! k = doc !! k).
    { intros k Hk. unfold after. rewrite set_lookup, status_updates_other by exact Hk.
      reflexivity. }
    assert (Hw : exists r, forall w2 : World F,
               (match Prediction_validate oid after (clock w + 1) with
                | Ok p => (Ok (Some p), w2)
                | Raise e => (Raise e, w2)
                end) = (r, w2)).
    { destruct (Prediction_validate oid after (clock w + 1)); eexists; reflexivity. }
    destruct Hw as (r & Hw). exists r. eexists. split; [apply Hw|].
    cbn [files scheduled log inference_service pytorch_inference_service documents
         set_documents set_clock].
    split_and!; try reflexivity.
    + intros other Hne. apply lookup_insert_ne. congruence.
    + exists after. split; [apply lookup_insert_eq|].
      split_and!; try exact Hother;
        try (apply Hother; other_key);
        unfold after; rewrite set_lookup, status_updates_lookup;
        repeat (case_decide; try congruence);
        try destruct lbl; try destruct conf; try destruct probs; try destruct notes;
        reflexivity.
  - exists (Ok None). eexists. split; [reflexivity|].
    cbn [files scheduled log inference_service pytorch_inference_service documents set_clock].
    split_and!; reflexivity.
Qed.

(** With an id string that is not a valid ObjectId, [update_status]
    raises [InvalidId] after reading the clock; no document changes. *)
Lemma update_status_invalid_id (prediction_id : string) (status : PredictionStatus)
    (lbl : option Label) (conf : option F) (probs : option (gmap string F))
    (notes : option string) (w : World F) :
  ObjectId prediction_id = None ->
  update_status prediction_id status lbl conf probs notes w =
    (Raise (invalid_id prediction_id), set_clock (clock w + 1) w).
Proof. intros Hinv. rewrite update_status_eval, Hinv. reflexivity. Qed.

End UpdateStatus.

(** C10, as stated, fails: no document has the id "no-such-id", yet
    [update_status] does not return [None] there, it raises [InvalidId]. *)
Lemma C10_invalid_id_raises :
  hex24 "no-such-id" = None /\
  documents one_pending_world !! "no-such-id" = None /\
  update_status (RT := demo_runtime) "no-such-id" FAILED None None None None one_pending_world
    = (Raise (invalid_id "no-such-id"), set_clock 3 one_pending_world) /\
  update_status (RT := demo_runtime) "no-such-id" FAILED None None None None one_pending_world
    <> (Ok None, set_clock 3 one_pending_world).
Proof.
  split_and!.
  - reflexivity.
  - reflexivity.
  - reflexivity.
  - discriminate.
Qed.

(** C10, amended, at the stored record: marking it failed with notes
    changes the status and the notes and leaves the file name, the label
    and the stored files as they were. *)
Lemma C10_update_status_frame_witness :
  hex24 "000000000000000000000001" = Some "000000000000000000000001" /\
  exists r w' after,
    update_status (RT := demo_runtime) "000000000000000000000001" FAILED
      None None None (Some "boom") one_pending_world = (r, w') /\
    documents w' !! "000000000000000000000001" = Some after /\
    after !! "status" = Some (VStr "failed") /\
    after !! "notes" = Some (VStr "boom") /\
    after !! "filename" = Some (VStr "a.wav") /\
    after !! "label" = None /\
    files w' = files one_pending_world.
Proof.
  split; [reflexivity|].
  destruct (C10_update_status_frame (RT := demo_runtime)
              "000000000000000000000001" "000000000000000000000001" FAILED
              None None None (Some "boom") one_pending_world eq_refl)
    as (r & w' & Hrun & Hfiles & _ & _ & _ & _ & _ & Hdoc).
  change (documents one_pending_world !! "000000000000000000000001")
    with (Some pending_document) in Hdoc.
  destruct Hdoc as (after & Hafter & Hstatus & _ & Hlabel & _ & _ & Hnotes & _ & Hfilename & _).
  exists r, w', after. split_and!; assumption.
Defined.

(** ** C5: the upload endpoint *)

Lemma unsupported_type_true (content_type : option string) :
  unsupported_type content_type = true <->
  content_type = None \/
  exists ct, content_type = Some ct /\ String.prefix "audio" ct = false.
Proof.
  unfold unsupported_type. destruct content_type as [ct|].
  - split.
    + intros Hu. right. exists ct. split; [reflexivity|].
      destruct (String.eqb ct "") eqn:He.
      * apply String.eqb_eq in He. subst ct. reflexivity.
      * simpl in Hu. apply negb_true_iff in Hu. exact Hu.
    + intros [Hn | (ct' & Hct & Hp)]; [discriminate Hn|].
      injection Hct as <-. rewrite Hp. apply orb_true_r.
  - split; [intros _; left; reflexivity | reflexivity].
Qed.

Lemma unsupported_type_false (content_type : option string) :
  unsupported_type content_type = false <->
  exists ct, content_type = Some ct /\ String.prefix "audio" ct = true.
Proof.
  split.
  - intros Hu. destruct content_type as [ct|]; [|discriminate Hu].
    exists ct. split; [reflexivity|].
    destruct (String.prefix "audio" ct) eqn:Hp; [reflexivity|].
    assert (Ht : unsupported_type (Some ct) = true).
    { apply unsupported_type_true. right. exists ct. split; [reflexivity | exact Hp]. }
    rewrite Ht in Hu. discriminate Hu.
  - intros (ct & -> & Hp).
    destruct (unsupported_type (Some ct)) eqn:Hu; [|reflexivity].
    apply unsupported_type_true in Hu as [Hn | (ct' & Hct & Hp')]; [discriminate Hn|].
    injection Hct as <-. congruence.
Qed.

Section Upload.
Context {F : Type} {NP : NumPy F} {RT : Runtime F}.

Lemma set_clock_set_clock (c1 c2 : Z) (w : World F) :
  set_clock c2 (set_clock c1 w) = set_clock c2 w.
Proof. reflexivity. Qed.

Lemma created_document_valid (id : string) (payload : PredictionCreate)
    (created updated now : Z) :
  Prediction_validate id (created_document (F := F) payload created updated) now =
    Ok {| p_id := id; p_filename := pc_filename payload;
          p_content_type := pc_content_type payload;
          p_file_size := pc_file_size payload;
          p_storage_path := pc_storage_path payload;
          p_status := PENDING; p_label := None; p_confidence := None;
          p_probabilities := None; p_created_at := created; p_updated_at := updated;
          p_user_id := pc_user_id payload; p_notes := None |}.
Proof.
  unfold Prediction_validate, created_document, model_dump.
  unfold required_str, required_int, status_field, label_field, optional_float,
    optional_dict, datetime_field, optional_str, opt_str_value.
  repeat (first [rewrite lookup_insert_eq | rewrite lookup_insert_ne by discriminate
                | rewrite lookup_singleton_eq | rewrite lookup_singleton_ne by discriminate]).
  destruct (pc_user_id payload); reflexivity.
Qed.

(** [create], evaluated. *)
Lemma create_eval (payload : PredictionCreate) (w : World F) :
  create payload w =
    let w2 := set_clock (clock w + 1 + 1) w in
    let doc := created_document (F := F) payload
                 (bson_datetime (clock w)) (bson_datetime (clock w + 1)) in
    let oid := new_object_id w2 in
    match documents w !! oid with
    | Some _ => (Raise (Exn DuplicateKeyError "duplicate key error"), w2)
    | None =>
        (Ok {| p_id := oid; p_filename := pc_filename payload;
               p_content_type := pc_content_type payload;
               p_file_size := pc_file_size payload;
               p_storage_path := pc_storage_path payload;
               p_status := PENDING; p_label := None; p_confidence := None;
               p_probabilities := None; p_created_at := clock w;
               p_updated_at := (clock w + 1)%Z;
               p_user_id := pc_user_id payload; p_notes := None |},
         set_documents (<[oid := doc]> (documents w)) w2)
    end.
Proof.
  unfold create. rewrite M_bind_unfold. unfold utcnow at 1.
  rewrite M_bind_unfold. unfold utcnow at 1.
  rewrite set_clock_set_clock. cbn [clock set_clock].
  rewrite M_bind_unfold. unfold insert_one. rewrite M_bind_unfold. cbn [get_world].
  change (documents (set_clock (clock w + 1 + 1) w)) with (documents w).
  cbn zeta.
  destruct (documents w !! new_object_id (set_clock (clock w + 1 + 1) w)); [reflexivity|].
  rewrite M_bind_unfold. cbn [modify mret M_ret].
  unfold to_Prediction. rewrite M_bind_unfold. cbn [get_world lift].
  rewrite created_document_valid, bson_created_document. reflexivity.
Qed.

End Upload.

Section UploadClaims.
Context {F : Type} {NP : NumPy F} {RT : Runtime F}.

(** C5: an upload whose content type is missing or does not start with
    "audio" fails with HTTP 400 and leaves the world as it was: no file
    stored, no document created.  Any other upload stores the file,
    creates a document with status pending, schedules exactly one
    background task for it, and returns the pending prediction with
    status 201; at that point no inference has run. *)
Theorem C5_upload_audio (file : UploadFile) (w : World F) :
  (upload_content_type file = None \/
   (exists ct, upload_content_type file = Some ct /\ String.prefix "audio" ct = false) ->
   upload_audio file w = (Raise (Exn (HTTPException 400) "Unsupported file type"), w)) /\
  ((exists ct, upload_content_type file = Some ct /\ String.prefix "audio" ct = true) ->
   documents w !! new_object_id (upload_insert_world file w) = None ->
   exists p doc w',
     upload_audio file w = (Ok (201%Z, p), w') /\
     p_id p = new_object_id (upload_insert_world file w) /\
     p_status p = PENDING /\
     p_storage_path p = upload_path file w /\
     p_file_size p = Z.of_nat (String.length (upload_body file)) /\
     Some (p_content_type p) = upload_content_type file /\
     p_label p = None /\
     files w' = <[upload_path file w := upload_body file]> (files w) /\
     documents w' = <[p_id p := doc]> (documents w) /\
     doc !! "status" = Some (VStr "pending") /\
     scheduled w' = (scheduled w ++ [(p_id p, upload_path file w)])%list /\
     log w' = log w /\
     inference_service w' = inference_service w /\
     pytorch_inference_service w' = pytorch_inference_service w).
Proof.
  split.
  - intros Hbad. apply unsupported_type_true in Hbad.
    unfold upload_audio. rewrite Hbad. reflexivity.
  - intros Hok Hfresh. pose proof Hok as (ct & Hct & Hprefix).
    apply unsupported_type_false in Hok.
    unfold upload_audio. rewrite Hok.
    rewrite M_bind_unfold. unfold save_upload. rewrite M_bind_unfold. cbn [get_world].
    rewrite M_bind_unfold. cbn [modify mret M_ret].
    fold (upload_path file w).
    rewrite M_bind_unfold. unfold stat_size. rewrite M_bind_unfold. cbn [get_world].
    cbn [files set_files]. rewrite lookup_insert_eq. cbn [mret M_ret].
    rewrite M_bind_unfold, create_eval. cbn zeta.
    cbn [clock set_files documents].
    change (set_clock (clock w + 1 + 1)
              (set_files (<[upload_path file w := upload_body file]> (files w)) w))
      with (upload_insert_world file w).
    rewrite Hfresh.
    rewrite M_bind_unfold. unfold create_task. cbn [modify mret M_ret].
    eexists. eexists. eexists. split; [reflexivity|].
    cbn [p_id p_status p_storage_path p_file_size p_content_type p_label
         pc_storage_path pc_file_size pc_content_type
         files documents scheduled log inference_service pytorch_inference_service
         set_scheduled set_documents set_clock set_files upload_insert_world].
    rewrite Hct. split_and!; reflexivity.
Qed.

End UploadClaims.

(** C5 at two uploads into the empty world: a PDF is refused with 400
    and nothing changes; a WAV file is stored, recorded as pending and
    scheduled once. *)
Lemma C5_upload_audio_witness :
  upload_audio (RT := demo_runtime) pdf_upload (initial_world default_Settings)
    = (Raise (Exn (HTTPException 400) "Unsupported file type"),
       initial_world default_Settings) /\
  exists p w',
    upload_audio (RT := demo_runtime) wav_upload (initial_world default_Settings)
      = (Ok (201%Z, p), w') /\
    p_status p = PENDING /\
    scheduled w' = [(p_id p, "/tmp/copd/uploads/0.wav")] /\
    files w' !! "/tmp/copd/uploads/0.wav" = Some "abc" /\
    log w' = [].
Proof.
  split.
  - apply (C5_upload_audio (RT := demo_runtime) pdf_upload (initial_world default_Settings)).
    right. exists "application/pdf". split; reflexivity.
  - destruct (C5_upload_audio (RT := demo_runtime) wav_upload
                (initial_world default_Settings)) as [_ Hgood].
    destruct Hgood as (p & doc & w' & Hrun & Hid & Hst & Hpath & _ & _ & _ & Hfiles & _ & _
                       & Hsched & Hlog & _).
    + exists "audio/wav". split; reflexivity.
    + reflexivity.
    + exists p, w'.
      split_and!; [exact Hrun | exact Hst | rewrite Hsched; reflexivity
                  | rewrite Hfiles; reflexivity | exact Hlog].
Defined.

(** ** The inference pipeline leaves the store alone *)

Create HintDb keeps discriminated.

Section Frames.
Context {F : Type} {NP : NumPy F} {RT : Runtime F}.

Lemma same_store_refl (w : World F) : same_store w w.
Proof. unfold same_store. auto. Qed.

Lemma same_store_trans (w1 w2 w3 : World F) :
  same_store w1 w2 -> same_store w2 w3 -> same_store w1 w3.
Proof.
  unfold same_store. intros (A1 & A2 & A3 & A4 & A5) (B1 & B2 & B3 & B4 & B5).
  split_and!; congruence.
Qed.

Lemma keeps_ret {A} (a : A) : keeps_store (mret a : M F A).
Proof. intros w. apply same_store_refl. Qed.

Lemma keeps_raise {A} (e : exn) : keeps_store (raise e : M F A).
Proof. intros w. apply same_store_refl. Qed.

Lemma keeps_lift {A} (r : result A) : keeps_store (lift r : M F A).
Proof. intros w. apply same_store_refl. Qed.

Lemma keeps_ask {A} (f : World F -> result A) : keeps_store (ask f).
Proof. intros w. apply same_store_refl. Qed.

Lemma keeps_get_world : keeps_store (get_world : M F (World F)).
Proof. intros w. apply same_store_refl. Qed.

Lemma keeps_bind {A B} (m : M F A) (f : A -> M F B) :
  keeps_store m -> (forall a, keeps_store (f a)) -> keeps_store (m ≫= f).
Proof.
  intros Hm Hf w. rewrite M_bind_unfold. specialize (Hm w).
  destruct (m w) as [[a|e] w1]; cbn [snd] in *; [|exact Hm].
  eapply same_store_trans; [exact Hm | apply Hf].
Qed.

Lemma keeps_try_except {A} (body : M F A) (handler : exn -> M F A) :
  keeps_store body -> (forall e, keeps_store (handler e)) ->
  keeps_store (try_except body handler).
Proof.
  intros Hb Hh w. unfold try_except. specialize (Hb w).
  destruct (body w) as [[a|e] w1]; cbn [snd] in *; [exact Hb|].
  eapply same_store_trans; [exact Hb | apply Hh].
Qed.

Lemma keeps_try_finally {A} (body : M F A) (fin : M F unit) :
  keeps_store body -> keeps_store fin -> keeps_store (try_finally body fin).
Proof.
  intros Hb Hf w. unfold try_finally. specialize (Hb w).
  destruct (body w) as [r w1]. cbn [snd] in Hb. specialize (Hf w1).
  destruct (fin w1) as [[u|e] w2]; cbn [snd] in *;
    eapply same_store_trans; eassumption.
Qed.

Lemma keeps_modify (f : World F -> World F) :
  (forall w, same_store w (f w)) -> keeps_store (modify f).
Proof. intros Hf w. apply Hf. Qed.

Lemma keeps_emit (e : event F) : keeps_store (emit e).
Proof. apply keeps_modify. intros w. unfold same_store. cbn. auto. Qed.

Lemma keeps_set_service (s : AudioInferenceService) :
  keeps_store (modify (set_inference_service (F := F) s)).
Proof. apply keeps_modify. intros w. unfold same_store. cbn. auto. Qed.

Lemma keeps_set_pytorch (s : option PyTorchAudioInferenceService) :
  keeps_store (modify (set_pytorch_inference_service (F := F) s)).
Proof. apply keeps_modify. intros w. unfold same_store. cbn. auto. Qed.

Lemma keeps_set_pt (f : PyTorchAudioInferenceService -> PyTorchAudioInferenceService) :
  keeps_store (set_pt (F := F) f).
Proof. apply keeps_modify. intros w. unfold same_store. cbn. auto. Qed.

Lemma keeps_set_sys_path (p : list string) : keeps_store (modify (set_sys_path (F := F) p)).
Proof. apply keeps_modify. intros w. unfold same_store. cbn. auto. Qed.

Lemma keeps_set_cwd (p : string) : keeps_store (modify (set_cwd (F := F) p)).
Proof. apply keeps_modify. intros w. unfold same_store. cbn. auto. Qed.

Lemma keeps_with_icbhi_on_path (icbhi_path : string) :
  keeps_store (modify (with_icbhi_on_path (F := F) icbhi_path)).
Proof.
  apply keeps_modify. intros w. unfold with_icbhi_on_path, same_store.
  destruct (bool_decide _); cbn; auto.
Qed.

Hint Resolve keeps_ret keeps_raise keeps_lift keeps_ask keeps_get_world keeps_emit
  keeps_set_service keeps_set_pytorch keeps_set_pt keeps_set_sys_path keeps_set_cwd
  keeps_with_icbhi_on_path : keeps.

(** One step of a frame proof: split a bind, a handler or a branch. *)
Ltac keeps_step :=
  match goal with
  | |- keeps_store (_ ≫= _) => apply keeps_bind; [|intros ?]
  | |- keeps_store (try_except _ _) => apply keeps_try_except; [|intros ?]
  | |- keeps_store (try_finally _ _) => apply keeps_try_finally
  | |- keeps_store (match ?x with _ => _ end) => destruct x
  | |- keeps_store (if ?b then _ else _) => destruct b
  | |- keeps_store _ => solve [auto with keeps]
  end.

Lemma keeps_chdir (p : string) : keeps_store (chdir p).
Proof. unfold chdir. repeat keeps_step. Qed.

Hint Resolve keeps_chdir : keeps.

Lemma keeps_load_waveform (path : string) (sample_rate : Z) :
  keeps_store (load_waveform path sample_rate).
Proof. unfold load_waveform. repeat keeps_step. Qed.

Lemma keeps_extract_mel_spectrogram (waveform : list F) :
  keeps_store (extract_mel_spectrogram waveform).
Proof. unfold extract_mel_spectrogram. repeat keeps_step. Qed.

Lemma keeps_onnx_load : keeps_store onnx_load.
Proof. unfold onnx_load. repeat keeps_step. Qed.

Hint Resolve keeps_onnx_load keeps_load_waveform keeps_extract_mel_spectrogram : keeps.

Lemma keeps_onnx_predict (features : array F) : keeps_store (onnx_predict features).
Proof. unfold onnx_predict. repeat keeps_step. Qed.

Lemma keeps_import_and_build (checkpoint : Checkpoint) (model_type : option string)
    (icbhi_path_str original_cwd : string) :
  keeps_store (import_and_build checkpoint model_type icbhi_path_str original_cwd).
Proof. unfold import_and_build. repeat keeps_step. Qed.

Hint Resolve keeps_import_and_build : keeps.

Lemma keeps_load_model_with_wrapper (checkpoint_path : string) (icbhi_path : attr)
    (use_icbhi_import : bool) :
  keeps_store (load_model_with_wrapper checkpoint_path icbhi_path use_icbhi_import).
Proof. unfold load_model_with_wrapper. repeat keeps_step. Qed.

Hint Resolve keeps_load_model_with_wrapper : keeps.

Lemma keeps_pt_self : keeps_store (pt_self (F := F)).
Proof. unfold pt_self. repeat keeps_step. Qed.

Hint Resolve keeps_pt_self : keeps.

Lemma keeps_pytorch_load : keeps_store pytorch_load.
Proof. unfold pytorch_load. repeat keeps_step. Qed.

Hint Resolve keeps_pytorch_load : keeps.

Lemma keeps_pytorch_predict (waveform : array F) : keeps_store (pytorch_predict waveform).
Proof. unfold pytorch_predict. repeat keeps_step. Qed.

Hint Resolve keeps_onnx_predict keeps_pytorch_predict : keeps.

Lemma keeps_predict (service : backend) (x : array F) : keeps_store (predict service x).
Proof. destruct service; cbn [predict]; auto with keeps. Qed.

Lemma keeps_get_inference_service {S} {SO : SettingsObject S} (settings : S) :
  keeps_store (get_inference_service settings).
Proof.
  unfold get_inference_service, get_pytorch_inference_service,
    new_PyTorchAudioInferenceService.
  repeat keeps_step.
Qed.

Hint Resolve keeps_predict keeps_get_inference_service : keeps.

(** The inference pipeline reads the stored file and writes nothing. *)
Lemma keeps_run_inference {S} {SO : SettingsObject S} (settings : S) (audio_path : string) :
  keeps_store (run_inference settings audio_path).
Proof. unfold run_inference. repeat keeps_step. Qed.

End Frames.

(** ** C3: the background coroutine *)

Section Pipeline.
Context {F : Type} {NP : NumPy F} {RT : Runtime F}.

(** Validation succeeds exactly when every field reads. *)
Lemma validate_is_Ok (id : string) (doc : gmap string (value F)) (now : Z) :
  is_Ok (Prediction_validate id doc now) =
    is_Ok (required_str doc "filename") && is_Ok (required_str doc "content_type")
    && is_Ok (required_int doc "file_size") && is_Ok (required_str doc "storage_path")
    && is_Ok (status_field doc) && is_Ok (label_field doc)
    && is_Ok (optional_float doc "confidence") && is_Ok (optional_dict doc "probabilities")
    && is_Ok (datetime_field doc "created_at" now)
    && is_Ok (datetime_field doc "updated_at" now)
    && is_Ok (optional_str doc "user_id") && is_Ok (optional_str doc "notes").
Proof.
  unfold Prediction_validate.
  destruct (required_str doc "filename"); [|reflexivity].
  destruct (required_str doc "content_type"); [|reflexivity].
  destruct (required_int doc "file_size"); [|reflexivity].
  destruct (required_str doc "storage_path"); [|reflexivity].
  destruct (status_field doc); [|reflexivity].
  destruct (label_field doc); [|reflexivity].
  destruct (optional_float doc "confidence"); [|reflexivity].
  destruct (optional_dict doc "probabilities"); [|reflexivity].
  destruct (datetime_field doc "created_at" now); [|reflexivity].
  destruct (datetime_field doc "updated_at" now); [|reflexivity].
  destruct (optional_str doc "user_id"); [|reflexivity].
  destruct (optional_str doc "notes"); reflexivity.
Qed.

Lemma datetime_field_is_Ok (doc : gmap string (value F)) (k : string) (t t' : Z) :
  is_Ok (datetime_field doc k t) = is_Ok (datetime_field doc k t').
Proof. unfold datetime_field. destruct (doc !! k) as [[]|]; reflexivity. Qed.

Lemma Label_of_value_value (l : Label) : Label_of_value (Label_value l) = Some l.
Proof. destruct l; reflexivity. Qed.

Lemma PredictionStatus_of_value_value (s : PredictionStatus) :
  PredictionStatus_of_value (PredictionStatus_value s) = Some s.
Proof. destruct s; reflexivity. Qed.

(** A well-formed record stays well-formed under [update_status]. *)
Lemma validate_after_update (id : string) (doc : gmap string (value F)) (t t' now : Z)
    (status : PredictionStatus) (lbl : option Label) (conf : option F)
    (probs : option (gmap string F)) (notes : option string) :
  is_Ok (Prediction_validate id doc t) = true ->
  is_Ok (Prediction_validate id (status_updates status now lbl conf probs notes ∪ doc) t')
    = true.
Proof.
  rewrite !validate_is_Ok. intros Hv.
  repeat (apply andb_true_iff in Hv as [Hv ?]).
  set (after := status_updates status now lbl conf probs notes ∪ doc).
  assert (Hother : forall k, k ∉ status_keys -> after !! k = doc !! k).
  { intros k Hk. unfold after. rewrite set_lookup, status_updates_other by exact Hk.
    reflexivity. }
  assert (Hkey : forall k, after !! k =
            match status_updates status now lbl conf probs notes !! k with
            | Some v => Some v
            | None => doc !! k
            end) by (intros k; apply set_lookup).
  repeat (apply andb_true_iff; split).
  - unfold required_str in *. rewrite Hother; [assumption | other_key].
  - unfold required_str in *. rewrite Hother; [assumption | other_key].
  - unfold required_int in *. rewrite Hother; [assumption | other_key].
  - unfold required_str in *. rewrite Hother; [assumption | other_key].
  - unfold status_field. rewrite Hkey, status_updates_lookup; repeat (case_decide; try congruence); cbn.
    rewrite PredictionStatus_of_value_value. reflexivity.
  - unfold label_field in *. rewrite Hkey, status_updates_lookup; repeat (case_decide; try congruence); cbn.
    destruct lbl as [l|]; cbn; [rewrite Label_of_value_value; reflexivity | assumption].
  - unfold optional_float in *. rewrite Hkey, status_updates_lookup; repeat (case_decide; try congruence); cbn.
    destruct conf; cbn; [reflexivity | assumption].
  - unfold optional_dict in *. rewrite Hkey, status_updates_lookup; repeat (case_decide; try congruence); cbn.
    destruct probs; cbn; [reflexivity | assumption].
  - rewrite (datetime_field_is_Ok _ _ t' t). unfold datetime_field in *.
    rewrite Hother; [assumption | other_key].
  - unfold datetime_field. rewrite Hkey, status_updates_lookup; repeat (case_decide; try congruence); cbn. reflexivity.
  - unfold optional_str in *. rewrite Hother; [assumption | other_key].
  - unfold optional_str in *. rewrite Hkey, status_updates_lookup; repeat (case_decide; try congruence); cbn.
    destruct notes; cbn; [reflexivity | assumption].
Qed.

(** [update_status] on a well-formed stored record returns the updated
    record. *)
Lemma update_status_stored (prediction_id oid : string) (doc : gmap string (value F))
    (status : PredictionStatus) (lbl : option Label) (conf : option F)
    (probs : option (gmap string F)) (notes : option string) (w : World F) :
  ObjectId prediction_id = Some oid ->
  documents w !! oid = Some doc ->
  is_Ok (Prediction_validate oid doc 0) = true ->
  exists p,
    update_status prediction_id status lbl conf probs notes w =
      (Ok (Some p),
       set_documents
         (<[oid := status_updates status (bson_datetime (clock w)) lbl conf probs notes ∪ doc]>
            (documents w))
         (set_clock (clock w + 1) w)).
Proof.
  intros Hoid Hdoc Hvalid. rewrite update_status_eval, Hoid, Hdoc. cbn zeta.
  pose proof (validate_after_update oid doc 0 (clock w + 1) (bson_datetime (clock w))
                status lbl conf probs notes Hvalid) as Hafter.
  destruct (Prediction_validate oid _ (clock w + 1)) as [p|e]; [|discriminate Hafter].
  exists p. reflexivity.
Qed.

End Pipeline.

Section Coroutine.
Context {F : Type} {NP : NumPy F} {RT : Runtime F}.

(** What the coroutine leaves behind, by the outcome of the [try] body
    up to the inference result. *)
Lemma process_prediction_terminal {S} {SO : SettingsObject S} (settings : S)
    (prediction_id oid audio_path : string) (doc : gmap string (value F)) (w : World F) :
  ObjectId prediction_id = Some oid ->
  documents w !! oid = Some doc ->
  is_Ok (Prediction_validate oid doc 0) = true ->
  exists w' after,
    _process_prediction settings prediction_id audio_path w = (Ok tt, w') /\
    files w' = files w /\
    (forall other, other <> oid -> documents w' !! other = documents w !! other) /\
    documents w' !! oid = Some after /\
    terminal_status doc after (run_inference settings audio_path w).1.
Proof.
  intros Hoid Hdoc Hvalid.
  pose proof (keeps_run_inference settings audio_path w) as (Hd & Hf & Hc & _ & _).
  unfold _process_prediction, try_finally, try_except.
  rewrite M_bind_unfold.
  destruct (run_inference settings audio_path w) as [[res|exc] w1]; cbn [fst snd] in *.
  - rewrite <- Hd in Hdoc.
    destruct (update_status_stored prediction_id oid doc COMPLETED
                (Some (label res)) (Some (confidence res)) (Some (probabilities res)) None
                w1 Hoid Hdoc Hvalid) as (p & Hup).
    rewrite M_bind_unfold, Hup. cbn [mret M_ret].
    eexists. eexists. split; [reflexivity|].
    cbn [files documents set_documents set_clock terminal_status].
    unfold completed_with.
    split_and!.
    + exact Hf.
    + intros other Hne. rewrite lookup_insert_ne by congruence. rewrite Hd. reflexivity.
    + apply lookup_insert_eq.
    + after_key.
    + after_key.
    + after_key.
    + after_key.
    + after_key.
  - rewrite <- Hd in Hdoc.
    destruct (update_status_stored prediction_id oid doc FAILED
                None None None (Some (str_exc exc)) w1 Hoid Hdoc Hvalid) as (p & Hup).
    rewrite M_bind_unfold, Hup. cbn [mret M_ret].
    eexists. eexists. split; [reflexivity|].
    cbn [files documents set_documents set_clock terminal_status].
    unfold failed_with.
    split_and!.
    + exact Hf.
    + intros other Hne. rewrite lookup_insert_ne by congruence. rewrite Hd. reflexivity.
    + apply lookup_insert_eq.
    + after_key.
    + after_key.
    + after_key.
    + after_key.
    + after_key.
Qed.

(** The service [get_inference_service] returns says which branch of
    line 95 is taken. *)
Lemma get_inference_service_branch {S} {SO : SettingsObject S} (settings : S)
    (w w1 : World F) (service : backend) :
  get_inference_service settings w = (Ok service, w1) ->
  model_type_is_pytorch settings =
    Ok (match service with PYTORCH => true | ONNX => false end).
Proof.
  unfold get_inference_service. rewrite M_bind_unfold. unfold lift at 1.
  destruct (model_type_is_pytorch settings) as [[|]|e]; [|intros H|discriminate].
  2:{ injection H as <- _. reflexivity. }
  rewrite M_bind_unfold. unfold ask at 1.
  destruct (import_pytorch_inference w); [|discriminate].
  unfold get_pytorch_inference_service. rewrite M_bind_unfold. cbn [get_world].
  destruct (pytorch_inference_service w).
  - intros H. injection H as <- _. reflexivity.
  - rewrite M_bind_unfold.
    destruct (new_PyTorchAudioInferenceService settings w) as [[svc|e] w2]; [|discriminate].
    rewrite M_bind_unfold. cbn [modify mret M_ret].
    intros H. injection H as <- _. reflexivity.
Qed.

(** The outcome of the pipeline, step by step: the first step that
    raises decides it, and otherwise it is what [predict] returns, on
    the raw clip for the PyTorch service and on its features for the
    ONNX service. *)
Lemma run_inference_outcome {S} {SO : SettingsObject S} (settings : S)
    (audio_path : string) (w : World F) :
  (run_inference settings audio_path w).1 =
    match get_inference_service settings w with
    | (Raise exc, _) => Raise exc
    | (Ok service, w1) =>
        match librosa_load w1 audio_path DEFAULT_SAMPLE_RATE with
        | Raise exc => Raise exc
        | Ok raw =>
            let waveform := fit_length raw DEFAULT_SAMPLE_RATE in
            match service with
            | PYTORCH => (predict PYTORCH (Arr1 waveform) w1).1
            | ONNX =>
                match mel_spectrogram waveform with
                | Raise exc => Raise exc
                | Ok features => (predict ONNX (Arr2 features) w1).1
                end
            end
        end
    end.
Proof.
  unfold run_inference. rewrite M_bind_unfold.
  destruct (get_inference_service settings w) as [[service|exc] w1] eqn:Hsvc;
    [|reflexivity].
  apply get_inference_service_branch in Hsvc.
  rewrite M_bind_unfold. unfold load_waveform. rewrite M_bind_unfold. unfold ask at 1.
  destruct (librosa_load w1 audio_path DEFAULT_SAMPLE_RATE) as [raw|exc]; [|reflexivity].
  cbn [mret M_ret]. cbn zeta.
  set (waveform := fit_length raw DEFAULT_SAMPLE_RATE). clearbody waveform.
  rewrite M_bind_unfold. unfold lift at 1. rewrite Hsvc.
  destruct service; cbn iota.
  - rewrite M_bind_unfold. unfold extract_mel_spectrogram, lift at 1.
    destruct (mel_spectrogram waveform) as [features|exc]; reflexivity.
  - reflexivity.
Qed.

(** C3: when the prediction record exists and is well-formed, the
    coroutine returns normally and leaves the record in one terminal
    status, decided step by step.  If service selection raises, or then
    reading the waveform, or then (for the ONNX service) feature
    extraction, or then [predict], the record is failed, with notes the
    string of that exception; only when every step returned is it
    completed, with the label, confidence and probabilities that
    [predict] returned, on the fitted raw clip for the PyTorch service
    and on its features for the ONNX service.  Either way the stored
    files are as before and no other record changed. *)
Theorem C3_terminal_status {S} {SO : SettingsObject S} (settings : S)
    (prediction_id oid audio_path : string) (doc : gmap string (value F)) (w : World F) :
  ObjectId prediction_id = Some oid ->
  documents w !! oid = Some doc ->
  is_Ok (Prediction_validate oid doc 0) = true ->
  exists w' after,
    _process_prediction settings prediction_id audio_path w = (Ok tt, w') /\
    files w' = files w /\
    (forall other, other <> oid -> documents w' !! other = documents w !! other) /\
    documents w' !! oid = Some after /\
    match get_inference_service settings w with
    | (Raise exc, _) => failed_with doc after exc
    | (Ok service, w1) =>
        match librosa_load w1 audio_path DEFAULT_SAMPLE_RATE with
        | Raise exc => failed_with doc after exc
        | Ok raw =>
            let waveform := fit_length raw DEFAULT_SAMPLE_RATE in
            match service with
            | PYTORCH => terminal_status doc after (predict PYTORCH (Arr1 waveform) w1).1
            | ONNX =>
                match mel_spectrogram waveform with
                | Raise exc => failed_with doc after exc
                | Ok features =>
                    terminal_status doc after (predict ONNX (Arr2 features) w1).1
                end
            end
        end
    end.
Proof.
  intros Hoid Hdoc Hvalid.
  destruct (process_prediction_terminal settings prediction_id oid audio_path doc w
              Hoid Hdoc Hvalid) as (w' & after & Hrun & Hfiles & Hothers & Hafter & Hterm).
  exists w', after. split_and!; try assumption.
  rewrite run_inference_outcome in Hterm.
  destruct (get_inference_service settings w) as [[service|exc] w1]; [|exact Hterm].
  destruct (librosa_load w1 audio_path DEFAULT_SAMPLE_RATE) as [raw|exc]; [|exact Hterm].
  cbn zeta in *.
  destruct service; [|exact Hterm].
  destruct (mel_spectrogram (fit_length raw DEFAULT_SAMPLE_RATE)) as [features|exc];
    exact Hterm.
Qed.

(** ** C1: selecting the service *)

(** [Settings] declares no [model_type]: reading it raises. *)
Lemma Settings_has_no_model_type (s : Settings) :
  getattr s "model_type" = Raise (attribute_error "Settings" "model_type").
Proof. reflexivity. Qed.

Lemma Settings_has_no_icbhi_path (s : Settings) :
  getattr s "icbhi_path" = Raise (attribute_error "Settings" "icbhi_path").
Proof. reflexivity. Qed.

(** C1 at the configurations the code can have: for every [Settings]
    value, [get_inference_service] raises [AttributeError] and returns
    neither service, and the pipeline makes no call to a backend. *)
Theorem C1_no_service_selected (s : Settings) (audio_path : string) (w : World F) :
  get_inference_service s w = (Raise (attribute_error "Settings" "model_type"), w) /\
  run_inference s audio_path w = (Raise (attribute_error "Settings" "model_type"), w) /\
  log (run_inference s audio_path w).2 = log w.
Proof. split_and!; reflexivity. Qed.

End Coroutine.

(** ** What the dispatch does when the settings object has a [model_type]

    [Settings] has none; these lemmas are about settings objects that do,
    such as [onnx_table] and [pytorch_table]. *)

Section Dispatch.
Context {F : Type} {NP : NumPy F} {RT : Runtime F}.
Context {S : Type} {SO : SettingsObject S}.

Lemma model_type_is_pytorch_str (settings : S) (m : string) :
  getattr settings "model_type" = Ok (AStr m) ->
  model_type_is_pytorch settings = Ok (String.eqb (str_lower m) "pytorch").
Proof. intros Hm. unfold model_type_is_pytorch. rewrite Hm. reflexivity. Qed.

(** Not "pytorch" after lowercasing: the global ONNX service. *)
Lemma get_inference_service_onnx (settings : S) (m : string) (w : World F) :
  getattr settings "model_type" = Ok (AStr m) ->
  str_lower m <> "pytorch" ->
  get_inference_service settings w = (Ok ONNX, w).
Proof.
  intros Hm Hne. unfold get_inference_service. rewrite M_bind_unfold.
  unfold lift. rewrite (model_type_is_pytorch_str settings m Hm).
  destruct (String.eqb_spec (str_lower m) "pytorch") as [Heq|_]; [contradiction|].
  reflexivity.
Qed.

(** "pytorch" after lowercasing: the global PyTorch service, made on
    first use from [settings.model_path] and [settings.icbhi_path]. *)
Lemma get_inference_service_pytorch (settings : S) (m : string) (w : World F) :
  getattr settings "model_type" = Ok (AStr m) ->
  str_lower m = "pytorch" ->
  import_pytorch_inference w = Ok tt ->
  match pytorch_inference_service w with
  | Some _ => get_inference_service settings w = (Ok PYTORCH, w)
  | None =>
      forall mp ip,
        getattr settings "model_path" = Ok mp ->
        getattr settings "icbhi_path" = Ok ip ->
        get_inference_service settings w =
          (Ok PYTORCH,
           set_pytorch_inference_service
             (Some {| pt_model_path := mp; pt_icbhi_path := ip; _model := None;
                      _classifier := None; _model_info := None |}) w)
  end.
Proof.
  intros Hm Heq Himport. unfold get_inference_service. rewrite M_bind_unfold.
  unfold lift. rewrite (model_type_is_pytorch_str settings m Hm), Heq.
  rewrite String.eqb_refl.
  rewrite M_bind_unfold. unfold ask. rewrite Himport.
  unfold get_pytorch_inference_service. rewrite M_bind_unfold. cbn [get_world].
  destruct (pytorch_inference_service w) as [svc|]; [reflexivity|].
  intros mp ip Hmp Hip. rewrite M_bind_unfold.
  unfold new_PyTorchAudioInferenceService. rewrite M_bind_unfold. unfold lift at 1.
  rewrite Hmp. rewrite M_bind_unfold. unfold lift at 1. rewrite Hip.
  reflexivity.
Qed.

(** Which service is returned says what [model_type] was. *)
Lemma get_inference_service_returns (settings : S) (w w' : World F) (b : backend) :
  get_inference_service settings w = (Ok b, w') ->
  exists m, getattr settings "model_type" = Ok (AStr m) /\
            (b = PYTORCH <-> str_lower m = "pytorch").
Proof.
  unfold get_inference_service. rewrite M_bind_unfold. unfold lift.
  unfold model_type_is_pytorch.
  destruct (getattr settings "model_type") as [[| m | | |]|e]; try discriminate.
  cbn [mbind result_bind attr_lower]. intros Hr. exists m. split; [reflexivity|].
  destruct (String.eqb_spec (str_lower m) "pytorch") as [Heq|Hne].
  - split; [intros _; exact Heq|]. intros _.
    rewrite M_bind_unfold in Hr. unfold ask in Hr.
    destruct (import_pytorch_inference w); [|discriminate Hr].
    unfold get_pytorch_inference_service in Hr. rewrite M_bind_unfold in Hr.
    cbn [get_world] in Hr.
    destruct (pytorch_inference_service w).
    + injection Hr as <- _. reflexivity.
    + rewrite M_bind_unfold in Hr.
      destruct (new_PyTorchAudioInferenceService settings w) as [[svc|e] w1];
        [|discriminate Hr].
      injection Hr as <- _. reflexivity.
  - injection Hr as <- _. split; [discriminate | contradiction].
Qed.

End Dispatch.

(** ** Which backend the pipeline calls, and with what *)

Section Calls.
Context {F : Type} {NP : NumPy F} {RT : Runtime F}.

Lemma quiet_same_log {A} (m : M F A) :
  (forall w, log (m w).2 = log w) -> calls_no_backend m.
Proof.
  intros Hm w. exists []. split; [rewrite app_nil_r; apply Hm | constructor].
Qed.

Lemma quiet_ret {A} (a : A) : calls_no_backend (mret a : M F A).
Proof. apply quiet_same_log. reflexivity. Qed.

Lemma quiet_raise {A} (e : exn) : calls_no_backend (raise e : M F A).
Proof. apply quiet_same_log. reflexivity. Qed.

Lemma quiet_lift {A} (r : result A) : calls_no_backend (lift r : M F A).
Proof. apply quiet_same_log. reflexivity. Qed.

Lemma quiet_ask {A} (f : World F -> result A) : calls_no_backend (ask f).
Proof. apply quiet_same_log. reflexivity. Qed.

Lemma quiet_get_world : calls_no_backend (get_world : M F (World F)).
Proof. apply quiet_same_log. reflexivity. Qed.

Lemma quiet_then (w1 w2 w3 : World F) :
  (exists r1, log w2 = (log w1 ++ r1)%list /\ no_predict_call r1) ->
  (exists r2, log w3 = (log w2 ++ r2)%list /\ no_predict_call r2) ->
  exists r, log w3 = (log w1 ++ r)%list /\ no_predict_call r.
Proof.
  intros (r1 & H1 & Q1) (r2 & H2 & Q2). exists (r1 ++ r2)%list. split.
  - rewrite H2, H1, app_assoc. reflexivity.
  - apply Forall_app. split; assumption.
Qed.

Lemma quiet_bind {A B} (m : M F A) (f : A -> M F B) :
  calls_no_backend m -> (forall a, calls_no_backend (f a)) -> calls_no_backend (m ≫= f).
Proof.
  intros Hm Hf w. rewrite M_bind_unfold. specialize (Hm w).
  destruct (m w) as [[a|e] w1]; cbn [snd] in *; [|exact Hm].
  eapply quiet_then; [exact Hm | apply Hf].
Qed.

Lemma quiet_try_except {A} (body : M F A) (handler : exn -> M F A) :
  calls_no_backend body -> (forall e, calls_no_backend (handler e)) ->
  calls_no_backend (try_except body handler).
Proof.
  intros Hb Hh w. unfold try_except. specialize (Hb w).
  destruct (body w) as [[a|e] w1]; cbn [snd] in *; [exact Hb|].
  eapply quiet_then; [exact Hb | apply Hh].
Qed.

Lemma quiet_try_finally {A} (body : M F A) (fin : M F unit) :
  calls_no_backend body -> calls_no_backend fin -> calls_no_backend (try_finally body fin).
Proof.
  intros Hb Hf w. unfold try_finally. specialize (Hb w).
  destruct (body w) as [r w1]. cbn [snd] in Hb. specialize (Hf w1).
  destruct (fin w1) as [[u|e] w2]; cbn [snd] in *; eapply quiet_then; eassumption.
Qed.

Lemma quiet_emit (e : event F) : is_predict_call e = false -> calls_no_backend (emit e).
Proof.
  intros He w. exists [e]. split; [reflexivity|]. constructor; [exact He | constructor].
Qed.

Lemma quiet_set_service (s : AudioInferenceService) :
  calls_no_backend (modify (set_inference_service (F := F) s)).
Proof. apply quiet_same_log. reflexivity. Qed.

Lemma quiet_set_pytorch (s : option PyTorchAudioInferenceService) :
  calls_no_backend (modify (set_pytorch_inference_service (F := F) s)).
Proof. apply quiet_same_log. reflexivity. Qed.

Lemma quiet_set_pt (f : PyTorchAudioInferenceService -> PyTorchAudioInferenceService) :
  calls_no_backend (set_pt (F := F) f).
Proof. apply quiet_same_log. reflexivity. Qed.

Lemma quiet_set_sys_path (p : list string) :
  calls_no_backend (modify (set_sys_path (F := F) p)).
Proof. apply quiet_same_log. reflexivity. Qed.

Lemma quiet_set_cwd (p : string) : calls_no_backend (modify (set_cwd (F := F) p)).
Proof. apply quiet_same_log. reflexivity. Qed.

Lemma quiet_session_created (s : nat) : calls_no_backend (emit (EvSessionCreated (F := F) s)).
Proof. apply quiet_emit. reflexivity. Qed.

Lemma quiet_model_loaded (m c : nat) : calls_no_backend (emit (EvModelLoaded (F := F) m c)).
Proof. apply quiet_emit. reflexivity. Qed.

Lemma quiet_with_icbhi_on_path (icbhi_path : string) :
  calls_no_backend (modify (with_icbhi_on_path (F := F) icbhi_path)).
Proof.
  apply quiet_same_log. intros w. cbn [modify snd]. unfold with_icbhi_on_path.
  destruct (bool_decide _); reflexivity.
Qed.

Create HintDb quiet discriminated.

Hint Resolve quiet_with_icbhi_on_path quiet_ret quiet_raise quiet_lift quiet_ask quiet_get_world quiet_set_service
  quiet_set_pytorch quiet_set_pt quiet_set_sys_path quiet_set_cwd quiet_session_created
  quiet_model_loaded : quiet.

Ltac quiet_step :=
  match goal with
  | |- calls_no_backend (_ ≫= _) => apply quiet_bind; [|intros ?]
  | |- calls_no_backend (try_except _ _) => apply quiet_try_except; [|intros ?]
  | |- calls_no_backend (try_finally _ _) => apply quiet_try_finally
  | |- calls_no_backend (match ?x with _ => _ end) => destruct x
  | |- calls_no_backend (if ?b then _ else _) => destruct b
  | |- calls_no_backend _ => solve [auto with quiet]
  end.

Lemma quiet_chdir (p : string) : calls_no_backend (chdir p).
Proof. unfold chdir. repeat quiet_step. Qed.

Hint Resolve quiet_chdir : quiet.

Lemma quiet_load_waveform (path : string) (sample_rate : Z) :
  calls_no_backend (load_waveform path sample_rate).
Proof. unfold load_waveform. repeat quiet_step. Qed.

Lemma quiet_onnx_load : calls_no_backend onnx_load.
Proof. unfold onnx_load. repeat quiet_step. Qed.

Lemma quiet_import_and_build (checkpoint : Checkpoint) (model_type : option string)
    (icbhi_path_str original_cwd : string) :
  calls_no_backend (import_and_build checkpoint model_type icbhi_path_str original_cwd).
Proof. unfold import_and_build. repeat quiet_step. Qed.

Hint Resolve quiet_onnx_load quiet_import_and_build : quiet.

Lemma quiet_load_model_with_wrapper (checkpoint_path : string) (icbhi_path : attr)
    (use_icbhi_import : bool) :
  calls_no_backend (load_model_with_wrapper checkpoint_path icbhi_path use_icbhi_import).
Proof. unfold load_model_with_wrapper. repeat quiet_step. Qed.

Lemma quiet_pt_self : calls_no_backend (pt_self (F := F)).
Proof. unfold pt_self. repeat quiet_step. Qed.

Hint Resolve quiet_load_model_with_wrapper quiet_pt_self : quiet.

Lemma quiet_pytorch_load : calls_no_backend pytorch_load.
Proof. unfold pytorch_load. repeat quiet_step. Qed.

Hint Resolve quiet_pytorch_load : quiet.

Lemma quiet_get_inference_service {S} {SO : SettingsObject S} (settings : S) :
  calls_no_backend (get_inference_service settings).
Proof.
  unfold get_inference_service, get_pytorch_inference_service,
    new_PyTorchAudioInferenceService.
  repeat quiet_step.
Qed.

(** A call of [predict] is logged first; what it does after makes no
    further call. *)
Lemma call_then_quiet {A} (e : event F) (k : M F A) (w : World F) :
  calls_no_backend k ->
  exists rest, log ((emit e ≫= fun _ => k) w).2 = (log w ++ e :: rest)%list /\
               no_predict_call rest.
Proof.
  intros Hk. rewrite M_bind_unfold. cbn [emit modify].
  destruct (Hk (set_log (log w ++ [e]) w)) as (rest & Hlog & Hq).
  exists rest. split; [|exact Hq].
  rewrite Hlog. cbn [log set_log]. rewrite <- app_assoc. reflexivity.
Qed.

Lemma onnx_predict_calls (x : array F) (w : World F) :
  exists rest, log (onnx_predict x w).2 = (log w ++ EvPredict ONNX x :: rest)%list /\
               no_predict_call rest.
Proof. unfold onnx_predict. apply call_then_quiet. repeat quiet_step. Qed.

Lemma pytorch_predict_calls (x : array F) (w : World F) :
  exists rest, log (pytorch_predict x w).2 = (log w ++ EvPredict PYTORCH x :: rest)%list /\
               no_predict_call rest.
Proof. unfold pytorch_predict. apply call_then_quiet. repeat quiet_step. Qed.

Lemma predict_calls (service : backend) (x : array F) (w : World F) :
  exists rest, log (predict service x w).2 = (log w ++ EvPredict service x :: rest)%list /\
               no_predict_call rest.
Proof. destruct service; [apply onnx_predict_calls | apply pytorch_predict_calls]. Qed.

(** With a [model_type] that is not "pytorch", the one backend call of
    the pipeline is to the ONNX service, with the mel-spectrogram
    features of the fitted waveform. *)
Lemma pipeline_calls_onnx {S} {SO : SettingsObject S} (settings : S) (m audio_path : string)
    (w : World F) (raw : list F) (features : list (list F)) :
  getattr settings "model_type" = Ok (AStr m) ->
  str_lower m <> "pytorch" ->
  librosa_load w audio_path DEFAULT_SAMPLE_RATE = Ok raw ->
  mel_spectrogram (fit_length raw DEFAULT_SAMPLE_RATE) = Ok features ->
  exists rest,
    log (run_inference settings audio_path w).2
      = (log w ++ EvPredict ONNX (Arr2 features) :: rest)%list /\
    no_predict_call rest.
Proof.
  intros Hm Hne Hraw Hmel. unfold run_inference.
  rewrite M_bind_unfold, (get_inference_service_onnx settings m w Hm Hne).
  rewrite M_bind_unfold. unfold load_waveform. rewrite M_bind_unfold. unfold ask.
  rewrite Hraw. cbn [mret M_ret].
  rewrite M_bind_unfold. unfold lift at 1. rewrite (model_type_is_pytorch_str settings m Hm).
  destruct (String.eqb_spec (str_lower m) "pytorch") as [Heq|_]; [contradiction|].
  rewrite M_bind_unfold. unfold extract_mel_spectrogram, lift. rewrite Hmel.
  apply predict_calls.
Qed.

(** With a [model_type] that is "pytorch" after lowercasing, the one
    backend call is to the PyTorch service, with the fitted raw
    waveform. *)
Lemma pipeline_calls_pytorch {S} {SO : SettingsObject S} (settings : S)
    (m audio_path : string) (w w1 : World F) (raw : list F) :
  getattr settings "model_type" = Ok (AStr m) ->
  str_lower m = "pytorch" ->
  get_inference_service settings w = (Ok PYTORCH, w1) ->
  librosa_load w1 audio_path DEFAULT_SAMPLE_RATE = Ok raw ->
  exists rest,
    log (run_inference settings audio_path w).2
      = (log w ++ EvPredict PYTORCH (Arr1 (fit_length raw DEFAULT_SAMPLE_RATE)) :: rest)%list /\
    no_predict_call rest.
Proof.
  intros Hm Heq Hsvc Hraw. unfold run_inference.
  destruct (quiet_get_inference_service settings w) as (r0 & Hlog0 & Hq0).
  rewrite Hsvc in Hlog0. cbn [snd] in Hlog0.
  rewrite M_bind_unfold, Hsvc.
  rewrite M_bind_unfold. unfold load_waveform. rewrite M_bind_unfold. unfold ask.
  rewrite Hraw. cbn [mret M_ret].
  rewrite M_bind_unfold. unfold lift at 1. rewrite (model_type_is_pytorch_str settings m Hm).
  rewrite Heq, String.eqb_refl.
  destruct (predict_calls PYTORCH (Arr1 (fit_length raw DEFAULT_SAMPLE_RATE)) w1)
    as (rest & Hlog & Hq).
  assert (Hr0 : r0 = []).
  { clear - Hsvc Hm Heq Hlog0.
    apply get_inference_service_returns in Hsvc as Hret.
    unfold get_inference_service in Hsvc. rewrite M_bind_unfold in Hsvc.
    unfold lift in Hsvc. rewrite (model_type_is_pytorch_str settings m Hm) in Hsvc.
    rewrite Heq, String.eqb_refl in Hsvc. rewrite M_bind_unfold in Hsvc.
    unfold ask in Hsvc. destruct (import_pytorch_inference w); [|discriminate Hsvc].
    unfold get_pytorch_inference_service in Hsvc. rewrite M_bind_unfold in Hsvc.
    cbn [get_world] in Hsvc.
    assert (Hsame : log w1 = log w).
    { destruct (pytorch_inference_service w).
      - injection Hsvc as <-. reflexivity.
      - rewrite M_bind_unfold in Hsvc. unfold new_PyTorchAudioInferenceService in Hsvc.
        rewrite M_bind_unfold in Hsvc. unfold lift at 1 in Hsvc.
        destruct (getattr settings "model_path"); [|discriminate Hsvc].
        rewrite M_bind_unfold in Hsvc. unfold lift at 1 in Hsvc.
        destruct (getattr settings "icbhi_path"); [|discriminate Hsvc].
        injection Hsvc as <-. reflexivity. }
    rewrite Hsame in Hlog0.
    rewrite <- (app_nil_r (log w)) in Hlog0 at 1.
    apply app_inv_head in Hlog0. congruence. }
  subst r0. rewrite app_nil_r in Hlog0.
  exists rest. split; [|exact Hq]. rewrite Hlog, Hlog0. reflexivity.
Qed.

End Calls.
(** ** C6: [load_model_with_wrapper] *)

Section Loader.
Context {F : Type} {NP : NumPy F} {RT : Runtime F}.

(** When the test of line 112 is true, and when it raises. *)
Lemma import_guard_true (icbhi_path : attr) (use_icbhi_import : bool) (w : World F) :
  import_guard icbhi_path use_icbhi_import w = Ok true <->
  use_icbhi_import = true /\ truthy icbhi_path = true /\
  icbhi_exists icbhi_path w = Ok true.
Proof.
  unfold import_guard.
  destruct use_icbhi_import, (truthy icbhi_path); cbn [andb]; split;
    try (intros H; discriminate H);
    try (intros (H1 & H2 & H3); discriminate H1 || discriminate H2);
    try (intros H; split_and!; [reflexivity | reflexivity | exact H]);
    intros (_ & _ & H); exact H.
Qed.

Lemma import_guard_raises (icbhi_path : attr) (use_icbhi_import : bool) (w : World F)
    (e : exn) :
  import_guard icbhi_path use_icbhi_import w = Raise e <->
  use_icbhi_import = true /\ truthy icbhi_path = true /\
  icbhi_exists icbhi_path w = Raise e.
Proof.
  unfold import_guard.
  destruct use_icbhi_import, (truthy icbhi_path); cbn [andb]; split;
    try (intros H; discriminate H);
    try (intros (H1 & H2 & H3); discriminate H1 || discriminate H2);
    try (intros H; split_and!; [reflexivity | reflexivity | exact H]);
    intros (_ & _ & H); exact H.
Qed.

(** [load_model_with_wrapper], evaluated. *)
Lemma load_model_with_wrapper_eval (checkpoint_path : string) (icbhi_path : attr)
    (use_icbhi_import : bool) (w : World F) :
  load_model_with_wrapper checkpoint_path icbhi_path use_icbhi_import w =
    match torch_load w checkpoint_path ≫= checkpoint_get with
    | Raise e => (Raise e, w)
    | Ok checkpoint =>
        match import_guard icbhi_path use_icbhi_import w with
        | Raise e => (Raise e, w)
        | Ok false =>
            (Raise (Exn RuntimeError
                      ("Cannot load model without ICBHI_2017 architecture. "
                       +:+ "Please ensure ICBHI_2017 directory is accessible or provide icbhi_path.")),
             w)
        | Ok true =>
            match icbhi_absolute icbhi_path w with
            | Raise e => (Raise e, w)
            | Ok icbhi_path_str =>
                let w1 := with_icbhi_on_path icbhi_path_str w in
                let model_type := match ckpt_args checkpoint with
                                  | Some a => args_model a
                                  | None => None
                                  end in
                match import_and_build checkpoint model_type icbhi_path_str (cwd w1) w1 with
                | (Ok mc, w2) => (Ok mc, w2)
                | (Raise e, w2) =>
                    (Raise (Exn RuntimeError
                              ("Failed to load PyTorch model from " +:+ checkpoint_path +:+ ": "
                               +:+ ("Could not import from ICBHI_2017: " +:+ str_exc e
                                    +:+ format_exc e)
                               +:+ "Make sure ICBHI_2017 directory is accessible at "
                               +:+ attr_str icbhi_path)), w2)
                end
            end
        end
    end.
Proof.
  unfold load_model_with_wrapper. rewrite M_bind_unfold. unfold ask at 1.
  destruct (torch_load w checkpoint_path) as [loaded|e]; [|reflexivity].
  cbn [mbind result_bind].
  rewrite M_bind_unfold. unfold lift at 1.
  destruct (checkpoint_get loaded) as [checkpoint|e]; [|reflexivity].
  rewrite M_bind_unfold. unfold ask at 1.
  destruct (import_guard icbhi_path use_icbhi_import w) as [[|]|e]; [|reflexivity|reflexivity].
  rewrite M_bind_unfold. unfold ask at 1.
  destruct (icbhi_absolute icbhi_path w) as [icbhi_path_str|e]; [|reflexivity].
  cbn zeta. rewrite M_bind_unfold. cbn [modify].
  unfold try_except. rewrite M_bind_unfold. cbn [get_world].
  match goal with
  | |- context [import_and_build ?c ?m ?p ?o ?w'] =>
      destruct (import_and_build c m p o w') as [[mc|e] w2]; reflexivity
  end.
Qed.

(** C6, amended: a pair is returned only when [use_icbhi_import] is
    true, [icbhi_path] is given, the directory exists, and the import and
    the loading of the states succeed; once [torch.load] has returned a
    checkpoint dictionary, a missing or absent [icbhi_path] or a false
    [use_icbhi_import] raises [RuntimeError], and so does every failure
    inside the [try] block of the import branch.  The statements before
    the [try] block are not covered by it: what [torch.load] raises,
    the [AttributeError] of [checkpoint.get] on a pickled object that is
    no dictionary, the [TypeError] of [Path(icbhi_path)] on a value that
    is neither a string nor a path, and what [Path.exists] or
    [Path.absolute] raise come out unchanged, with nothing done; nothing
    else comes out. *)
Theorem C6_pair_or_RuntimeError (checkpoint_path : string) (icbhi_path : attr)
    (use_icbhi_import : bool) (w : World F) :
  let run := load_model_with_wrapper checkpoint_path icbhi_path use_icbhi_import w in
  let model_type (checkpoint : Checkpoint) :=
    match ckpt_args checkpoint with
    | Some a => args_model a
    | None => None
    end in
  let branch (checkpoint : Checkpoint) (icbhi_path_str : string) :=
    let w1 := with_icbhi_on_path icbhi_path_str w in
    import_and_build checkpoint (model_type checkpoint) icbhi_path_str (cwd w1) w1 in
  (forall mc w', run = (Ok mc, w') ->
     use_icbhi_import = true /\ truthy icbhi_path = true /\
     icbhi_exists icbhi_path w = Ok true /\
     exists checkpoint icbhi_path_str,
       torch_load w checkpoint_path = Ok (PickledDict checkpoint) /\
       icbhi_absolute icbhi_path w = Ok icbhi_path_str /\
       branch checkpoint icbhi_path_str = (Ok mc, w')) /\
  (forall checkpoint,
     torch_load w checkpoint_path = Ok (PickledDict checkpoint) ->
     use_icbhi_import = false \/ truthy icbhi_path = false \/
     icbhi_exists icbhi_path w = Ok false ->
     exists msg, run = (Raise (Exn RuntimeError msg), w)) /\
  (forall checkpoint icbhi_path_str e w',
     torch_load w checkpoint_path = Ok (PickledDict checkpoint) ->
     import_guard icbhi_path use_icbhi_import w = Ok true ->
     icbhi_absolute icbhi_path w = Ok icbhi_path_str ->
     branch checkpoint icbhi_path_str = (Raise e, w') ->
     exists msg, run = (Raise (Exn RuntimeError msg), w')) /\
  (forall e w', run = (Raise e, w') ->
     exn_cls e = RuntimeError \/
     w' = w /\
     (torch_load w checkpoint_path = Raise e \/
      (exists type_name,
         torch_load w checkpoint_path = Ok (PickledObject type_name) /\
         e = attribute_error type_name "get") \/
      (use_icbhi_import = true /\ truthy icbhi_path = true /\
       icbhi_exists icbhi_path w = Raise e) \/
      (import_guard icbhi_path use_icbhi_import w = Ok true /\
       icbhi_absolute icbhi_path w = Raise e))).
Proof.
  cbn zeta. rewrite load_model_with_wrapper_eval.
  split_and!.
  - intros mc w' Hr.
    destruct (torch_load w checkpoint_path) as [[checkpoint|type_name]|e0];
      cbn [mbind result_bind checkpoint_get] in Hr; try discriminate Hr.
    destruct (import_guard icbhi_path use_icbhi_import w) as [[|]|e0] eqn:Hg;
      try discriminate Hr.
    apply import_guard_true in Hg as (Hu & Ht & He).
    destruct (icbhi_absolute icbhi_path w) as [icbhi_path_str|e0];
      [|discriminate Hr].
    cbn zeta in Hr.
    split_and!; try assumption.
    exists checkpoint, icbhi_path_str. split_and!; try reflexivity.
    match goal with
    | |- ?b = _ => destruct b as [[mc'|e'] w2]; [|discriminate Hr]
    end.
    injection Hr as -> ->. reflexivity.
  - intros checkpoint Hload Hno. rewrite Hload. cbn [mbind result_bind checkpoint_get].
    assert (Hg : import_guard icbhi_path use_icbhi_import w = Ok false).
    { unfold import_guard.
      destruct Hno as [-> | [-> | Hno]]; [reflexivity | rewrite andb_false_r; reflexivity |].
      destruct (use_icbhi_import && truthy icbhi_path); [exact Hno | reflexivity]. }
    rewrite Hg. eexists. reflexivity.
  - intros checkpoint icbhi_path_str e w' Hload Hg Habs Hb.
    rewrite Hload. cbn [mbind result_bind checkpoint_get].
    rewrite Hg, Habs. cbn zeta. rewrite Hb. eexists. reflexivity.
  - intros e w' Hr.
    destruct (torch_load w checkpoint_path) as [[checkpoint|type_name]|e0];
      cbn [mbind result_bind checkpoint_get] in Hr.
    + destruct (import_guard icbhi_path use_icbhi_import w) as [[|]|e0] eqn:Hg.
      * destruct (icbhi_absolute icbhi_path w) as [icbhi_path_str|e0].
        -- cbn zeta in Hr.
           match type of Hr with
           | match ?b with _ => _ end = _ => destruct b as [[mc'|e'] w2]
           end; [discriminate Hr|].
           injection Hr as <- _. left. reflexivity.
        -- injection Hr as <- <-. right. split; [reflexivity|].
           right. right. right. split; reflexivity.
      * injection Hr as <- _. left. reflexivity.
      * injection Hr as <- <-. right. split; [reflexivity|].
        right. right. left. apply import_guard_raises. exact Hg.
    + injection Hr as <- <-. right. split; [reflexivity|].
      right. left. exists type_name. split; reflexivity.
    + injection Hr as <- <-. right. split; [reflexivity|]. left. reflexivity.
Qed.

(** The ways out of [load_model_with_wrapper] that are neither a pair
    nor a [RuntimeError]: [torch.load] itself raising, and a pickled
    object without [get]. *)
Lemma load_model_with_wrapper_torch_load_raises (checkpoint_path : string)
    (icbhi_path : attr) (use_icbhi_import : bool) (w : World F) (e : exn) :
  torch_load w checkpoint_path = Raise e ->
  load_model_with_wrapper checkpoint_path icbhi_path use_icbhi_import w = (Raise e, w).
Proof. intros Hload. rewrite load_model_with_wrapper_eval, Hload. reflexivity. Qed.

Lemma load_model_with_wrapper_not_a_dict (checkpoint_path : string)
    (icbhi_path : attr) (use_icbhi_import : bool) (w : World F) (type_name : string) :
  torch_load w checkpoint_path = Ok (PickledObject type_name) ->
  load_model_with_wrapper checkpoint_path icbhi_path use_icbhi_import w
  = (Raise (attribute_error type_name "get"), w).
Proof. intros Hload. rewrite load_model_with_wrapper_eval, Hload. reflexivity. Qed.

End Loader.

(** C6, as stated, fails: with no [icbhi_path] and a checkpoint file
    that does not exist, what is raised is the [FileNotFoundError] of
    [torch.load], not a [RuntimeError]. *)
Lemma C6_missing_checkpoint_not_RuntimeError :
  load_model_with_wrapper (RT := demo_runtime) "best.pth" ANone true
    (initial_world default_Settings)
  = (Raise (Exn FileNotFoundError "best.pth"), initial_world default_Settings) /\
  exn_cls (Exn FileNotFoundError "best.pth") <> RuntimeError.
Proof. split; [reflexivity | discriminate]. Qed.

(** C6, amended, in a world where the checkpoint can be read: no
    [icbhi_path] and a false [use_icbhi_import] both raise [RuntimeError];
    with the directory in place the pair comes back. *)
Lemma C6_pair_or_RuntimeError_witness :
  (exists checkpoint,
     torch_load (Runtime := demo_runtime) checkpoint_world "best.pth"
     = Ok (PickledDict checkpoint)) /\
  (exists msg,
     load_model_with_wrapper (RT := demo_runtime) "best.pth" ANone true checkpoint_world
       = (Raise (Exn RuntimeError msg), checkpoint_world)) /\
  (exists msg,
     load_model_with_wrapper (RT := demo_runtime) "best.pth" (APath "ICBHI_2017") false
       checkpoint_world
       = (Raise (Exn RuntimeError msg), checkpoint_world)) /\
  (exists w',
     load_model_with_wrapper (RT := demo_runtime) "best.pth" (APath "ICBHI_2017") true
       checkpoint_world = (Ok (2, 3), w')).
Proof.
  split; [eexists; reflexivity|]. split_and!.
  - destruct (C6_pair_or_RuntimeError (RT := demo_runtime) "best.pth" ANone true
                checkpoint_world) as (_ & Hno & _ & _).
    eapply Hno; [reflexivity|]. right. left. reflexivity.
  - destruct (C6_pair_or_RuntimeError (RT := demo_runtime) "best.pth" (APath "ICBHI_2017")
                false checkpoint_world) as (_ & Hno & _ & _).
    eapply Hno; [reflexivity|]. left. reflexivity.
  - eexists. vm_compute. reflexivity.
Defined.

(** ** C7: lazy loading *)

Lemma lookup_insert_cases {A} (l : list A) (i j : nat) (q p : A) :
  <[i := q]> l !! j = Some p -> (j = i /\ p = q) \/ (j <> i /\ l !! j = Some p).
Proof.
  intros Hl. destruct (decide (j = i)) as [->|Hne].
  - left. split; [reflexivity|].
    destruct (decide (i < length l)) as [Hlt|Hge].
    + rewrite list_lookup_insert_eq in Hl by exact Hlt. congruence.
    + rewrite list_insert_ge in Hl by lia.
      apply lookup_lt_Some in Hl. lia.
  - right. split; [exact Hne|]. rewrite list_lookup_insert_ne in Hl by congruence. exact Hl.
Qed.

Lemma lookup_snoc_cases {A} (l : list A) (j : nat) (q p : A) :
  (l ++ [q])%list !! j = Some p -> l !! j = Some p \/ (j = length l /\ p = q).
Proof.
  intros Hl. destruct (decide (j < length l)) as [Hlt|Hge].
  - left. rewrite lookup_app_l in Hl by exact Hlt. exact Hl.
  - right. rewrite lookup_app_r in Hl by lia.
    destruct (j - length l) as [|k] eqn:Hk; simpl in Hl; [|destruct k; discriminate Hl].
    split; [lia | congruence].
Qed.

(** Moving one coroutine to a point outside the block, or to a point
    inside it that it may be at, keeps the invariant. *)
Lemma lock_inv_goto (st : Service) (i : nat) (p q : pc) :
  lock_inv st -> at_pc st i p ->
  (in_block q = true -> in_block p = true) ->
  (forall ip, q = AtCreate ip -> loaded st = None) ->
  lock_inv (goto st i q).
Proof.
  intros (Hlock & Hcreate & Hcreated) Hat Hblock Hnone. unfold lock_inv, goto, at_pc in *.
  cbn [loaded lock_holder created coroutines]. split_and!.
  - intros j p' Hj Hin. apply lookup_insert_cases in Hj as [[-> ->] | [Hne Hj]].
    + apply (Hlock i p Hat). apply Hblock, Hin.
    + apply (Hlock j p' Hj Hin).
  - intros j ip Hj. apply lookup_insert_cases in Hj as [[-> Hq] | [Hne Hj]].
    + apply (Hnone ip). congruence.
    + apply (Hcreate j ip Hj).
  - exact Hcreated.
Qed.

Lemma lock_inv_spawn (st : Service) (q : pc) :
  lock_inv st -> in_block q = false ->
  lock_inv {| loaded := loaded st; lock_holder := lock_holder st; created := created st;
              coroutines := coroutines st ++ [q] |}.
Proof.
  intros (Hlock & Hcreate & Hcreated) Hq. unfold lock_inv, at_pc in *.
  cbn [loaded lock_holder created coroutines]. split_and!.
  - intros j p' Hj Hin. apply lookup_snoc_cases in Hj as [Hj | [-> ->]].
    + apply (Hlock j p' Hj Hin).
    + congruence.
  - intros j ip Hj. apply lookup_snoc_cases in Hj as [Hj | [-> Heq]].
    + apply (Hcreate j ip Hj).
    + subst q. discriminate Hq.
  - exact Hcreated.
Qed.

(** Two coroutines inside the block are the same coroutine. *)
Lemma lock_inv_exclusive (st : Service) (i j : nat) (p q : pc) :
  lock_inv st -> at_pc st i p -> at_pc st j q ->
  in_block p = true -> in_block q = true -> i = j.
Proof.
  intros (Hlock & _ & _) Hi Hj Hp Hq.
  pose proof (Hlock i p Hi Hp) as H1. pose proof (Hlock j q Hj Hq) as H2. congruence.
Qed.

Lemma lock_inv_fresh : lock_inv fresh_service.
Proof.
  unfold lock_inv, fresh_service, at_pc. cbn. split_and!.
  - intros i p Hi. rewrite lookup_nil in Hi. discriminate Hi.
  - intros i ip Hi. rewrite lookup_nil in Hi. discriminate Hi.
  - reflexivity.
Qed.

Lemma lock_inv_step (b : backend) (st st' : Service) :
  lock_inv st -> step b st st' -> lock_inv st'.
Proof.
  intros Hinv Hstep. destruct Hstep.
  - apply lock_inv_spawn; [exact Hinv | reflexivity].
  - apply lock_inv_spawn; [exact Hinv | reflexivity].
  - eapply lock_inv_goto; eauto; cbn; congruence.
  - eapply lock_inv_goto; eauto; cbn; congruence.
  - (* acquire: the lock is free, so nobody is inside the block *)
    destruct Hinv as (Hlock & Hcreate & Hcreated). unfold lock_inv, at_pc in *.
    cbn [loaded lock_holder created coroutines]. split_and!.
    + intros j p' Hj Hin. apply lookup_insert_cases in Hj as [[-> ->] | [Hne Hj]].
      * reflexivity.
      * pose proof (Hlock j p' Hj Hin). congruence.
    + intros j ip' Hj. apply lookup_insert_cases in Hj as [[-> Hq] | [Hne Hj]].
      * discriminate Hq.
      * apply (Hcreate j ip' Hj).
    + exact Hcreated.
  - eapply lock_inv_goto; eauto.
  - eapply lock_inv_goto; eauto; cbn; congruence.
  - (* create: this coroutine is the only one inside the block *)
    pose proof Hinv as (Hlock & Hcreate & Hcreated). unfold lock_inv, at_pc in *.
    cbn [loaded lock_holder created coroutines]. split_and!.
    + intros j p' Hj Hin. apply lookup_insert_cases in Hj as [[-> ->] | [Hne Hj]].
      * apply (Hlock i (AtCreate ip)); [assumption | reflexivity].
      * apply (Hlock j p' Hj Hin).
    + intros j ip' Hj. apply lookup_insert_cases in Hj as [[-> Hq] | [Hne Hj]].
      * discriminate Hq.
      * exfalso. apply Hne.
        apply (lock_inv_exclusive st j i (AtCreate ip') (AtCreate ip) Hinv Hj); auto.
    + rewrite Hcreated. rewrite (Hcreate i ip) by assumption. reflexivity.
  - eapply lock_inv_goto; eauto; cbn; congruence.
  - eapply lock_inv_goto; eauto; cbn; congruence.
  - eapply lock_inv_goto; eauto; cbn; congruence.
  - (* release: nobody else was inside the block *)
    pose proof Hinv as (Hlock & Hcreate & Hcreated). unfold lock_inv, at_pc in *.
    cbn [loaded lock_holder created coroutines]. split_and!.
    + intros j p' Hj Hin. apply lookup_insert_cases in Hj as [[-> ->] | [Hne Hj]].
      * destruct r, ip; discriminate Hin.
      * exfalso. apply Hne.
        apply (lock_inv_exclusive st j i p' (AtRelease ip r) Hinv Hj); auto.
    + intros j ip' Hj. apply lookup_insert_cases in Hj as [[-> Hq] | [Hne Hj]].
      * destruct r, ip; discriminate Hq.
      * apply (Hcreate j ip' Hj).
    + exact Hcreated.
  - eapply lock_inv_goto; eauto; cbn; congruence.
  - eapply lock_inv_goto; eauto; cbn; congruence.
  - eapply lock_inv_goto; eauto; cbn; congruence.
Qed.

Lemma lock_inv_reachable (b : backend) (st : Service) : reachable b st -> lock_inv st.
Proof.
  unfold reachable. revert st. apply rtc_ind_r; [apply lock_inv_fresh|].
  intros st st' _ Hstep Hinv. eapply lock_inv_step; eassumption.
Qed.

Lemma lock_inv_rtc (b : backend) (st st' : Service) :
  lock_inv st -> rtc (step b) st st' -> lock_inv st'.
Proof.
  intros Hinv Hr. induction Hr; [exact Hinv|].
  apply IHHr. eapply lock_inv_step; eassumption.
Qed.

(** A step that assigns an object starts from none loaded. *)
Lemma step_creates_from_none (b : backend) (st st' : Service) :
  lock_inv st -> step b st st' -> created st' <> created st -> loaded st = None.
Proof.
  intros (_ & Hcreate & _) Hstep Hne.
  destruct Hstep; cbn [created goto] in Hne; try congruence.
  eapply Hcreate; eassumption.
Qed.

(** Once an object is loaded, no step replaces it or adds another. *)
Lemma step_keeps_loaded (b : backend) (st st' : Service) (h : nat) :
  lock_inv st -> step b st st' -> loaded st = Some h ->
  loaded st' = Some h /\ created st' = created st.
Proof.
  intros (_ & Hcreate & _) Hstep Hh.
  destruct Hstep; cbn [loaded created goto]; auto.
  pose proof (Hcreate i ip ltac:(assumption)). congruence.
Qed.

Lemma rtc_keeps_loaded (b : backend) (st st' : Service) (h : nat) :
  lock_inv st -> rtc (step b) st st' -> loaded st = Some h ->
  loaded st' = Some h /\ created st' = created st.
Proof.
  intros Hinv Hr. induction Hr as [st|st st1 st2 Hstep Hr IH]; intros Hh; [auto|].
  destruct (step_keeps_loaded b st st1 h Hinv Hstep Hh) as [Hl Hc].
  destruct (IH (lock_inv_step b st st1 Hinv Hstep) Hl) as [Hl' Hc'].
  split; congruence.
Qed.

(** [predict] goes on to [load] only when it saw nothing loaded. *)
Lemma step_predict_to_load (b : backend) (st st' : Service) (i : nat) (ip : bool) :
  step b st st' -> at_pc st i AtPredict -> at_pc st' i (AtAcquire ip) -> loaded st = None.
Proof.
  intros Hstep Hi Hi'. unfold at_pc in *.
  destruct Hstep; cbn [coroutines goto] in Hi'; unfold at_pc in *;
    try (apply lookup_insert_cases in Hi' as [[-> Hq] | [Hne Hi']];
         [try discriminate Hq; try assumption; try congruence | congruence]);
    try (rewrite lookup_app_l in Hi' by (apply lookup_lt_Some in Hi; exact Hi); congruence);
    try (destruct r, ip0; discriminate Hq).
Qed.

(** C7: in every state that some interleaving of [predict] and [load]
    calls reaches from a fresh service object, at most one object was
    ever assigned, and it is the loaded one; a step assigns only when
    nothing is loaded; [predict] enters [load] only when it saw nothing
    loaded; and from then on, whatever the schedule, the loaded object
    stays the same and nothing more is assigned. *)
Theorem C7_loaded_at_most_once (b : backend) (st : Service) :
  reachable b st ->
  length (created st) <= 1 /\
  created st = option_list (loaded st) /\
  (forall st', step b st st' -> created st' <> created st -> loaded st = None) /\
  (forall st' i ip, step b st st' -> at_pc st i AtPredict -> at_pc st' i (AtAcquire ip) ->
     loaded st = None) /\
  (forall st' h, rtc (step b) st st' -> loaded st = Some h ->
     loaded st' = Some h /\ created st' = created st) /\
  (forall i j p q, at_pc st i p -> at_pc st j q ->
     in_block p = true -> in_block q = true -> i = j).
Proof.
  intros Hr. pose proof (lock_inv_reachable b st Hr) as Hinv.
  pose proof Hinv as (_ & _ & Hcreated). split_and!.
  - rewrite Hcreated. destruct (loaded st); cbn; lia.
  - exact Hcreated.
  - intros st'. apply step_creates_from_none, Hinv.
  - intros st' i ip. apply step_predict_to_load.
  - intros st' h. apply rtc_keeps_loaded, Hinv.
  - intros i j p q. apply lock_inv_exclusive, Hinv.
Qed.

Lemma loaded_service_reachable : reachable ONNX loaded_service.
Proof.
  unfold reachable, loaded_service.
  eapply rtc_l; [apply step_call_predict|].
  eapply rtc_l; [apply (step_predict_none ONNX _ 0); reflexivity|].
  eapply rtc_l; [apply (step_acquire ONNX _ 0 true); reflexivity|].
  eapply rtc_l; [apply (step_check_none ONNX _ 0 true); reflexivity|].
  eapply rtc_l; [apply (step_create_ok ONNX _ 0 true 7); reflexivity|].
  eapply rtc_l; [apply (step_finish_ok ONNX _ 0 true); reflexivity|].
  eapply rtc_l; [apply (step_release ONNX _ 0 true None); reflexivity|].
  apply rtc_refl.
Qed.

Lemma busy_service_next : rtc (step ONNX) loaded_service busy_service.
Proof. apply rtc_once. apply (step_call_predict ONNX loaded_service). Qed.

(** C7 at a service object that has loaded the object 7: later calls
    find the same object and nothing more is assigned. *)
Lemma C7_loaded_at_most_once_witness :
  reachable ONNX loaded_service /\
  length (created loaded_service) <= 1 /\
  created loaded_service = option_list (loaded loaded_service) /\
  rtc (step ONNX) loaded_service busy_service /\
  loaded busy_service = Some 7 /\
  created busy_service = created loaded_service.
Proof.
  split; [exact loaded_service_reachable|].
  destruct (C7_loaded_at_most_once ONNX loaded_service loaded_service_reachable)
    as (Hlen & Hcreated & _ & _ & Hkeep & _).
  split; [exact Hlen|]. split; [exact Hcreated|]. split; [exact busy_service_next|].
  apply (Hkeep busy_service 7 busy_service_next). reflexivity.
Defined.

(** ** The assertion in [predict] never fails *)

Lemma loaded_inv_goto (st : Service) (i : nat) (q : pc) :
  loaded_inv st -> (past_load q = true -> is_Some (loaded st)) -> loaded_inv (goto st i q).
Proof.
  intros Hinv Hq j p Hj Hp. unfold at_pc, goto in *. cbn [coroutines loaded] in *.
  apply lookup_insert_cases in Hj as [[-> ->] | [Hne Hj]].
  - apply Hq, Hp.
  - apply (Hinv j p Hj Hp).
Qed.

Lemma loaded_inv_step (b : backend) (st st' : Service) :
  loaded_inv st -> step b st st' -> loaded_inv st'.
Proof.
  intros Hinv Hstep. destruct Hstep;
    try (apply loaded_inv_goto; [exact Hinv | cbn; intros Hp; try discriminate Hp;
                                  try (eexists; eassumption);
                                  try (eapply Hinv; [eassumption | reflexivity])]).
  - intros j p Hj Hp. unfold at_pc in *. cbn [coroutines loaded] in *.
    apply lookup_snoc_cases in Hj as [Hj | [-> ->]]; [apply (Hinv j p Hj Hp)|discriminate Hp].
  - intros j p Hj Hp. unfold at_pc in *. cbn [coroutines loaded] in *.
    apply lookup_snoc_cases in Hj as [Hj | [-> ->]]; [apply (Hinv j p Hj Hp)|discriminate Hp].
  - intros j p Hj Hp. cbn [loaded]. eexists. reflexivity.
  - destruct r as [e|]; [discriminate Hp|].
    apply (Hinv i (AtRelease ip None)); [assumption | reflexivity].
Qed.

Lemma loaded_inv_reachable (b : backend) (st : Service) : reachable b st -> loaded_inv st.
Proof.
  unfold reachable. revert st. apply rtc_ind_r.
  - intros i p Hi. unfold at_pc, fresh_service in Hi. cbn in Hi.
    rewrite lookup_nil in Hi. discriminate Hi.
  - intros st st' _ Hstep Hinv. eapply loaded_inv_step; eassumption.
Qed.

(** In no reachable state does a coroutine stand at the assertion of
    [predict] with nothing loaded. *)
Lemma predict_assertion_holds (b : backend) (st : Service) (i : nat) :
  reachable b st -> at_pc st i AtAssert -> is_Some (loaded st).
Proof.
  intros Hr Hi. apply (loaded_inv_reachable b st Hr i AtAssert Hi). reflexivity.
Qed.

(** ** Lazy loading, one call at a time *)

Section Lazy.
Context {F : Type} {NP : NumPy F} {RT : Runtime F}.

(** [load] with a session in place does nothing. *)
Lemma onnx_load_loaded (w : World F) (s : nat) :
  _session (inference_service w) = Some s -> onnx_load w = (Ok tt, w).
Proof.
  intros Hs. unfold onnx_load. rewrite M_bind_unfold. cbn [get_world]. rewrite Hs.
  reflexivity.
Qed.

(** [load] with no session builds one, once, or raises and leaves none. *)
Lemma onnx_load_empty (w : World F) :
  _session (inference_service w) = None ->
  onnx_load w =
    match ort_InferenceSession w (attr_str (onnx_model_path (inference_service w))) with
    | Ok s =>
        (Ok tt,
         set_log (log w ++ [EvSessionCreated s])
           (set_inference_service
              {| onnx_model_path := onnx_model_path (inference_service w);
                 _session := Some s |} w))
    | Raise e => (Raise e, w)
    end.
Proof.
  intros Hs. unfold onnx_load. rewrite M_bind_unfold. cbn [get_world]. rewrite Hs.
  rewrite M_bind_unfold. unfold ask.
  destruct (ort_InferenceSession w _) as [s|e]; reflexivity.
Qed.

(** [predict] with a session in place calls neither [load] nor the
    constructor: it logs its own call and nothing else. *)
Lemma onnx_predict_loaded (x : array F) (w : World F) (s : nat) :
  _session (inference_service w) = Some s ->
  (onnx_predict x w).2 = set_log (log w ++ [EvPredict ONNX x]) w.
Proof.
  intros Hs. unfold onnx_predict. rewrite M_bind_unfold. cbn [emit modify].
  rewrite M_bind_unfold. cbn [get_world inference_service set_log]. rewrite Hs.
  rewrite M_bind_unfold. cbn [mret M_ret]. rewrite M_bind_unfold.
  cbn [get_world inference_service set_log]. rewrite Hs.
  rewrite M_bind_unfold. unfold ask.
  destruct (session_run _ s x) as [logits|e]; [|reflexivity].
  unfold lift. reflexivity.
Qed.

(** [load] of the PyTorch service with a model in place does nothing. *)
Lemma pytorch_load_loaded (w : World F) (mdl : nat) :
  pytorch_model w = Some mdl -> pytorch_load w = (Ok tt, w).
Proof.
  unfold pytorch_model. intros Hm.
  destruct (pytorch_inference_service w) as [svc|] eqn:Hsvc; [|discriminate Hm].
  cbn in Hm. unfold pytorch_load. rewrite M_bind_unfold.
  unfold pt_self. rewrite M_bind_unfold. cbn [get_world]. unfold lift. rewrite Hsvc.
  cbn [of_option]. rewrite Hm. reflexivity.
Qed.

Section Keeps.
Variable get : World F -> option nat.

Lemma keeps_same {A} (m : M F A) : (forall w, get (m w).2 = get w) -> keeps get m.
Proof. intros Hm w x Hx. rewrite Hm. exact Hx. Qed.

Lemma keeps_mret {A} (a : A) : keeps get (mret a : M F A).
Proof. apply keeps_same. reflexivity. Qed.

Lemma keeps_raised {A} (e : exn) : keeps get (raise e : M F A).
Proof. apply keeps_same. reflexivity. Qed.

Lemma keeps_lifted {A} (r : result A) : keeps get (lift r : M F A).
Proof. apply keeps_same. reflexivity. Qed.

Lemma keeps_asked {A} (f : World F -> result A) : keeps get (ask f).
Proof. apply keeps_same. reflexivity. Qed.

Lemma keeps_world : keeps get (get_world : M F (World F)).
Proof. apply keeps_same. reflexivity. Qed.

Lemma keeps_modified (f : World F -> World F) :
  (forall w, get (f w) = get w) -> keeps get (modify f).
Proof. intros Hf. apply keeps_same. exact Hf. Qed.

Lemma keeps_mbind {A B} (m : M F A) (f : A -> M F B) :
  keeps get m -> (forall a, keeps get (f a)) -> keeps get (m ≫= f).
Proof.
  intros Hm Hf w x Hx. rewrite M_bind_unfold. specialize (Hm w x Hx).
  destruct (m w) as [[a|e] w1]; cbn [snd] in *; [|exact Hm].
  apply Hf, Hm.
Qed.

Lemma keeps_handled {A} (body : M F A) (handler : exn -> M F A) :
  keeps get body -> (forall e, keeps get (handler e)) -> keeps get (try_except body handler).
Proof.
  intros Hb Hh w x Hx. unfold try_except. specialize (Hb w x Hx).
  destruct (body w) as [[a|e] w1]; cbn [snd] in *; [exact Hb|].
  apply Hh, Hb.
Qed.

Lemma keeps_finally {A} (body : M F A) (fin : M F unit) :
  keeps get body -> keeps get fin -> keeps get (try_finally body fin).
Proof.
  intros Hb Hf w x Hx. unfold try_finally. specialize (Hb w x Hx).
  destruct (body w) as [r w1]. cbn [snd] in Hb. specialize (Hf w1 x Hb).
  destruct (fin w1) as [[u|e] w2]; cbn [snd] in *; exact Hf.
Qed.

End Keeps.

(** One step of a proof that an object is kept; a world update is
    checked by computing what [get] reads after it. *)
Ltac keeps_obj_step :=
  match goal with
  | |- keeps _ (_ ≫= _) => apply keeps_mbind; [|intros ?]
  | |- keeps _ (try_except _ _) => apply keeps_handled; [|intros ?]
  | |- keeps _ (try_finally _ _) => apply keeps_finally
  | |- keeps _ (mret _) => apply keeps_mret
  | |- keeps _ (raise _) => apply keeps_raised
  | |- keeps _ (lift _) => apply keeps_lifted
  | |- keeps _ (ask _) => apply keeps_asked
  | |- keeps _ get_world => apply keeps_world
  | |- keeps _ (modify _) => apply keeps_modified; intros ?; reflexivity
  | |- keeps _ (emit _) => apply keeps_modified; intros ?; reflexivity
  | |- keeps _ utcnow => apply keeps_same; intros ?; reflexivity
  | |- keeps _ (match ?x with _ => _ end) => destruct x
  | |- keeps _ (if ?b then _ else _) => destruct b
  | |- keeps _ _ => assumption
  end.

Section KeepsBoth.
Variable get : World F -> option nat.
Hypothesis get_sys_path : forall p w, get (set_sys_path p w) = get w.
Hypothesis get_cwd : forall p w, get (set_cwd p w) = get w.

Lemma keeps_chdir_obj (p : string) : keeps get (chdir p).
Proof.
  unfold chdir. apply keeps_mbind; [apply keeps_asked|]. intros _.
  apply keeps_modified. apply get_cwd.
Qed.

Lemma keeps_import_and_build_obj (checkpoint : Checkpoint) (model_type : option string)
    (icbhi_path_str original_cwd : string) :
  keeps get (import_and_build checkpoint model_type icbhi_path_str original_cwd).
Proof.
  pose proof keeps_chdir_obj as Hch.
  unfold import_and_build. apply keeps_finally; [|apply Hch].
  apply keeps_mbind; [apply Hch|]. intros _. repeat keeps_obj_step.
Qed.

Lemma keeps_load_model_with_wrapper_obj (checkpoint_path : string) (icbhi_path : attr)
    (use_icbhi_import : bool) :
  keeps get (load_model_with_wrapper checkpoint_path icbhi_path use_icbhi_import).
Proof.
  pose proof keeps_import_and_build_obj as Hib.
  unfold load_model_with_wrapper.
  apply keeps_mbind; [apply keeps_asked|]. intros loaded.
  apply keeps_mbind; [apply keeps_lifted|]. intros checkpoint.
  apply keeps_mbind; [apply keeps_asked|]. intros [|]; [|apply keeps_raised].
  apply keeps_mbind; [apply keeps_asked|]. intros icbhi_path_str.
  apply keeps_mbind.
  { apply keeps_modified. intros w. unfold with_icbhi_on_path.
    destruct (bool_decide _); [reflexivity | apply get_sys_path]. }
  intros _. apply keeps_handled; [|intros e; apply keeps_raised].
  apply keeps_mbind; [apply keeps_world|]. intros w2. apply Hib.
Qed.

End KeepsBoth.

(** [load] assigns a session only where there was none. *)
Lemma session_onnx_load : keeps onnx_session onnx_load.
Proof.
  intros w s Hs. unfold onnx_session in *. rewrite (onnx_load_loaded w s Hs). exact Hs.
Qed.

Lemma session_onnx_predict (x : array F) : keeps onnx_session (onnx_predict x).
Proof.
  pose proof session_onnx_load. unfold onnx_predict. repeat keeps_obj_step.
Qed.

Lemma session_pytorch_load : keeps onnx_session pytorch_load.
Proof.
  pose proof (keeps_load_model_with_wrapper_obj onnx_session
                ltac:(reflexivity) ltac:(reflexivity)) as Hl.
  unfold pytorch_load, pt_self, set_pt. repeat keeps_obj_step; apply Hl.
Qed.

Lemma session_pytorch_predict (x : array F) : keeps onnx_session (pytorch_predict x).
Proof.
  pose proof session_pytorch_load.
  unfold pytorch_predict, pt_self. repeat keeps_obj_step.
Qed.

(** [load] of the PyTorch service assigns a model only where there was
    none. *)
Lemma model_pytorch_load : keeps pytorch_model pytorch_load.
Proof. intros w mdl Hm. rewrite (pytorch_load_loaded w mdl Hm). exact Hm. Qed.

Lemma model_onnx_load : keeps pytorch_model onnx_load.
Proof. unfold onnx_load. repeat keeps_obj_step. Qed.

Lemma model_onnx_predict (x : array F) : keeps pytorch_model (onnx_predict x).
Proof. pose proof model_onnx_load. unfold onnx_predict. repeat keeps_obj_step. Qed.

Lemma model_pytorch_predict (x : array F) : keeps pytorch_model (pytorch_predict x).
Proof.
  pose proof model_pytorch_load.
  unfold pytorch_predict, pt_self. repeat keeps_obj_step.
Qed.

(** The global PyTorch service is made only where there was none. *)
Lemma model_get_inference_service {S} {SO : SettingsObject S} (settings : S) :
  keeps pytorch_model (get_inference_service settings).
Proof.
  unfold get_inference_service.
  apply keeps_mbind; [apply keeps_lifted|]. intros [|]; [|apply keeps_mret].
  apply keeps_mbind; [apply keeps_asked|]. intros _.
  intros w mdl Hm. unfold pytorch_model in Hm.
  destruct (pytorch_inference_service w) as [svc|] eqn:Hsvc; [|discriminate Hm].
  unfold get_pytorch_inference_service. rewrite M_bind_unfold. cbn [get_world].
  rewrite Hsvc. cbn [mret M_ret snd]. unfold pytorch_model. rewrite Hsvc. exact Hm.
Qed.

Lemma session_get_inference_service {S} {SO : SettingsObject S} (settings : S) :
  keeps onnx_session (get_inference_service settings).
Proof.
  unfold get_inference_service, get_pytorch_inference_service,
    new_PyTorchAudioInferenceService.
  repeat keeps_obj_step.
Qed.

(** No part of the inference pipeline replaces a loaded session or
    model. *)
Lemma run_inference_keeps_loaded {S} {SO : SettingsObject S} (settings : S)
    (audio_path : string) :
  keeps_loaded (run_inference settings audio_path).
Proof.
  pose proof (session_get_inference_service settings).
  pose proof (model_get_inference_service settings).
  pose proof session_onnx_predict. pose proof session_pytorch_predict.
  pose proof model_onnx_predict. pose proof model_pytorch_predict.
  split; unfold run_inference, load_waveform, extract_mel_spectrogram, predict;
    repeat keeps_obj_step; auto.
Qed.

End Lazy.

(** ** A call of [load] run alone is a run of the interleaving model *)

Lemma at_pc_last (l holder : option nat) (history : list nat) (cs : list pc) (p : pc) :
  at_pc (service_view l holder history cs p) (length cs) p.
Proof. unfold at_pc, service_view. cbn. apply list_lookup_middle. reflexivity. Qed.

Lemma insert_last (cs : list pc) (p q : pc) :
  <[length cs := q]> (cs ++ [p])%list = (cs ++ [q])%list.
Proof.
  rewrite <- (Nat.add_0_r (length cs)). rewrite insert_app_r. reflexivity.
Qed.

Lemma goto_last (l holder : option nat) (history : list nat) (cs : list pc) (p q : pc) :
  goto (service_view l holder history cs p) (length cs) q = service_view l holder history cs q.
Proof. unfold goto, service_view. cbn. rewrite insert_last. reflexivity. Qed.

Section LastCoroutine.
Variable b : backend.
Variables (history : list nat) (cs : list pc).

Lemma last_call_load (l : option nat) (holder : option nat) :
  step b {| loaded := l; lock_holder := holder; created := history; coroutines := cs |}
         (service_view l holder history cs (AtAcquire false)).
Proof. apply (step_call_load b {| loaded := l; lock_holder := holder;
                                  created := history; coroutines := cs |}). Qed.

Lemma last_acquire (l : option nat) (ip : bool) :
  step b (service_view l None history cs (AtAcquire ip))
         (service_view l (Some (length cs)) history cs (AtCheck ip)).
Proof.
  pose proof (step_acquire b (service_view l None history cs (AtAcquire ip)) (length cs) ip
                (at_pc_last _ _ _ _ _) eq_refl) as Hs.
  cbn [loaded created coroutines service_view] in Hs. rewrite insert_last in Hs. exact Hs.
Qed.

Lemma last_check_none (holder : option nat) (ip : bool) :
  step b (service_view None holder history cs (AtCheck ip))
         (service_view None holder history cs (AtCreate ip)).
Proof.
  rewrite <- (goto_last None holder history cs (AtCheck ip) (AtCreate ip)).
  apply step_check_none; [apply at_pc_last | reflexivity].
Qed.

Lemma last_check_some (holder : option nat) (ip : bool) (h : nat) :
  step b (service_view (Some h) holder history cs (AtCheck ip))
         (service_view (Some h) holder history cs (AtRelease ip None)).
Proof.
  rewrite <- (goto_last (Some h) holder history cs (AtCheck ip) (AtRelease ip None)).
  apply (step_check_some b _ _ ip h); [apply at_pc_last | reflexivity].
Qed.

Lemma last_create_ok (l holder : option nat) (ip : bool) (h : nat) :
  step b (service_view l holder history cs (AtCreate ip))
         (service_view (Some h) holder (history ++ [h]) cs (AtFinish ip)).
Proof.
  pose proof (step_create_ok b (service_view l holder history cs (AtCreate ip)) (length cs)
                ip h (at_pc_last _ _ _ _ _)) as Hs.
  cbn [lock_holder created coroutines service_view] in Hs. rewrite insert_last in Hs.
  exact Hs.
Qed.

Lemma last_create_raise (l holder : option nat) (ip : bool) (e : exn) :
  step b (service_view l holder history cs (AtCreate ip))
         (service_view l holder history cs (AtRelease ip (Some e))).
Proof.
  rewrite <- (goto_last l holder history cs (AtCreate ip) (AtRelease ip (Some e))).
  apply step_create_raise. apply at_pc_last.
Qed.

End LastCoroutine.

Lemma last_finish_ok (b : backend) (history : list nat) (cs : list pc)
    (l holder : option nat) (ip : bool) :
  step b (service_view l holder history cs (AtFinish ip))
         (service_view l holder history cs (AtRelease ip None)).
Proof.
  rewrite <- (goto_last l holder history cs (AtFinish ip) (AtRelease ip None)).
  apply step_finish_ok. apply at_pc_last.
Qed.

Lemma last_finish_raise (history : list nat) (cs : list pc)
    (l holder : option nat) (ip : bool) (e : exn) :
  step PYTORCH (service_view l holder history cs (AtFinish ip))
               (service_view l holder history cs (AtRelease ip (Some e))).
Proof.
  rewrite <- (goto_last l holder history cs (AtFinish ip) (AtRelease ip (Some e))).
  apply step_finish_raise; [reflexivity | apply at_pc_last].
Qed.

Lemma last_release (b : backend) (history : list nat) (cs : list pc)
    (l holder : option nat) (ip : bool) (r : option exn) :
  step b (service_view l holder history cs (AtRelease ip r))
         (service_view l None history cs (after_load ip r)).
Proof.
  pose proof (step_release b (service_view l holder history cs (AtRelease ip r)) (length cs)
                ip r (at_pc_last _ _ _ _ _)) as Hs.
  cbn [loaded created coroutines service_view] in Hs. rewrite insert_last in Hs. exact Hs.
Qed.

Section LoadRefines.
Context {F : Type} {NP : NumPy F} {RT : Runtime F}.

(** Whatever the other coroutines [cs] are doing outside the lock, a
    call of [AudioInferenceService.load] that runs from start to end is
    a run of the model: it ends where the call returned or raised, with
    the session the call left, and the history grew by the session it
    built, if any. *)
Lemma onnx_load_is_a_run (w : World F) (history : list nat) (cs : list pc) :
  exists built,
    rtc (step ONNX)
      {| loaded := onnx_session w; lock_holder := None; created := history;
         coroutines := cs |}
      (service_view (onnx_session (onnx_load w).2) None (history ++ built) cs
         (Finished (outcome (onnx_load w).1))) /\
    built = match onnx_session w, onnx_session (onnx_load w).2 with
            | None, Some s => [s]
            | _, _ => []
            end.
Proof.
  unfold onnx_session.
  destruct (_session (inference_service w)) as [s|] eqn:Hs.
  - rewrite (onnx_load_loaded w s Hs). cbn [fst snd outcome]. rewrite Hs.
    exists []. split; [|reflexivity]. rewrite app_nil_r.
    eapply rtc_l; [apply last_call_load|].
    eapply rtc_l; [apply last_acquire|].
    eapply rtc_l; [apply last_check_some|].
    eapply rtc_l; [apply last_release|].
    apply rtc_refl.
  - rewrite (onnx_load_empty w Hs).
    destruct (ort_InferenceSession w _) as [s|e]; cbn [fst snd outcome].
    + cbn [inference_service set_log set_inference_service _session].
      exists [s]. split; [|reflexivity].
      eapply rtc_l; [apply last_call_load|].
      eapply rtc_l; [apply last_acquire|].
      eapply rtc_l; [apply last_check_none|].
      eapply rtc_l; [apply (last_create_ok ONNX history cs None _ false s)|].
      eapply rtc_l; [apply last_finish_ok|].
      eapply rtc_l; [apply last_release|].
      apply rtc_refl.
    + rewrite Hs. exists []. split; [|reflexivity]. rewrite app_nil_r.
      eapply rtc_l; [apply last_call_load|].
      eapply rtc_l; [apply last_acquire|].
      eapply rtc_l; [apply last_check_none|].
      eapply rtc_l; [apply (last_create_raise ONNX history cs None _ false e)|].
      eapply rtc_l; [apply last_release|].
      apply rtc_refl.
Qed.

End LoadRefines.

(** ** A call of [predict] run alone is a run of the interleaving model *)

Section LastCoroutinePredict.
Variable b : backend.
Variables (history : list nat) (cs : list pc).

Lemma last_call_predict (l : option nat) (holder : option nat) :
  step b {| loaded := l; lock_holder := holder; created := history; coroutines := cs |}
         (service_view l holder history cs AtPredict).
Proof. apply (step_call_predict b {| loaded := l; lock_holder := holder;
                                     created := history; coroutines := cs |}). Qed.

Lemma last_predict_none (holder : option nat) :
  step b (service_view None holder history cs AtPredict)
         (service_view None holder history cs (AtAcquire true)).
Proof.
  rewrite <- (goto_last None holder history cs AtPredict (AtAcquire true)).
  apply step_predict_none; [apply at_pc_last | reflexivity].
Qed.

Lemma last_predict_some (holder : option nat) (h : nat) :
  step b (service_view (Some h) holder history cs AtPredict)
         (service_view (Some h) holder history cs AtAssert).
Proof.
  rewrite <- (goto_last (Some h) holder history cs AtPredict AtAssert).
  apply (step_predict_some b _ _ h); [apply at_pc_last | reflexivity].
Qed.

Lemma last_assert_some (holder : option nat) (h : nat) :
  step b (service_view (Some h) holder history cs AtAssert)
         (service_view (Some h) holder history cs (Running h)).
Proof.
  rewrite <- (goto_last (Some h) holder history cs AtAssert (Running h)).
  apply step_assert_some; [apply at_pc_last | reflexivity].
Qed.

Lemma last_run (l holder : option nat) (h : nat) (r : option exn) :
  step b (service_view l holder history cs (Running h))
         (service_view l holder history cs (Finished r)).
Proof.
  rewrite <- (goto_last l holder history cs (Running h) (Finished r)).
  apply (step_run b _ _ h r). apply at_pc_last.
Qed.

End LastCoroutinePredict.

Section PredictRefines.
Context {F : Type} {NP : NumPy F} {RT : Runtime F}.

(** [predict], evaluated from a world with a session in place. *)
Lemma onnx_predict_loaded_eval (x : array F) (w : World F) (s : nat) :
  _session (inference_service w) = Some s ->
  onnx_predict x w =
    let w1 := set_log (log w ++ [EvPredict ONNX x]) w in
    (session_run w1 s x ≫= onnx_postprocess, w1).
Proof.
  intros Hs. unfold onnx_predict. rewrite M_bind_unfold. cbn [emit modify].
  rewrite M_bind_unfold. cbn [get_world inference_service set_log]. rewrite Hs.
  rewrite M_bind_unfold. cbn [mret M_ret]. rewrite M_bind_unfold.
  cbn [get_world inference_service set_log]. rewrite Hs.
  rewrite M_bind_unfold. unfold ask.
  destruct (session_run _ s x) as [logits|e]; reflexivity.
Qed.

(** [predict], evaluated from a world with no session. *)
Lemma onnx_predict_empty_eval (x : array F) (w : World F) :
  _session (inference_service w) = None ->
  onnx_predict x w =
    let w1 := set_log (log w ++ [EvPredict ONNX x]) w in
    match ort_InferenceSession w1 (attr_str (onnx_model_path (inference_service w))) with
    | Ok s =>
        let w2 := set_log (log w1 ++ [EvSessionCreated s])
                    (set_inference_service
                       {| onnx_model_path := onnx_model_path (inference_service w);
                          _session := Some s |} w1) in
        (session_run w2 s x ≫= onnx_postprocess, w2)
    | Raise e => (Raise e, w1)
    end.
Proof.
  intros Hs. unfold onnx_predict. rewrite M_bind_unfold. cbn [emit modify].
  rewrite M_bind_unfold. cbn [get_world inference_service set_log]. rewrite Hs.
  rewrite M_bind_unfold.
  rewrite (onnx_load_empty (set_log (log w ++ [EvPredict ONNX x]) w)) by exact Hs.
  cbn [inference_service set_log]. cbn zeta.
  destruct (ort_InferenceSession _ _) as [s|e]; [|reflexivity].
  rewrite M_bind_unfold. cbn [get_world inference_service set_log set_inference_service
                              _session log].
  rewrite M_bind_unfold. unfold ask.
  destruct (session_run _ s x) as [logits|e]; reflexivity.
Qed.

(** A call of [AudioInferenceService.predict] that runs from start to
    end is a run of the model, ending where the call returned or raised;
    the history grows by the session it built, if any. *)
Lemma onnx_predict_is_a_run (x : array F) (w : World F) (history : list nat) (cs : list pc) :
  exists built,
    rtc (step ONNX)
      {| loaded := onnx_session w; lock_holder := None; created := history;
         coroutines := cs |}
      (service_view (onnx_session (onnx_predict x w).2) None (history ++ built) cs
         (Finished (outcome (onnx_predict x w).1))) /\
    built = match onnx_session w, onnx_session (onnx_predict x w).2 with
            | None, Some s => [s]
            | _, _ => []
            end.
Proof.
  unfold onnx_session.
  destruct (_session (inference_service w)) as [s|] eqn:Hs.
  - rewrite (onnx_predict_loaded_eval x w s Hs). cbn zeta. cbn [fst snd].
    cbn [inference_service set_log]. rewrite Hs.
    exists []. split; [|reflexivity]. rewrite app_nil_r.
    eapply rtc_l; [apply last_call_predict|].
    eapply rtc_l; [apply last_predict_some|].
    eapply rtc_l; [apply last_assert_some|].
    eapply rtc_l; [apply last_run|].
    apply rtc_refl.
  - rewrite (onnx_predict_empty_eval x w Hs). cbn zeta.
    destruct (ort_InferenceSession _ _) as [s|e]; cbn [fst snd outcome].
    + cbn [inference_service set_log set_inference_service _session].
      exists [s]. split; [|reflexivity].
      eapply rtc_l; [apply last_call_predict|].
      eapply rtc_l; [apply last_predict_none|].
      eapply rtc_l; [apply last_acquire|].
      eapply rtc_l; [apply last_check_none|].
      eapply rtc_l; [apply (last_create_ok ONNX history cs None _ true s)|].
      eapply rtc_l; [apply last_finish_ok|].
      eapply rtc_l; [apply last_release|].
      eapply rtc_l; [apply last_assert_some|].
      eapply rtc_l; [apply last_run|].
      apply rtc_refl.
    + cbn [inference_service set_log]. rewrite Hs.
      exists []. split; [|reflexivity]. rewrite app_nil_r.
      eapply rtc_l; [apply last_call_predict|].
      eapply rtc_l; [apply last_predict_none|].
      eapply rtc_l; [apply last_acquire|].
      eapply rtc_l; [apply last_check_none|].
      eapply rtc_l; [apply (last_create_raise ONNX history cs None _ true e)|].
      eapply rtc_l; [apply last_release|].
      apply rtc_refl.
Qed.

End PredictRefines.

(** ** A call of [load] of the PyTorch service run alone *)

Section Unchanged.
Context {F : Type} {NP : NumPy F} {RT : Runtime F}.
Context {B : Type} (get : World F -> B).

Lemma unchanged_mret {A} (a : A) : unchanged get (mret a : M F A).
Proof. intros w. reflexivity. Qed.

Lemma unchanged_raise {A} (e : exn) : unchanged get (raise e : M F A).
Proof. intros w. reflexivity. Qed.

Lemma unchanged_ask {A} (f : World F -> result A) : unchanged get (ask f).
Proof. intros w. reflexivity. Qed.

Lemma unchanged_lift {A} (r : result A) : unchanged get (lift r : M F A).
Proof. intros w. reflexivity. Qed.

Lemma unchanged_world : unchanged get (get_world : M F (World F)).
Proof. intros w. reflexivity. Qed.

Lemma unchanged_bind {A C} (m : M F A) (f : A -> M F C) :
  unchanged get m -> (forall a, unchanged get (f a)) -> unchanged get (m ≫= f).
Proof.
  intros Hm Hf w. rewrite M_bind_unfold. specialize (Hm w).
  destruct (m w) as [[a|e] w1]; cbn [snd] in *; [|exact Hm].
  rewrite Hf. exact Hm.
Qed.

Lemma unchanged_try_except {A} (body : M F A) (handler : exn -> M F A) :
  unchanged get body -> (forall e, unchanged get (handler e)) ->
  unchanged get (try_except body handler).
Proof.
  intros Hb Hh w. unfold try_except. specialize (Hb w).
  destruct (body w) as [[a|e] w1]; cbn [snd] in *; [exact Hb|].
  rewrite Hh. exact Hb.
Qed.

Lemma unchanged_try_finally {A} (body : M F A) (fin : M F unit) :
  unchanged get body -> unchanged get fin -> unchanged get (try_finally body fin).
Proof.
  intros Hb Hf w. unfold try_finally. specialize (Hb w).
  destruct (body w) as [r w1]. cbn [snd] in Hb. specialize (Hf w1).
  destruct (fin w1) as [[u|e] w2]; cbn [snd] in *; congruence.
Qed.

Lemma unchanged_modify (f : World F -> World F) :
  (forall w, get (f w) = get w) -> unchanged get (modify f).
Proof. intros Hf w. apply Hf. Qed.

End Unchanged.

Section PyTorchLoad.
Context {F : Type} {NP : NumPy F} {RT : Runtime F}.

(** [load_model_with_wrapper] touches [sys.path] and the working
    directory, not the service objects. *)
Lemma load_model_with_wrapper_unchanged (checkpoint_path : string) (icbhi_path : attr)
    (use_icbhi_import : bool) :
  unchanged pytorch_inference_service
    (load_model_with_wrapper checkpoint_path icbhi_path use_icbhi_import).
Proof.
  assert (Hch : forall p, unchanged (pytorch_inference_service (F := F)) (chdir p)).
  { intros p. unfold chdir. apply unchanged_bind; [apply unchanged_ask|]. intros _.
    apply unchanged_modify. reflexivity. }
  unfold load_model_with_wrapper.
  apply unchanged_bind; [apply unchanged_ask|]. intros loaded.
  apply unchanged_bind; [apply unchanged_lift|]. intros checkpoint.
  apply unchanged_bind; [apply unchanged_ask|]. intros [|]; [|apply unchanged_raise].
  apply unchanged_bind; [apply unchanged_ask|]. intros icbhi_path_str.
  apply unchanged_bind.
  { apply unchanged_modify. intros w. unfold with_icbhi_on_path.
    destruct (bool_decide _); reflexivity. }
  intros _. apply unchanged_try_except; [|intros e; apply unchanged_raise].
  apply unchanged_bind; [apply unchanged_world|]. intros w2.
  unfold import_and_build. apply unchanged_try_finally; [|apply Hch].
  apply unchanged_bind; [apply Hch|]. intros _.
  apply unchanged_bind; [apply unchanged_ask|]. intros _.
  apply unchanged_bind.
  { destruct (opt_eqb _ _); [apply unchanged_ask|].
    destruct (opt_eqb _ _); [apply unchanged_ask | apply unchanged_raise]. }
  intros model. apply unchanged_bind; [apply unchanged_ask|]. intros c.
  apply unchanged_mret.
Qed.

(** [load] of the PyTorch service, evaluated from a world whose service
    object has no model. *)
Lemma pytorch_load_empty (w : World F) (self : PyTorchAudioInferenceService) :
  pytorch_inference_service w = Some self -> _model self = None ->
  pytorch_load w =
    match loader_get_model_info w (pt_model_path self) (pt_icbhi_path self) with
    | Raise e => (Raise (load_failure self e), w)
    | Ok info =>
        let self1 := {| pt_model_path := pt_model_path self;
                        pt_icbhi_path := pt_icbhi_path self;
                        _model := None; _classifier := _classifier self;
                        _model_info := Some info |} in
        let w1 := set_pytorch_inference_service (Some self1) w in
        match load_model_with_wrapper (attr_str (pt_model_path self))
                (pt_icbhi_path self) true w1 with
        | (Raise e, w2) => (Raise (load_failure self e), w2)
        | (Ok mc, w2) =>
            let self2 := {| pt_model_path := pt_model_path self;
                            pt_icbhi_path := pt_icbhi_path self;
                            _model := Some mc.1; _classifier := Some mc.2;
                            _model_info := Some info |} in
            let w3 := set_pytorch_inference_service (Some self2) w2 in
            let w4 := set_log (log w3 ++ [EvModelLoaded mc.1 mc.2]) w3 in
            match to_device_eval w4 mc.1 mc.2 with
            | Ok _ => (Ok tt, w4)
            | Raise e => (Raise (load_failure self e), w4)
            end
        end
    end.
Proof.
  intros Hself Hnone. unfold pytorch_load. rewrite M_bind_unfold.
  unfold pt_self. rewrite M_bind_unfold. cbn [get_world]. unfold lift. rewrite Hself.
  cbn [of_option]. rewrite Hnone. unfold try_except.
  rewrite M_bind_unfold. unfold ask at 1.
  destruct (loader_get_model_info w _ _) as [info|e]; [|reflexivity].
  rewrite M_bind_unfold. unfold set_pt at 1. cbn [modify]. rewrite Hself.
  cbn [fmap option_fmap option_map]. rewrite Hnone. rewrite M_bind_unfold.
  match goal with
  | |- context [load_model_with_wrapper ?p ?i ?u ?w1] =>
      pose proof (load_model_with_wrapper_unchanged p i u w1) as Hsame;
      destruct (load_model_with_wrapper p i u w1) as [[mc|e] w2]
  end; [|reflexivity].
  cbn [snd pytorch_inference_service set_pytorch_inference_service] in Hsame.
  rewrite M_bind_unfold. unfold set_pt at 1. cbn [modify]. rewrite Hsame.
  cbn [fmap option_fmap option_map pt_model_path pt_icbhi_path _model_info].
  rewrite M_bind_unfold. cbn [emit modify]. unfold ask.
  destruct (to_device_eval _ _ _) as [[]|e]; reflexivity.
Qed.

(** A call of [PyTorchAudioInferenceService.load] that runs from start
    to end is a run of the model: the model it assigns, if any, is the
    one step that adds to the history, also when moving it to the device
    fails afterwards. *)
Lemma pytorch_load_is_a_run (w : World F) (history : list nat) (cs : list pc) :
  is_Some (pytorch_inference_service w) ->
  exists built,
    rtc (step PYTORCH)
      {| loaded := pytorch_model w; lock_holder := None; created := history;
         coroutines := cs |}
      (service_view (pytorch_model (pytorch_load w).2) None (history ++ built) cs
         (Finished (outcome (pytorch_load w).1))) /\
    built = match pytorch_model w, pytorch_model (pytorch_load w).2 with
            | None, Some m => [m]
            | _, _ => []
            end.
Proof.
  intros [self Hself].
  destruct (pytorch_model w) as [mdl|] eqn:Hm.
  - rewrite (pytorch_load_loaded w mdl Hm). cbn [fst snd outcome]. rewrite Hm.
    exists []. split; [|reflexivity]. rewrite app_nil_r.
    eapply rtc_l; [apply last_call_load|].
    eapply rtc_l; [apply last_acquire|].
    eapply rtc_l; [apply last_check_some|].
    eapply rtc_l; [apply last_release|].
    apply rtc_refl.
  - assert (Hnone : _model self = None).
    { unfold pytorch_model in Hm. rewrite Hself in Hm. exact Hm. }
    rewrite (pytorch_load_empty w self Hself Hnone).
    destruct (loader_get_model_info w _ _) as [info|e].
    + cbn zeta.
      match goal with
      | |- context [load_model_with_wrapper ?p ?i ?u ?w1] =>
          pose proof (load_model_with_wrapper_unchanged p i u w1) as Hsame;
          destruct (load_model_with_wrapper p i u w1) as [[mc|e] w2]
      end.
      * destruct (to_device_eval _ _ _) as [u|e]; cbn [fst snd outcome];
          unfold pytorch_model;
          cbn [pytorch_inference_service set_log set_pytorch_inference_service
               mbind option_bind _model];
          exists [mc.1]; (split; [|reflexivity]).
        -- eapply rtc_l; [apply last_call_load|].
           eapply rtc_l; [apply last_acquire|].
           eapply rtc_l; [apply last_check_none|].
           eapply rtc_l; [apply (last_create_ok PYTORCH history cs None _ false mc.1)|].
           eapply rtc_l; [apply last_finish_ok|].
           eapply rtc_l; [apply last_release|].
           apply rtc_refl.
        -- eapply rtc_l; [apply last_call_load|].
           eapply rtc_l; [apply last_acquire|].
           eapply rtc_l; [apply last_check_none|].
           eapply rtc_l; [apply (last_create_ok PYTORCH history cs None _ false mc.1)|].
           eapply rtc_l; [apply (last_finish_raise _ cs _ _ false (load_failure self e))|].
           eapply rtc_l; [apply last_release|].
           apply rtc_refl.
      * cbn [fst snd outcome]. cbn [snd] in Hsame.
        unfold pytorch_model. rewrite Hsame.
        cbn [pytorch_inference_service set_pytorch_inference_service mbind option_bind
             _model].
        exists []. split; [|reflexivity]. rewrite app_nil_r.
        eapply rtc_l; [apply last_call_load|].
        eapply rtc_l; [apply last_acquire|].
        eapply rtc_l; [apply last_check_none|].
        eapply rtc_l;
          [apply (last_create_raise PYTORCH history cs None _ false (load_failure self e))|].
        eapply rtc_l; [apply last_release|].
        apply rtc_refl.
    + cbn [fst snd outcome]. rewrite Hm.
      exists []. split; [|reflexivity]. rewrite app_nil_r.
      eapply rtc_l; [apply last_call_load|].
      eapply rtc_l; [apply last_acquire|].
      eapply rtc_l; [apply last_check_none|].
      eapply rtc_l;
        [apply (last_create_raise PYTORCH history cs None _ false (load_failure self e))|].
      eapply rtc_l; [apply last_release|].
      apply rtc_refl.
Qed.

End PyTorchLoad.

(** ** A configuration with a [model_type]: the record is completed *)

Lemma R_eval_2100 :
  exists r : PredictResult R,
    onnx_postprocess [2; 1; 0; 0]%R = Ok r /\ label r = CRACKLE.
Proof.
  destruct (R_probs 2 [1; 0; 0]%R) as (p & Hp & Hs).
  pose proof (R_softmax_argmax _ _ Hs) as Ha. rewrite R_argmax_2100 in Ha.
  eexists {| label := CRACKLE; confidence := p 2%R; probabilities := _ |}.
  split; [|reflexivity].
  apply onnx_postprocess_Ok.
  exists (p <$> [2; 1; 0; 0]%R), 0%nat, (p 2%R), (p 1%R), (p 0%R), (p 0%R).
  repeat split; assumption || reflexivity.
Qed.

(** With the concrete runtime, [predict] of the ONNX service in
    [one_pending_world] returns a result with the label crackle. *)
Lemma demo_onnx_predict_result (x : array R) :
  exists res,
    (onnx_predict (RT := demo_runtime) x one_pending_world).1 = Ok res /\
    label res = CRACKLE.
Proof.
  destruct R_eval_2100 as (res & Hres & Hlabel).
  exists res. split; [|exact Hlabel].
  unfold onnx_predict. rewrite M_bind_unfold. cbn [emit modify].
  rewrite M_bind_unfold. cbn [get_world].
  set (w1 := set_log _ one_pending_world).
  change (_session (inference_service w1)) with (@None nat). cbn iota.
  rewrite M_bind_unfold, (onnx_load_empty (RT := demo_runtime) w1) by reflexivity.
  cbn [ort_InferenceSession demo_runtime].
  rewrite M_bind_unfold. cbn [get_world inference_service set_log set_inference_service
                              _session].
  rewrite M_bind_unfold. unfold ask. cbn [session_run demo_runtime].
  unfold lift. rewrite Hres. reflexivity.
Qed.

(** C3 at the pending record of [one_pending_world].  With the default
    [Settings] service selection raises and the record ends failed, the
    notes naming the missing attribute.  With the settings object
    [onnx_table] and a path at which no recording is stored, reading the
    waveform raises and the record ends failed, the notes being the
    string of that exception.  With [onnx_table] and the stored
    recording every step returns and the record ends completed with the
    label crackle. *)
Lemma C3_terminal_status_witness :
  hex24 "000000000000000000000001" = Some "000000000000000000000001" /\
  documents one_pending_world !! "000000000000000000000001" = Some pending_document /\
  is_Ok (Prediction_validate "000000000000000000000001" pending_document 0) = true /\
  (exists w' after,
     _process_prediction (RT := demo_runtime) default_Settings
       "000000000000000000000001" "/tmp/copd/uploads/a.wav" one_pending_world = (Ok tt, w') /\
     files w' = files one_pending_world /\
     documents w' !! "000000000000000000000001" = Some after /\
     after !! "status" = Some (VStr "failed") /\
     after !! "notes" = Some (VStr "'Settings' object has no attribute 'model_type'")) /\
  (exists w' after,
     _process_prediction (RT := demo_runtime) onnx_table
       "000000000000000000000001" "/tmp/copd/uploads/gone.wav" one_pending_world
     = (Ok tt, w') /\
     files w' = files one_pending_world /\
     documents w' !! "000000000000000000000001" = Some after /\
     after !! "status" = Some (VStr "failed") /\
     after !! "notes" = Some (VStr "/tmp/copd/uploads/gone.wav") /\
     after !! "label" = None) /\
  (exists w' after,
     _process_prediction (RT := demo_runtime) onnx_table
       "000000000000000000000001" "/tmp/copd/uploads/a.wav" one_pending_world = (Ok tt, w') /\
     files w' = files one_pending_world /\
     documents w' !! "000000000000000000000001" = Some after /\
     after !! "status" = Some (VStr "completed") /\
     after !! "label" = Some (VStr "crackle")).
Proof.
  assert (Hsvc : get_inference_service (RT := demo_runtime) onnx_table one_pending_world
                 = (Ok ONNX, one_pending_world)).
  { apply (get_inference_service_onnx (RT := demo_runtime) onnx_table "onnx");
      [reflexivity | discriminate]. }
  split; [reflexivity|]. split; [reflexivity|]. split; [reflexivity|]. split_and!.
  - destruct (C3_terminal_status (RT := demo_runtime) default_Settings
                "000000000000000000000001" "000000000000000000000001"
                "/tmp/copd/uploads/a.wav" pending_document one_pending_world
                eq_refl eq_refl eq_refl)
      as (w' & after & Hrun & Hfiles & _ & Hdoc & Hcase).
    change (get_inference_service (RT := demo_runtime) default_Settings one_pending_world)
      with (Raise (A := backend) (attribute_error "Settings" "model_type"),
            one_pending_world) in Hcase.
    destruct Hcase as (Hstatus & Hnotes & _).
    exists w', after. split_and!; assumption.
  - destruct (C3_terminal_status (RT := demo_runtime) onnx_table
                "000000000000000000000001" "000000000000000000000001"
                "/tmp/copd/uploads/gone.wav" pending_document one_pending_world
                eq_refl eq_refl eq_refl)
      as (w' & after & Hrun & Hfiles & _ & Hdoc & Hcase).
    rewrite Hsvc in Hcase.
    change (librosa_load (Runtime := demo_runtime) one_pending_world
              "/tmp/copd/uploads/gone.wav" DEFAULT_SAMPLE_RATE)
      with (Raise (A := list R) (Exn FileNotFoundError "/tmp/copd/uploads/gone.wav"))
      in Hcase.
    destruct Hcase as (Hstatus & Hnotes & Hlabel & _).
    exists w', after. split_and!; assumption.
  - destruct (C3_terminal_status (RT := demo_runtime) onnx_table
                "000000000000000000000001" "000000000000000000000001"
                "/tmp/copd/uploads/a.wav" pending_document one_pending_world
                eq_refl eq_refl eq_refl)
      as (w' & after & Hproc & Hfiles & _ & Hdoc & Hcase).
    rewrite Hsvc in Hcase.
    change (librosa_load (Runtime := demo_runtime) one_pending_world
              "/tmp/copd/uploads/a.wav" DEFAULT_SAMPLE_RATE)
      with (Ok (sample_of_byte <$> String.list_ascii_of_string "abc")) in Hcase.
    cbv beta iota zeta in Hcase.
    set (waveform := fit_length _ _) in Hcase. clearbody waveform.
    change (mel_spectrogram (Runtime := demo_runtime) waveform)
      with (Ok [waveform]) in Hcase.
    cbn [predict] in Hcase.
    destruct (demo_onnx_predict_result (Arr2 [waveform])) as (res & Hres & Hlabel).
    rewrite Hres in Hcase. destruct Hcase as (Hstatus & Hlbl & _).
    exists w', after. split_and!; try assumption.
    rewrite Hlbl, Hlabel. reflexivity.
Defined.

(** With [onnx_table] the one backend call is to the ONNX service, with
    mel-spectrogram features; with [pytorch_table], whose [model_type] is
    "PyTorch", it is to the PyTorch service, with the fitted raw
    waveform. *)
Lemma onnx_table_calls_onnx :
  exists features rest,
    log (run_inference (RT := demo_runtime) onnx_table "/tmp/copd/uploads/a.wav"
           one_pending_world).2
      = EvPredict ONNX (Arr2 features) :: rest /\
    no_predict_call rest.
Proof.
  set (raw := sample_of_byte <$> String.list_ascii_of_string "abc").
  assert (Hm : getattr onnx_table "model_type" = Ok (AStr "onnx")) by reflexivity.
  assert (Hne : str_lower "onnx" <> "pytorch") by discriminate.
  assert (Hraw : librosa_load (Runtime := demo_runtime) one_pending_world
                   "/tmp/copd/uploads/a.wav" DEFAULT_SAMPLE_RATE = Ok raw) by reflexivity.
  set (waveform := fit_length raw DEFAULT_SAMPLE_RATE).
  assert (Hmel : mel_spectrogram (Runtime := demo_runtime) waveform = Ok [waveform]).
  { clearbody waveform. reflexivity. }
  destruct (pipeline_calls_onnx (RT := demo_runtime) onnx_table "onnx"
              "/tmp/copd/uploads/a.wav" one_pending_world raw [waveform] Hm Hne Hraw Hmel)
    as (rest & Hlog & Hq).
  exists [waveform], rest. split; [exact Hlog | exact Hq].
Qed.

Lemma pytorch_table_calls_pytorch :
  exists waveform rest,
    log (run_inference (RT := demo_runtime) pytorch_table "/tmp/copd/uploads/a.wav"
           one_pending_world).2
      = EvPredict PYTORCH (Arr1 waveform) :: rest /\
    no_predict_call rest /\
    Z.of_nat (length waveform) = 80000%Z.
Proof.
  pose proof (get_inference_service_pytorch (RT := demo_runtime) pytorch_table "PyTorch"
                one_pending_world eq_refl eq_refl eq_refl) as Hsvc.
  change (pytorch_inference_service one_pending_world)
    with (@None PyTorchAudioInferenceService) in Hsvc. cbn iota in Hsvc.
  specialize (Hsvc (APath "best.pth") (APath "ICBHI_2017") eq_refl eq_refl).
  set (raw := sample_of_byte <$> String.list_ascii_of_string "abc").
  assert (Hraw : forall w : World R,
             files w = files one_pending_world ->
             librosa_load (Runtime := demo_runtime) w
               "/tmp/copd/uploads/a.wav" DEFAULT_SAMPLE_RATE = Ok raw).
  { intros w Hw. cbn [librosa_load demo_runtime]. rewrite Hw. reflexivity. }
  assert (Hm : getattr pytorch_table "model_type" = Ok (AStr "PyTorch")) by reflexivity.
  assert (Hlow : str_lower "PyTorch" = "pytorch") by reflexivity.
  destruct (pipeline_calls_pytorch (RT := demo_runtime) pytorch_table "PyTorch"
              "/tmp/copd/uploads/a.wav" one_pending_world _ raw
              Hm Hlow Hsvc (Hraw _ eq_refl))
    as (rest & Hlog & Hq).
  exists (fit_length raw DEFAULT_SAMPLE_RATE), rest.
  split; [exact Hlog|]. split; [exact Hq|].
  apply (fit_length_length (NP := R_numpy)). unfold DEFAULT_SAMPLE_RATE. lia.
Qed.

(** * Further properties *)

(** ** Post-processing: how many logits it needs *)

Section PostprocessEdges.
Context {F : Type} {NP : NumPy F}.

Lemma softmax_length (logits probs : list F) :
  _softmax logits = Ok probs -> length probs = length logits.
Proof.
  unfold _softmax. destruct (np_max logits) as [m|]; [|discriminate].
  cbn [of_option mbind result_bind]. intros Hp. injection Hp as <-.
  rewrite !length_fmap. reflexivity.
Qed.

Lemma prob_dicts_need_four (probs : list F) :
  (is_Ok (onnx_prob_dict probs enumerate_Label ∅) = true <-> 4 <= length probs) /\
  (is_Ok (pytorch_prob_dict probs enumerate_Label ∅) = true <-> 4 <= length probs).
Proof.
  assert (Hfour : 4 <= length probs <->
            exists p0 p1 p2 p3, probs !! 0 = Some p0 /\ probs !! 1 = Some p1 /\
                                probs !! 2 = Some p2 /\ probs !! 3 = Some p3).
  { split.
    - intros Hlen. destruct probs as [|p0 [|p1 [|p2 [|p3 rest]]]]; cbn in Hlen; try lia.
      exists p0, p1, p2, p3. auto.
    - intros (p0 & p1 & p2 & p3 & _ & _ & _ & H3). apply lookup_lt_Some in H3. lia. }
  split; rewrite Hfour; split.
  - destruct (onnx_prob_dict probs enumerate_Label ∅) as [d|e] eqn:Hd; [|discriminate].
    intros _. apply onnx_prob_dict_Ok in Hd as (p0 & p1 & p2 & p3 & H0 & H1 & H2 & H3 & _).
    exists p0, p1, p2, p3. auto.
  - intros (p0 & p1 & p2 & p3 & H0 & H1 & H2 & H3).
    erewrite (proj2 (onnx_prob_dict_Ok probs _)); [reflexivity|].
    exists p0, p1, p2, p3. auto.
  - destruct (pytorch_prob_dict probs enumerate_Label ∅) as [d|e] eqn:Hd; [|discriminate].
    intros _. apply pytorch_prob_dict_Ok in Hd as (p0 & p1 & p2 & p3 & H0 & H1 & H2 & H3 & _).
    exists p0, p1, p2, p3. auto.
  - intros (p0 & p1 & p2 & p3 & H0 & H1 & H2 & H3).
    erewrite (proj2 (pytorch_prob_dict_Ok probs _)); [reflexivity|].
    exists p0, p1, p2, p3. auto.
Qed.

Lemma getitem_raises {A} (a : list A) (i : nat) (e : exn) :
  getitem a i = Raise e -> exn_cls e = IndexError /\ length a <= i.
Proof.
  unfold getitem, of_option. destruct (a !! i) eqn:Hi; [discriminate|].
  intros He. injection He as <-. split; [reflexivity|]. apply lookup_ge_None, Hi.
Qed.

(** The exceptions of the dictionary loops are [IndexError]s. *)
Lemma onnx_prob_dict_raises (probs : list F) (items : list (nat * Label))
    (acc : gmap string F) (e : exn) :
  onnx_prob_dict probs items acc = Raise e -> exn_cls e = IndexError.
Proof.
  revert acc. induction items as [|[idx l] rest IH]; intros acc; cbn [onnx_prob_dict].
  - discriminate.
  - unfold getitem, of_option. destruct (probs !! idx); cbn [mbind result_bind].
    + apply IH.
    + intros He. injection He as <-. reflexivity.
Qed.

Lemma pytorch_find_raises (probs : list F) (items : list (nat * Label)) (l : Label) (e : exn) :
  pytorch_find probs items l = Raise e -> exn_cls e = IndexError.
Proof.
  induction items as [|[idx l'] rest IH]; cbn [pytorch_find].
  - discriminate.
  - case_decide; [|exact IH].
    unfold getitem, of_option. destruct (probs !! idx); [discriminate|].
    intros He. injection He as <-. reflexivity.
Qed.

Lemma pytorch_prob_dict_raises (probs : list F) (items : list (nat * Label))
    (acc : gmap string F) (e : exn) :
  pytorch_prob_dict probs items acc = Raise e -> exn_cls e = IndexError.
Proof.
  revert acc. induction items as [|[idx l] rest IH]; intros acc; cbn [pytorch_prob_dict].
  - discriminate.
  - destruct (pytorch_find probs label_mapping l) as [p|e'] eqn:Hf; cbn [mbind result_bind].
    + apply IH.
    + intros He. injection He as <-. eapply pytorch_find_raises, Hf.
Qed.

(** X1: a classifier output of fewer than four logits never
    yields a result, from either service: post-processing raises
    [ValueError] (the reductions on an empty array) or [IndexError] (an
    index of the label list or of the probabilities out of range). *)
Theorem postprocess_short_logits (b : backend) (logits : list F) :
  length logits < 4 ->
  exists e, postprocess b logits = Raise e /\
            (exn_cls e = ValueError \/ exn_cls e = IndexError).
Proof.
  intros Hlen.
  destruct b; cbn [postprocess]; unfold onnx_postprocess, pytorch_postprocess.
  - destruct (_softmax logits) as [probs|e] eqn:Hs; cbn [mbind result_bind].
    2:{ exists e. split; [reflexivity|]. left. unfold _softmax, of_option in Hs.
        destruct (np_max logits); [discriminate Hs|]. injection Hs as <-. reflexivity. }
    apply softmax_length in Hs.
    unfold argmax_idx, of_option. destruct (np_argmax probs) as [i|]; cbn [mbind result_bind].
    2:{ eexists. split; [reflexivity|]. left. reflexivity. }
    destruct (getitem Label_members i) as [l|e] eqn:Hl; cbn [mbind result_bind].
    2:{ exists e. split; [reflexivity|]. right. eapply getitem_raises, Hl. }
    destruct (getitem probs i) as [c|e] eqn:Hc; cbn [mbind result_bind].
    2:{ exists e. split; [reflexivity|]. right. eapply getitem_raises, Hc. }
    destruct (onnx_prob_dict probs enumerate_Label ∅) as [d|e] eqn:Hd; cbn [mbind result_bind].
    + exfalso. assert (Hok : is_Ok (onnx_prob_dict probs enumerate_Label ∅) = true)
        by (rewrite Hd; reflexivity).
      apply (proj1 (prob_dicts_need_four probs)) in Hok. lia.
    + exists e. split; [reflexivity|]. right. eapply onnx_prob_dict_raises, Hd.
  - destruct (_softmax logits) as [probs|e] eqn:Hs; cbn [mbind result_bind].
    2:{ exists e. split; [reflexivity|]. left. unfold _softmax, of_option in Hs.
        destruct (np_max logits); [discriminate Hs|]. injection Hs as <-. reflexivity. }
    apply softmax_length in Hs.
    unfold argmax_idx, of_option. destruct (np_argmax probs) as [i|]; cbn [mbind result_bind].
    2:{ eexists. split; [reflexivity|]. left. reflexivity. }
    destruct (pytorch_prob_dict probs enumerate_Label ∅) as [d|e] eqn:Hd;
      cbn [mbind result_bind].
    + exfalso. assert (Hok : is_Ok (pytorch_prob_dict probs enumerate_Label ∅) = true)
        by (rewrite Hd; reflexivity).
      apply (proj2 (prob_dicts_need_four probs)) in Hok. lia.
    + exists e. split; [reflexivity|]. right. eapply pytorch_prob_dict_raises, Hd.
Qed.

(** X2: when the probabilities have an argmax index [i], the
    ONNX post-processing returns a result exactly when there are at
    least four logits and [i] is below 4 (the length of the label list);
    the PyTorch post-processing exactly when there are at least four
    logits and [i] is an index of the probabilities.  So a classifier
    with more than four outputs makes the ONNX service raise whenever an
    output past the fourth wins, where the PyTorch service returns. *)
Theorem postprocess_returns_iff (logits probs : list F) (i : nat) :
  _softmax logits = Ok probs ->
  np_argmax probs = Some i ->
  (is_Ok (postprocess ONNX logits) = true <-> 4 <= length logits /\ i < 4) /\
  (is_Ok (postprocess PYTORCH logits) = true <-> 4 <= length logits /\ i < length logits).
Proof.
  intros Hs Hi. pose proof (softmax_length _ _ Hs) as Hlen.
  destruct (prob_dicts_need_four probs) as [Ho Hp]. rewrite Hlen in Ho, Hp.
  cbn [postprocess]. unfold onnx_postprocess, pytorch_postprocess.
  rewrite Hs. cbn [mbind result_bind]. unfold argmax_idx. rewrite Hi.
  cbn [of_option mbind result_bind]. split.
  - destruct (getitem Label_members i) as [l|e] eqn:Hl; cbn [mbind result_bind].
    + apply getitem_lt in Hl. change (length Label_members) with 4 in Hl.
      destruct (getitem probs i) as [c|e] eqn:Hc; cbn [mbind result_bind].
      * destruct (onnx_prob_dict probs enumerate_Label ∅) as [d|e];
          cbn [mbind result_bind is_Ok] in *.
        -- split; [intros _; split; [apply Ho; reflexivity | exact Hl] | reflexivity].
        -- split; [discriminate|]. intros [H4 _]. apply Ho in H4. discriminate H4.
      * apply getitem_raises in Hc as [_ Hc]. cbn [is_Ok]. split; [discriminate|]. lia.
    + apply getitem_raises in Hl as [_ Hl]. change (length Label_members) with 4 in Hl.
      cbn [is_Ok]. split; [discriminate|]. lia.
  - destruct (pytorch_prob_dict probs enumerate_Label ∅) as [d|e];
      cbn [mbind result_bind is_Ok] in *.
    + destruct (getitem probs i) as [c|e] eqn:Hc; cbn [mbind result_bind is_Ok].
      * apply getitem_lt in Hc.
        split; [intros _; split; [apply Hp; reflexivity | lia] | reflexivity].
      * apply getitem_raises in Hc as [_ Hc]. split; [discriminate|]. lia.
    + split; [discriminate|]. intros [H4 _]. apply Hp in H4. discriminate H4.
Qed.

End PostprocessEdges.

(** Two logits are too few for either service. *)
Lemma postprocess_short_logits_witness :
  (exists e, postprocess ONNX [1; 0]%R = Raise e /\
             (exn_cls e = ValueError \/ exn_cls e = IndexError)) /\
  (exists e, postprocess PYTORCH [1; 0]%R = Raise e /\
             (exn_cls e = ValueError \/ exn_cls e = IndexError)).
Proof.
  split.
  - apply (postprocess_short_logits ONNX [1; 0]%R). cbn. lia.
  - apply (postprocess_short_logits PYTORCH [1; 0]%R). cbn. lia.
Defined.

(** Five logits whose largest is the last: the ONNX post-processing
    raises, the PyTorch one returns. *)
Lemma postprocess_returns_iff_witness :
  exists probs : list R,
    _softmax [0; 0; 0; 0; 1]%R = Ok probs /\ np_argmax probs = Some 4 /\
    (is_Ok (postprocess ONNX [0; 0; 0; 0; 1]%R) = true <-> 4 <= 5 /\ 4 < 4) /\
    (is_Ok (postprocess PYTORCH [0; 0; 0; 0; 1]%R) = true <-> 4 <= 5 /\ 4 < 5).
Proof.
  destruct (R_probs 0 [0; 0; 0; 1]%R) as (p & _ & Hs).
  pose proof (R_softmax_argmax _ _ Hs) as Ha. rewrite R_argmax_00001 in Ha.
  eexists. split; [exact Hs|]. split; [exact Ha|].
  exact (postprocess_returns_iff [0; 0; 0; 0; 1]%R _ 4 Hs Ha).
Defined.

(** ** [load_model_with_wrapper]: the working directory and [sys.path] *)

Section LoaderEnvironment.
Context {F : Type} {NP : NumPy F} {RT : Runtime F}.

Lemma chdir_sys_path (p : string) : unchanged sys_path (chdir (F := F) p).
Proof.
  unfold chdir. apply unchanged_bind; [apply unchanged_ask|]. intros _.
  apply unchanged_modify. reflexivity.
Qed.

(** The import branch does not touch [sys.path]. *)
Lemma import_and_build_sys_path (checkpoint : Checkpoint) (model_type : option string)
    (icbhi_path_str original_cwd : string) :
  unchanged sys_path (import_and_build (F := F) checkpoint model_type icbhi_path_str original_cwd).
Proof.
  unfold import_and_build. apply unchanged_try_finally; [|apply chdir_sys_path].
  apply unchanged_bind; [apply chdir_sys_path|]. intros _.
  apply unchanged_bind; [apply unchanged_ask|]. intros _.
  apply unchanged_bind.
  { destruct (opt_eqb _ _); [apply unchanged_ask|].
    destruct (opt_eqb _ _); [apply unchanged_ask | apply unchanged_raise]. }
  intros model. apply unchanged_bind; [apply unchanged_ask|]. intros c.
  apply unchanged_mret.
Qed.

(** Where the import branch leaves the working directory: back at
    [original_cwd], unless the [os.chdir] of the [finally] clause raised. *)
Lemma import_and_build_cwd (checkpoint : Checkpoint) (model_type : option string)
    (icbhi_path_str : string) (w : World F) :
  let out := import_and_build checkpoint model_type icbhi_path_str (cwd w) w in
  (is_Ok out.1 = true -> cwd out.2 = cwd w) /\
  ((forall w0, os_chdir w0 (cwd w) = Ok tt) -> cwd out.2 = cwd w).
Proof.
  cbn zeta. unfold import_and_build, try_finally.
  assert (Hbody : forall (m : M F (nat * nat)),
            (forall w0, cwd (m w0).2 = cwd w0) ->
            let b := (chdir icbhi_path_str ≫= fun _ => m) w in
            cwd b.2 = cwd w \/ cwd b.2 = icbhi_path_str).
  { intros m Hm. cbn zeta. rewrite M_bind_unfold. unfold chdir. rewrite M_bind_unfold.
    unfold ask. destruct (os_chdir w icbhi_path_str); [|left; reflexivity].
    cbn [modify]. right. rewrite Hm. reflexivity. }
  match goal with
  | |- context [(chdir icbhi_path_str ≫= ?k) w] =>
      pose proof (Hbody (k tt)) as Hb; change (chdir icbhi_path_str ≫= k)
        with (chdir icbhi_path_str ≫= fun _ => k tt)
  end.
  cbn zeta in Hb.
  assert (Hrest : forall w0 : World F,
            cwd ((ask import_get_backbone_class ≫= fun _ =>
                  (if opt_eqb model_type "hftt"
                   then ask (fun w1 => build_backbone w1 checkpoint "hftt" icbhi_path_str)
                   else if opt_eqb model_type "beats"
                        then ask (fun w1 => build_backbone w1 checkpoint "beats" icbhi_path_str)
                        else raise (value_error ("Unsupported model type: "
                                                 +:+ opt_show model_type)))
                  ≫= fun model =>
                  ask (fun w1 => restore_state w1 checkpoint model) ≫= fun classifier =>
                  mret (model, classifier)) w0).2 = cwd w0).
  { intros w0.
    apply (unchanged_bind cwd); [apply unchanged_ask|]. intros _.
    apply unchanged_bind.
    { destruct (opt_eqb _ _); [apply unchanged_ask|].
      destruct (opt_eqb _ _); [apply unchanged_ask | apply unchanged_raise]. }
    intros model. apply unchanged_bind; [apply unchanged_ask|]. intros c.
    apply unchanged_mret. }
  specialize (Hb Hrest). clear Hbody Hrest.
  destruct ((chdir icbhi_path_str ≫= _) w) as [r w1]. cbn [fst snd] in *.
  unfold chdir. rewrite M_bind_unfold. unfold ask.
  destruct (os_chdir w1 (cwd w)) eqn:Hback; cbn [modify fst snd is_Ok].
  - split; reflexivity.
  - split; [discriminate|]. intros Hall. rewrite Hall in Hback. discriminate Hback.
Qed.

Lemma with_icbhi_on_path_cwd (icbhi_path : string) (w : World F) :
  cwd (with_icbhi_on_path icbhi_path w) = cwd w.
Proof. unfold with_icbhi_on_path. destruct (bool_decide _); reflexivity. Qed.

(** X5: [load_model_with_wrapper] changes the working
    directory only for the time of the import: when it returns the model
    and classifier the process is back in the directory it started in,
    and so it is after a failure, provided [os.chdir] back to that
    directory does not itself fail. *)
Theorem load_model_with_wrapper_restores_cwd (checkpoint_path : string) (icbhi_path : attr)
    (use_icbhi_import : bool) (w : World F) :
  let out := load_model_with_wrapper checkpoint_path icbhi_path use_icbhi_import w in
  (is_Ok out.1 = true -> cwd out.2 = cwd w) /\
  ((forall w0, os_chdir w0 (cwd w) = Ok tt) -> cwd out.2 = cwd w).
Proof.
  cbn zeta. rewrite load_model_with_wrapper_eval.
  destruct (torch_load w checkpoint_path ≫= checkpoint_get) as [checkpoint|e];
    [|split; reflexivity].
  destruct (import_guard icbhi_path use_icbhi_import w) as [[|]|e];
    [|split; reflexivity|split; reflexivity].
  destruct (icbhi_absolute icbhi_path w) as [icbhi_path_str|e];
    [|split; reflexivity].
  cbn zeta.
  pose proof (import_and_build_cwd checkpoint
                (match ckpt_args checkpoint with Some a => args_model a | None => None end)
                icbhi_path_str
                (with_icbhi_on_path icbhi_path_str w)) as Hcwd.
  cbn zeta in Hcwd. rewrite with_icbhi_on_path_cwd in Hcwd.
  rewrite with_icbhi_on_path_cwd.
  destruct (import_and_build _ _ _ _ _) as [[mc|e] w2]; cbn [fst snd is_Ok] in *.
  - exact Hcwd.
  - split; [discriminate|]. apply Hcwd.
Qed.

(** X6: [load_model_with_wrapper] adds at most one entry to
    [sys.path], the absolute ICBHI_2017 path, in front, and only if that
    path is not on it yet: a list without repeats stays without
    repeats.  Once the checkpoint dictionary is read and the import is
    attempted (the test of line 112 is true and the absolute path is
    made), the path is on [sys.path] afterwards, also when the import
    failed. *)
Theorem load_model_with_wrapper_sys_path (checkpoint_path : string) (icbhi_path : attr)
    (use_icbhi_import : bool) (w : World F) :
  let w' := (load_model_with_wrapper checkpoint_path icbhi_path use_icbhi_import w).2 in
  (sys_path w' = sys_path w \/
   exists entry,
     icbhi_absolute icbhi_path w = Ok entry /\
     (entry ∉ sys_path w) /\ sys_path w' = entry :: sys_path w) /\
  (NoDup (sys_path w) -> NoDup (sys_path w')) /\
  (forall checkpoint entry,
     torch_load w checkpoint_path = Ok (PickledDict checkpoint) ->
     import_guard icbhi_path use_icbhi_import w = Ok true ->
     icbhi_absolute icbhi_path w = Ok entry ->
     entry ∈ sys_path w').
Proof.
  cbn zeta. rewrite load_model_with_wrapper_eval.
  destruct (torch_load w checkpoint_path) as [[checkpoint|type_name]|e];
    cbn [mbind result_bind checkpoint_get snd].
  2,3: split_and!; [left; reflexivity | auto | intros c entry H; discriminate H].
  destruct (import_guard icbhi_path use_icbhi_import w) as [[|]|e]; cbn [snd].
  2,3: split_and!; [left; reflexivity | auto | intros c entry _ H; discriminate H].
  destruct (icbhi_absolute icbhi_path w) as [icbhi_path_str|e]; cbn [snd].
  2:{ split_and!; [left; reflexivity | auto | intros c entry _ _ H; discriminate H]. }
  cbn zeta.
  match goal with
  | |- context [import_and_build ?c ?m ?p ?o ?w1] =>
      pose proof (import_and_build_sys_path c m p o w1) as Hsame;
      destruct (import_and_build c m p o w1) as [[mc|e] w2]
  end; cbn [snd] in *; rewrite Hsame; clear Hsame;
    unfold with_icbhi_on_path;
    destruct (bool_decide (icbhi_path_str ∈ sys_path w)) eqn:Hmem;
    cbn [sys_path set_sys_path];
    try (apply bool_decide_eq_true in Hmem); try (apply bool_decide_eq_false in Hmem);
    (split_and!;
     [ first [left; reflexivity
             | right; exists icbhi_path_str; split_and!; [reflexivity | exact Hmem | reflexivity]]
     | intros Hnd; first [exact Hnd | apply NoDup_cons; split; assumption]
     | intros c entry _ _ Hentry; injection Hentry as <-;
       first [exact Hmem | apply elem_of_cons; left; reflexivity] ]).
Qed.

End LoaderEnvironment.

(** The checkpoint world: the model comes back and the working directory
    is [/app] as before. *)
Lemma load_model_with_wrapper_restores_cwd_witness :
  is_Ok (load_model_with_wrapper (RT := demo_runtime) "best.pth" (APath "ICBHI_2017") true
           checkpoint_world).1 = true /\
  cwd (load_model_with_wrapper (RT := demo_runtime) "best.pth" (APath "ICBHI_2017") true
         checkpoint_world).2 = "/app".
Proof.
  split; [reflexivity|].
  apply (load_model_with_wrapper_restores_cwd (RT := demo_runtime) "best.pth"
           (APath "ICBHI_2017") true checkpoint_world).
  reflexivity.
Defined.

(** The checkpoint world: the directory is put on the empty [sys.path]. *)
Lemma load_model_with_wrapper_sys_path_witness :
  NoDup (sys_path (load_model_with_wrapper (RT := demo_runtime) "best.pth"
                     (APath "ICBHI_2017") true checkpoint_world).2) /\
  "ICBHI_2017" ∈ sys_path (load_model_with_wrapper (RT := demo_runtime) "best.pth"
                             (APath "ICBHI_2017") true checkpoint_world).2.
Proof.
  destruct (load_model_with_wrapper_sys_path (RT := demo_runtime) "best.pth"
              (APath "ICBHI_2017") true checkpoint_world) as (_ & Hnd & Hin).
  split.
  - apply Hnd. apply NoDup_nil_2.
  - eapply Hin; reflexivity.
Defined.

(** ** Loading, one call at a time: what a failure leaves behind *)

Section LoadOutcomes.
Context {F : Type} {NP : NumPy F} {RT : Runtime F}.

(** X7: [load] of the ONNX service is all or nothing.  If it
    raises, nothing has changed, so the service still has no session and
    the next call tries again; if it returns, there is a session and
    further calls of [load] do nothing. *)
Theorem onnx_load_all_or_nothing (w : World F) :
  match onnx_load w with
  | (Raise e, w') => w' = w /\ onnx_session w = None
  | (Ok _, w') =>
      is_Some (onnx_session w') /\
      onnx_load w' = (Ok tt, w') /\
      (is_Some (onnx_session w) -> w' = w)
  end.
Proof.
  unfold onnx_session.
  destruct (_session (inference_service w)) as [s|] eqn:Hs.
  - rewrite (onnx_load_loaded w s Hs). split_and!; [rewrite Hs; eauto | | reflexivity].
    apply (onnx_load_loaded w s Hs).
  - rewrite (onnx_load_empty w Hs).
    destruct (ort_InferenceSession w _) as [s|e]; [|split; reflexivity].
    split_and!.
    + cbn. eauto.
    + apply (onnx_load_loaded _ s). reflexivity.
    + intros [x Hx]. discriminate Hx.
Qed.

(** X8: whatever goes wrong inside [load] of
    the PyTorch service (reading the model information, reading the
    checkpoint, the import, moving the model to the device), the caller
    sees a [RuntimeError], and only after nothing was loaded before. *)
Theorem pytorch_load_raises_RuntimeError (w w' : World F) (e : exn) :
  is_Some (pytorch_inference_service w) ->
  pytorch_load w = (Raise e, w') ->
  exn_cls e = RuntimeError /\ pytorch_model w = None.
Proof.
  intros [self Hself] Hload.
  destruct (pytorch_model w) as [mdl|] eqn:Hm.
  { rewrite (pytorch_load_loaded w mdl Hm) in Hload. discriminate Hload. }
  assert (Hnone : _model self = None).
  { unfold pytorch_model in Hm. rewrite Hself in Hm. exact Hm. }
  rewrite (pytorch_load_empty w self Hself Hnone) in Hload.
  split; [|reflexivity].
  destruct (loader_get_model_info w _ _) as [info|e0].
  - cbn zeta in Hload.
    destruct (load_model_with_wrapper _ _ _ _) as [[mc|e1] w2].
    + destruct (to_device_eval _ _ _) as [u|e2]; [discriminate Hload|].
      injection Hload as <- _. reflexivity.
    + injection Hload as <- _. reflexivity.
  - injection Hload as <- _. reflexivity.
Qed.

(** X9: [load] of the PyTorch service assigns the
    model and classifier before it moves them to the device and sets
    evaluation mode.  When that last step raises, [load] raises
    [RuntimeError] but the model stays assigned: the next [load] returns
    at once without building or preparing anything, so later predictions
    run on the model as the failed call left it. *)
Theorem pytorch_load_half_loaded (w w2 : World F) (self : PyTorchAudioInferenceService)
    (info : nat) (mc : nat * nat) (e : exn) :
  pytorch_inference_service w = Some self ->
  _model self = None ->
  loader_get_model_info w (pt_model_path self) (pt_icbhi_path self) = Ok info ->
  load_model_with_wrapper (attr_str (pt_model_path self)) (pt_icbhi_path self) true
    (set_pytorch_inference_service
       (Some {| pt_model_path := pt_model_path self; pt_icbhi_path := pt_icbhi_path self;
                _model := None; _classifier := _classifier self;
                _model_info := Some info |}) w) = (Ok mc, w2) ->
  (forall w0, to_device_eval w0 mc.1 mc.2 = Raise e) ->
  exists w',
    pytorch_load w = (Raise (load_failure self e), w') /\
    pytorch_model w' = Some mc.1 /\
    (pytorch_inference_service w' ≫= _classifier) = Some mc.2 /\
    pytorch_load w' = (Ok tt, w') /\
    forall x, (pytorch_predict x w').2 = set_log (log w' ++ [EvPredict PYTORCH x]) w'.
Proof.
  intros Hself Hnone Hinfo Hwrap Hdev.
  rewrite (pytorch_load_empty w self Hself Hnone), Hinfo. cbn zeta.
  rewrite Hwrap, Hdev.
  eexists. split; [reflexivity|].
  assert (Hm : forall w3 : World F,
            pytorch_model
              (set_log (log w3 ++ [EvModelLoaded mc.1 mc.2])
                 (set_pytorch_inference_service
                    (Some {| pt_model_path := pt_model_path self;
                             pt_icbhi_path := pt_icbhi_path self;
                             _model := Some mc.1; _classifier := Some mc.2;
                             _model_info := Some info |}) w2)) = Some mc.1)
    by reflexivity.
  split_and!.
  - reflexivity.
  - reflexivity.
  - apply (pytorch_load_loaded _ mc.1). reflexivity.
  - intros x. unfold pytorch_predict. rewrite M_bind_unfold. cbn [emit modify].
    rewrite M_bind_unfold. unfold pt_self at 1. rewrite M_bind_unfold.
    cbn [get_world lift pytorch_inference_service set_log set_pytorch_inference_service
         of_option _model].
    rewrite M_bind_unfold. cbn [mret M_ret].
    rewrite M_bind_unfold. unfold pt_self at 1. rewrite M_bind_unfold.
    cbn [get_world lift pytorch_inference_service set_log set_pytorch_inference_service
         of_option _model _classifier].
    rewrite M_bind_unfold. unfold ask.
    destruct (torch_forward _ _ _ _) as [logits|e']; reflexivity.
Qed.

(** X10: [get_pytorch_inference_service] makes the service
    object on the first call that succeeds and returns that same object
    ever after: a later call changes nothing and does not read the
    settings, whatever they have become. *)
Theorem get_pytorch_inference_service_singleton {S S'} {SO : SettingsObject S}
    {SO' : SettingsObject S'} (settings : S) (settings' : S') (w w' : World F) (b : backend) :
  get_pytorch_inference_service settings w = (Ok b, w') ->
  b = PYTORCH /\
  is_Some (pytorch_inference_service w') /\
  (is_Some (pytorch_inference_service w) -> w' = w) /\
  (pytorch_inference_service w = None ->
   exists mp ip,
     getattr settings "model_path" = Ok mp /\ getattr settings "icbhi_path" = Ok ip /\
     w' = set_pytorch_inference_service
            (Some {| pt_model_path := mp; pt_icbhi_path := ip; _model := None;
                     _classifier := None; _model_info := None |}) w) /\
  get_pytorch_inference_service settings' w' = (Ok PYTORCH, w').
Proof.
  unfold get_pytorch_inference_service at 1. rewrite M_bind_unfold. cbn [get_world].
  destruct (pytorch_inference_service w) as [svc|] eqn:Hsvc.
  - intros Hr. injection Hr as <- <-. split_and!.
    + reflexivity.
    + rewrite Hsvc. eauto.
    + reflexivity.
    + discriminate.
    + unfold get_pytorch_inference_service. rewrite M_bind_unfold. cbn [get_world].
      rewrite Hsvc. reflexivity.
  - rewrite M_bind_unfold. unfold new_PyTorchAudioInferenceService.
    rewrite M_bind_unfold. unfold lift at 1.
    destruct (getattr settings "model_path") as [mp|e]; [|discriminate].
    rewrite M_bind_unfold. unfold lift at 1.
    destruct (getattr settings "icbhi_path") as [ip|e]; [|discriminate].
    cbn [mret M_ret]. rewrite M_bind_unfold. cbn [modify mret M_ret].
    intros Hr. injection Hr as <- <-. split_and!.
    + reflexivity.
    + cbn. eauto.
    + intros [x Hx]. discriminate Hx.
    + intros _. exists mp, ip. auto.
    + reflexivity.
Qed.

(** X11: with the [Settings] class as declared, the
    PyTorch service object cannot be made: its constructor reads
    [settings.icbhi_path], which [Settings] does not have, so
    [get_pytorch_inference_service] raises [AttributeError] and the
    global stays unset, on every call. *)
Theorem Settings_cannot_make_pytorch_service (s : Settings) (w : World F) :
  pytorch_inference_service w = None ->
  new_PyTorchAudioInferenceService s w =
    (Raise (attribute_error "Settings" "icbhi_path"), w) /\
  get_pytorch_inference_service s w =
    (Raise (attribute_error "Settings" "icbhi_path"), w) /\
  pytorch_inference_service (get_pytorch_inference_service s w).2 = None.
Proof.
  intros Hnone.
  assert (Hnew : new_PyTorchAudioInferenceService s w =
                 (Raise (attribute_error "Settings" "icbhi_path"), w)) by reflexivity.
  assert (Hget : get_pytorch_inference_service s w =
                 (Raise (attribute_error "Settings" "icbhi_path"), w)).
  { unfold get_pytorch_inference_service. rewrite M_bind_unfold. cbn [get_world].
    rewrite Hnone. rewrite M_bind_unfold, Hnew. reflexivity. }
  split; [exact Hnew|]. split; [exact Hget|]. rewrite Hget. exact Hnone.
Qed.

End LoadOutcomes.

(** The PyTorch service in the checkpoint world, where moving the model
    to the device fails: what [load] raises is a [RuntimeError]. *)
Lemma pytorch_load_raises_RuntimeError_witness :
  exists e w',
    pytorch_load (RT := failing_device_runtime) pytorch_service_world = (Raise e, w') /\
    exn_cls e = RuntimeError /\ pytorch_model pytorch_service_world = None.
Proof.
  eexists. eexists. split; [vm_compute; reflexivity|].
  eapply (pytorch_load_raises_RuntimeError (RT := failing_device_runtime)
            pytorch_service_world).
  - eexists. reflexivity.
  - vm_compute. reflexivity.
Defined.

(** Where moving to the device fails, the model 2 and the classifier 3
    stay assigned after the failed [load]. *)
Lemma pytorch_load_half_loaded_witness :
  exists w',
    (pytorch_load (RT := failing_device_runtime) pytorch_service_world).2 = w' /\
    is_Ok (pytorch_load (RT := failing_device_runtime) pytorch_service_world).1 = false /\
    pytorch_model w' = Some 2 /\
    pytorch_load (RT := failing_device_runtime) w' = (Ok tt, w').
Proof.
  destruct (pytorch_load_half_loaded (RT := failing_device_runtime) pytorch_service_world
              (load_model_with_wrapper (RT := failing_device_runtime) "best.pth"
                 (APath "ICBHI_2017") true
                 (set_pytorch_inference_service
                    (Some {| pt_model_path := APath "best.pth";
                             pt_icbhi_path := APath "ICBHI_2017";
                             _model := None; _classifier := None;
                             _model_info := Some 0 |}) pytorch_service_world)).2
              {| pt_model_path := APath "best.pth"; pt_icbhi_path := APath "ICBHI_2017";
                 _model := None; _classifier := None; _model_info := None |}
              0 (2, 3) (Exn OtherException "CUDA error"))
    as (w' & Hload & Hm & _ & Hagain & _).
  - reflexivity.
  - reflexivity.
  - reflexivity.
  - vm_compute. reflexivity.
  - intros w0. reflexivity.
  - exists w'. rewrite Hload. split_and!; [reflexivity | reflexivity | exact Hm | exact Hagain].
Defined.

(** The service made from [pytorch_table] is kept when the settings
    later are [onnx_table]. *)
Lemma get_pytorch_inference_service_singleton_witness :
  exists w',
    get_pytorch_inference_service (F := R) pytorch_table
      (initial_world default_Settings) = (Ok PYTORCH, w') /\
    is_Some (pytorch_inference_service w') /\
    get_pytorch_inference_service (F := R) onnx_table w' = (Ok PYTORCH, w').
Proof.
  assert (Hrun : exists w', get_pytorch_inference_service (F := R) pytorch_table
                              (initial_world default_Settings) = (Ok PYTORCH, w')).
  { eexists. unfold get_pytorch_inference_service. rewrite M_bind_unfold. cbn [get_world].
    cbn [pytorch_inference_service initial_world]. rewrite M_bind_unfold.
    unfold new_PyTorchAudioInferenceService. rewrite M_bind_unfold. unfold lift at 1.
    assert (Hmp : getattr pytorch_table "model_path" = Ok (APath "best.pth")) by reflexivity.
    rewrite Hmp. rewrite M_bind_unfold. unfold lift at 1.
    assert (Hip : getattr pytorch_table "icbhi_path" = Ok (APath "ICBHI_2017"))
      by reflexivity.
    rewrite Hip. reflexivity. }
  destruct Hrun as (w' & Hrun). exists w'. split; [exact Hrun|].
  destruct (get_pytorch_inference_service_singleton (F := R)
              pytorch_table onnx_table _ _ _ Hrun) as (_ & Hsome & _ & _ & Hagain).
  split; assumption.
Defined.

(** The default settings in the initial world. *)
Lemma Settings_cannot_make_pytorch_service_witness :
  get_pytorch_inference_service (F := R) default_Settings
    (initial_world default_Settings) =
    (Raise (attribute_error "Settings" "icbhi_path"), initial_world default_Settings).
Proof.
  apply (Settings_cannot_make_pytorch_service (F := R) default_Settings
           (initial_world default_Settings) eq_refl).
Defined.

(** ** Interleaved calls: the loaded object in use, and progress *)

Lemma running_inv_step (b : backend) (st st' : Service) :
  lock_inv st -> running_inv st -> step b st st' -> running_inv st'.
Proof.
  intros (_ & Hcreate & _) Hinv Hstep. unfold running_inv, at_pc in *.
  destruct Hstep; cbn [loaded coroutines goto]; intros j hj Hj;
    try (apply lookup_snoc_cases in Hj as [Hj | [_ Hq]];
         [exact (Hinv j hj Hj) | discriminate Hq]);
    try (apply lookup_insert_cases in Hj as [[-> Hq] | [Hne Hj]];
         [try discriminate Hq | try exact (Hinv j hj Hj)]).
  - (* create: nothing was loaded, so nobody was running *)
    pose proof (Hinv j hj Hj) as Hl. unfold at_pc in Hcreate.
    rewrite (Hcreate i ip ltac:(eassumption)) in Hl. discriminate Hl.
  - destruct r, ip; discriminate Hq.
  - injection Hq as ->. assumption.
Qed.

Lemma running_inv_reachable (b : backend) (st : Service) : reachable b st -> running_inv st.
Proof.
  unfold reachable. intros Hr.
  assert (Hboth : lock_inv st /\ running_inv st).
  { revert st Hr. apply rtc_ind_r.
    - split; [apply lock_inv_fresh|]. intros i h Hi. discriminate Hi.
    - intros st st' _ Hstep [Hlock Hrun]. split.
      + eapply lock_inv_step; eassumption.
      + eapply running_inv_step; eassumption. }
  apply Hboth.
Qed.

(** X12: under every interleaving of [predict] and [load]
    calls on one service object, the assertion after [load] finds the
    object loaded, every inference that runs uses the loaded object, and
    so all of them use the same one. *)
Theorem running_uses_the_loaded_object (b : backend) (st : Service) :
  reachable b st ->
  (forall i, at_pc st i AtAssert -> is_Some (loaded st)) /\
  (forall i h, at_pc st i (Running h) -> loaded st = Some h) /\
  (forall i j h h', at_pc st i (Running h) -> at_pc st j (Running h') -> h = h').
Proof.
  intros Hr. pose proof (running_inv_reachable b st Hr) as Hrun. split_and!.
  - intros i Hi. apply (loaded_inv_reachable b st Hr i AtAssert Hi). reflexivity.
  - exact Hrun.
  - intros i j h h' Hi Hj. pose proof (Hrun i h Hi). pose proof (Hrun j h' Hj). congruence.
Qed.

Lemma holder_inv_step (b : backend) (st st' : Service) :
  holder_inv st -> step b st st' -> holder_inv st'.
Proof.
  intros Hinv Hstep. unfold holder_inv, at_pc in *.
  assert (Hkeep : forall i j q p,
            coroutines st !! j = Some q ->
            (in_block q = true -> in_block p = true) ->
            lock_holder st = Some i ->
            exists p', <[j := p]> (coroutines st) !! i = Some p' /\ in_block p' = true).
  { intros i j q p Hj Hblock Hi. destruct (Hinv i Hi) as (p0 & Hp0 & Hin).
    destruct (decide (i = j)) as [->|Hne].
    - exists p. split.
      + apply list_lookup_insert_eq. apply lookup_lt_Some in Hj. exact Hj.
      + apply Hblock. congruence.
    - exists p0. split; [|exact Hin].
      rewrite list_lookup_insert_ne by congruence. exact Hp0. }
  destruct Hstep; cbn [lock_holder coroutines goto]; intros k Hk;
    try (destruct (Hinv k Hk) as (p0 & Hp0 & Hin); exists p0;
         split; [apply lookup_app_l_Some; exact Hp0 | exact Hin]);
    try (eapply Hkeep; [eassumption | cbn; congruence | exact Hk]).
  - (* acquire *)
    injection Hk as <-. exists (AtCheck ip). split; [|reflexivity].
    apply list_lookup_insert_eq. eapply lookup_lt_Some. eassumption.
  - (* release *)
    discriminate Hk.
Qed.

Lemma holder_inv_reachable (b : backend) (st : Service) : reachable b st -> holder_inv st.
Proof.
  unfold reachable. revert st. apply rtc_ind_r.
  - intros i Hi. discriminate Hi.
  - intros st st' _ Hstep Hinv. eapply holder_inv_step; eassumption.
Qed.

(** A coroutine inside the block can always take its next step. *)
Lemma in_block_can_step (b : backend) (st : Service) (i : nat) (p : pc) :
  at_pc st i p -> in_block p = true ->
  exists st' p', step b st st' /\ coroutines st' = <[i := p']> (coroutines st) /\ p' <> p.
Proof.
  intros Hi Hin. destruct p as [|ip|ip|ip|ip|ip r| | |]; try discriminate Hin.
  - destruct (loaded st) as [h|] eqn:Hl.
    + eexists. exists (AtRelease ip None). split; [eapply step_check_some; eassumption|].
      split; [reflexivity | discriminate].
    + eexists. exists (AtCreate ip). split; [eapply step_check_none; eassumption|].
      split; [reflexivity | discriminate].
  - eexists. exists (AtFinish ip). split; [eapply (step_create_ok b st i ip 0); eassumption|].
    split; [reflexivity | discriminate].
  - eexists. exists (AtRelease ip None). split; [eapply step_finish_ok; eassumption|].
    split; [reflexivity | discriminate].
  - eexists. exists (after_load ip r). split; [eapply step_release; eassumption|].
    split; [reflexivity|]. destruct r, ip; discriminate.
Qed.

(** X13: the lock never deadlocks the service.  In every
    state that interleaved [predict] and [load] calls reach, as long as
    some call has not finished, some call already under way can take a
    step: a call waiting for the lock waits for a holder that is inside
    the block and can always move on to release it. *)
Theorem lazy_loading_never_deadlocks (b : backend) (st : Service) (i : nat) (p : pc) :
  reachable b st ->
  at_pc st i p -> unfinished p = true ->
  exists st' j q q',
    step b st st' /\ at_pc st j q /\
    coroutines st' = <[j := q']> (coroutines st) /\ q' <> q /\
    ((forall ip, p <> AtAcquire ip) -> j = i).
Proof.
  intros Hr Hi Hun. pose proof (holder_inv_reachable b st Hr) as Hhold.
  destruct (in_block p) eqn:Hin.
  { destruct (in_block_can_step b st i p Hi Hin) as (st' & p' & Hstep & Hco & Hne).
    exists st', i, p, p'. split_and!; auto. }
  destruct p as [|ip|ip|ip|ip|ip r| |h|r]; try discriminate Hin; try discriminate Hun.
  - destruct (loaded st) as [h|] eqn:Hl.
    + eexists. exists i, AtPredict, AtAssert.
      split; [eapply step_predict_some; eassumption|].
      split_and!; [exact Hi | reflexivity | discriminate | auto].
    + eexists. exists i, AtPredict, (AtAcquire true).
      split; [eapply step_predict_none; eassumption|].
      split_and!; [exact Hi | reflexivity | discriminate | auto].
  - destruct (lock_holder st) as [j|] eqn:Hlock.
    + destruct (Hhold j Hlock) as (q & Hj & Hq).
      destruct (in_block_can_step b st j q Hj Hq) as (st' & q' & Hstep & Hco & Hne).
      exists st', j, q, q'. split_and!; auto.
      intros Hp. exfalso. apply (Hp ip). reflexivity.
    + eexists. exists i, (AtAcquire ip), (AtCheck ip).
      split; [eapply step_acquire; eassumption|].
      split_and!; [exact Hi | reflexivity | discriminate |].
      intros _. reflexivity.
  - destruct (loaded st) as [h|] eqn:Hl.
    + eexists. exists i, AtAssert, (Running h).
      split; [eapply step_assert_some; eassumption|].
      split_and!; [exact Hi | reflexivity | discriminate | auto].
    + eexists. exists i, AtAssert, (Finished (Some assertion_error)).
      split; [eapply step_assert_none; eassumption|].
      split_and!; [exact Hi | reflexivity | discriminate | auto].
  - eexists. exists i, (Running h), (Finished None).
    split; [eapply (step_run b st i h None); eassumption|].
    split_and!; [exact Hi | reflexivity | discriminate | auto].
Qed.

Lemma contended_service_reachable : reachable ONNX contended_service.
Proof.
  unfold reachable, contended_service.
  eapply rtc_l; [apply step_call_predict|].
  eapply rtc_l; [apply step_call_predict|].
  eapply rtc_l; [apply (step_predict_none ONNX _ 0); reflexivity|].
  eapply rtc_l; [apply (step_predict_none ONNX _ 1); reflexivity|].
  eapply rtc_l; [apply (step_acquire ONNX _ 0 true); reflexivity|].
  apply rtc_refl.
Qed.

Lemma two_running_service_reachable : reachable ONNX two_running_service.
Proof.
  unfold reachable. eapply rtc_trans; [apply loaded_service_reachable|].
  unfold loaded_service, two_running_service.
  eapply rtc_l; [apply step_call_predict|].
  eapply rtc_l; [apply (step_predict_some ONNX _ 1 7); reflexivity|].
  eapply rtc_l; [apply (step_assert_some ONNX _ 0 7); reflexivity|].
  eapply rtc_l; [apply (step_assert_some ONNX _ 1 7); reflexivity|].
  apply rtc_refl.
Qed.

(** Two calls past the assertion run with the one session 7. *)
Lemma running_uses_the_loaded_object_witness :
  reachable ONNX two_running_service /\
  loaded two_running_service = Some 7 /\
  (forall i j h h', at_pc two_running_service i (Running h) ->
                    at_pc two_running_service j (Running h') -> h = h').
Proof.
  destruct (running_uses_the_loaded_object ONNX two_running_service
              two_running_service_reachable) as (_ & Hrun & Hsame).
  split; [exact two_running_service_reachable|].
  split; [apply (Hrun 0 7); reflexivity | exact Hsame].
Defined.

(** The second call waits for the lock; the first, which holds it, can
    step. *)
Lemma lazy_loading_never_deadlocks_witness :
  reachable ONNX contended_service /\
  at_pc contended_service 1 (AtAcquire true) /\
  exists st' j q q',
    step ONNX contended_service st' /\ at_pc contended_service j q /\
    coroutines st' = <[j := q']> (coroutines contended_service) /\ q' <> q.
Proof.
  split; [exact contended_service_reachable|]. split; [reflexivity|].
  destruct (lazy_loading_never_deadlocks ONNX contended_service 1 (AtAcquire true)
              contended_service_reachable eq_refl eq_refl)
    as (st' & j & q & q' & Hstep & Hj & Hco & Hne & _).
  exists st', j, q, q'. auto.
Defined.

(** ** [list_recent] *)

Section ListRecentFacts.
Context {F : Type} {NP : NumPy F} {RT : Runtime F} {CU : Cursor F}.

Lemma to_Prediction_eval (id : string) (doc : gmap string (value F)) (w : World F) :
  to_Prediction id doc w = (Prediction_validate id doc (clock w), w).
Proof. reflexivity. Qed.

(** The loop reads every document or stops at the first that fails
    validation; either way the world is untouched. *)
Lemma read_cursor_eval (cursor : list (string * gmap string (value F))) (w : World F) :
  match read_cursor cursor w with
  | (Ok ps, w') =>
      w' = w /\
      Forall2 (fun c p => Prediction_validate c.1 c.2 (clock w) = Ok p) cursor ps
  | (Raise e, w') =>
      w' = w /\
      exists before c after ps,
        cursor = (before ++ c :: after)%list /\
        Forall2 (fun c p => Prediction_validate c.1 c.2 (clock w) = Ok p) before ps /\
        Prediction_validate c.1 c.2 (clock w) = Raise e
  end.
Proof.
  induction cursor as [|[oid doc] rest IH]; cbn [read_cursor].
  - cbn. split; [reflexivity | constructor].
  - rewrite M_bind_unfold, to_Prediction_eval.
    destruct (Prediction_validate oid doc (clock w)) as [p|e] eqn:Hv.
    + rewrite M_bind_unfold.
      destruct (read_cursor rest w) as [[ps|e] w1].
      * destruct IH as [-> Hall]. cbn [mret M_ret]. split; [reflexivity|].
        constructor; [exact Hv | exact Hall].
      * destruct IH as [-> (before & c & after & ps & -> & Hall & Hbad)].
        split; [reflexivity|].
        exists ((oid, doc) :: before), c, after, (p :: ps).
        split; [reflexivity|]. split; [|exact Hbad].
        constructor; [exact Hv | exact Hall].
    + split; [reflexivity|]. exists [], (oid, doc), rest, [].
      split; [reflexivity|]. split; [constructor | exact Hv].
Qed.

(** X14: listing changes nothing.  If the cursor yields
    stored documents under ids that are valid ObjectId strings,
    [list_predictions] (that is [list_recent], with 20 for a limit that
    is not given) returns one record per document of the cursor, in the
    cursor's order, each the record [get] returns for that id; and it
    raises, returning no list at all, exactly when [get] raises for one
    of the ids: a single stored document that fails validation makes
    every listing that reaches it fail. *)
Theorem list_recent_agrees_with_get (limit : option Z) (w : World F) :
  let cursor := find_sort_limit w (default 20%Z limit) in
  (forall oid doc, (oid, doc) ∈ cursor ->
     documents w !! oid = Some doc /\ ObjectId oid = Some oid) ->
  match list_predictions limit w with
  | (Ok ps, w') =>
      w' = w /\
      length ps = length cursor /\
      forall k p, ps !! k = Some p ->
        exists oid doc,
          cursor !! k = Some (oid, doc) /\
          p_id p = oid /\ get oid w = (Ok (Some p), w)
  | (Raise e, w') =>
      w' = w /\
      exists oid doc, (oid, doc) ∈ cursor /\ get oid w = (Raise e, w)
  end.
Proof.
  cbn zeta. intros Hsound. unfold list_predictions, list_recent.
  rewrite M_bind_unfold. cbn [get_world].
  pose proof (read_cursor_eval (find_sort_limit w (default 20%Z limit)) w) as Hread.
  destruct (read_cursor (find_sort_limit w (default 20%Z limit)) w) as [[ps|e] w'].
  - destruct Hread as [-> Hall]. split; [reflexivity|].
    split; [symmetry; eapply Forall2_length, Hall|].
    intros k p Hk.
    destruct (Forall2_lookup_r _ _ _ _ _ Hall Hk) as ([oid doc] & Hc & Hv).
    cbn [fst snd] in Hv.
    destruct (Hsound oid doc (list_elem_of_lookup_2 _ _ _ Hc)) as [Hdoc Hoid].
    exists oid, doc. split; [exact Hc|]. split.
    + apply Prediction_validate_Ok in Hv. apply Hv.
    + rewrite get_eval, Hoid, Hdoc, Hv. reflexivity.
  - destruct Hread as [-> (before & [oid doc] & after & ps & Hcur & _ & Hbad)].
    split; [reflexivity|]. exists oid, doc.
    assert (Hin : (oid, doc) ∈ find_sort_limit w (default 20%Z limit)).
    { rewrite Hcur. apply elem_of_app. right. apply elem_of_cons. left. reflexivity. }
    split; [exact Hin|].
    destruct (Hsound oid doc Hin) as [Hdoc Hoid]. cbn [fst snd] in Hbad.
    rewrite get_eval, Hoid, Hdoc, Hbad. reflexivity.
Qed.

End ListRecentFacts.

(** The world with one pending record, listed with the default limit:
    the one record, the same that [get] returns. *)
Lemma list_recent_agrees_with_get_witness :
  exists p,
    list_predictions (CU := demo_cursor) None one_pending_world
      = (Ok [p], one_pending_world) /\
    p_status p = PENDING /\
    get (RT := demo_runtime) "000000000000000000000001" one_pending_world
      = (Ok (Some p), one_pending_world).
Proof.
  assert (Hcur : find_sort_limit (Cursor := demo_cursor) one_pending_world 20
                 = [("000000000000000000000001", pending_document)]).
  { cbn [find_sort_limit demo_cursor]. unfold one_pending_world.
    cbn [documents set_clock set_documents]. rewrite map_to_list_singleton. reflexivity. }
  pose proof (list_recent_agrees_with_get (RT := demo_runtime) (CU := demo_cursor)
                None one_pending_world) as Hlist.
  cbn zeta in Hlist. cbn [default] in Hlist. rewrite Hcur in Hlist.
  assert (Hsound : forall oid doc,
            (oid, doc) ∈ [("000000000000000000000001", pending_document)] ->
            documents one_pending_world !! oid = Some doc /\
            ObjectId (Runtime := demo_runtime) oid = Some oid).
  { intros oid doc Hin. apply list_elem_of_singleton in Hin. injection Hin as -> ->.
    split; reflexivity. }
  specialize (Hlist Hsound).
  destruct (list_predictions (CU := demo_cursor) None one_pending_world)
    as [[ps|e] w'] eqn:Hrun.
  - destruct Hlist as (-> & Hlen & Hget).
    destruct ps as [|p [|p' ps]]; try discriminate Hlen.
    destruct (Hget 0 p eq_refl) as (oid & doc & Hk & _ & Hp).
    injection Hk as <- <-.
    exists p. split; [reflexivity|]. split; [|exact Hp].
    rewrite get_eval in Hp. cbn in Hp. injection Hp as <-. reflexivity.
  - exfalso. destruct Hlist as (_ & oid & doc & Hin & Hget).
    apply list_elem_of_singleton in Hin. injection Hin as -> ->.
    rewrite get_eval in Hget. cbn in Hget. discriminate Hget.
Defined.

(** ** The store under the API *)

Section ApiFacts.
Context {F : Type} {NP : NumPy F} {RT : Runtime F} {CU : Cursor F}.

(** Whether a document validates does not depend on the clock or on
    the id it is read under. *)
Lemma validate_is_Ok_any (id id' : string) (doc : gmap string (value F)) (now now' : Z) :
  is_Ok (Prediction_validate id doc now) = is_Ok (Prediction_validate id' doc now').
Proof.
  rewrite !validate_is_Ok.
  rewrite (datetime_field_is_Ok doc "created_at" now now').
  rewrite (datetime_field_is_Ok doc "updated_at" now now'). reflexivity.
Qed.

(** The world a background task leaves for a stored, well-formed
    record: the record updated to completed or failed, nothing else of
    the collection and nothing of the task list changed. *)
Lemma process_prediction_stored {S} {SO : SettingsObject S} (settings : S)
    (prediction_id oid audio_path : string) (doc : gmap string (value F)) (w : World F) :
  ObjectId prediction_id = Some oid ->
  documents w !! oid = Some doc ->
  is_Ok (Prediction_validate oid doc 0) = true ->
  exists w' status now lbl conf probs notes,
    _process_prediction settings prediction_id audio_path w = (Ok tt, w') /\
    documents w' =
      <[oid := status_updates status now lbl conf probs notes ∪ doc]> (documents w) /\
    scheduled w' = scheduled w /\ files w' = files w /\
    (status = COMPLETED \/ status = FAILED).
Proof.
  intros Hoid Hdoc Hvalid.
  pose proof (keeps_run_inference settings audio_path w) as (Hd & Hf & Hc & Hs & _).
  unfold _process_prediction, try_finally, try_except.
  rewrite M_bind_unfold.
  destruct (run_inference settings audio_path w) as [[res|exc] w1]; cbn [fst snd] in *.
  - rewrite <- Hd in Hdoc.
    destruct (update_status_stored prediction_id oid doc COMPLETED
                (Some (label res)) (Some (confidence res)) (Some (probabilities res)) None
                w1 Hoid Hdoc Hvalid) as (p & Hup).
    rewrite M_bind_unfold, Hup. cbn [mret M_ret].
    eexists. exists COMPLETED. eexists. eexists. eexists. eexists. eexists.
    split; [reflexivity|].
    cbn [files documents scheduled set_documents set_clock].
    rewrite Hd. split_and!; [reflexivity | exact Hs | exact Hf | left; reflexivity].
  - rewrite <- Hd in Hdoc.
    destruct (update_status_stored prediction_id oid doc FAILED
                None None None (Some (str_exc exc)) w1 Hoid Hdoc Hvalid) as (p & Hup).
    rewrite M_bind_unfold, Hup. cbn [mret M_ret].
    eexists. exists FAILED. eexists. eexists. eexists. eexists. eexists.
    split; [reflexivity|].
    cbn [files documents scheduled set_documents set_clock].
    rewrite Hd. split_and!; [reflexivity | exact Hs | exact Hf | right; reflexivity].
Qed.

(** What an upload does to the collection and the task list: nothing,
    or one new pending document under a fresh id and one task for it. *)
Lemma upload_audio_store (file : UploadFile) (w : World F) :
  (documents (upload_audio file w).2 = documents w /\
   scheduled (upload_audio file w).2 = scheduled w) \/
  (exists payload created updated path,
     let oid := new_object_id (upload_insert_world file w) in
     documents w !! oid = None /\
     documents (upload_audio file w).2
       = <[oid := created_document payload created updated]> (documents w) /\
     scheduled (upload_audio file w).2 = (scheduled w ++ [(oid, path)])%list).
Proof.
  unfold upload_audio.
  destruct (unsupported_type (upload_content_type file)); [left; split; reflexivity|].
  rewrite M_bind_unfold. unfold save_upload. rewrite M_bind_unfold. cbn [get_world].
  rewrite M_bind_unfold. cbn [modify mret M_ret].
  fold (upload_path file w).
  rewrite M_bind_unfold. unfold stat_size. rewrite M_bind_unfold. cbn [get_world].
  cbn [files set_files]. rewrite lookup_insert_eq. cbn [mret M_ret].
  rewrite M_bind_unfold, create_eval. cbn zeta.
  cbn [clock set_files documents].
  change (set_clock (clock w + 1 + 1)
            (set_files (<[upload_path file w := upload_body file]> (files w)) w))
    with (upload_insert_world file w).
  destruct (documents w !! new_object_id (upload_insert_world file w)) eqn:Hfresh.
  - left. split; reflexivity.
  - right. rewrite M_bind_unfold. unfold create_task. cbn [modify mret M_ret].
    eexists. eexists. eexists. eexists. cbn zeta.
    split; [reflexivity|]. split; reflexivity.
Qed.

Lemma written_status_after_update (doc : gmap string (value F)) (status : PredictionStatus)
    (now : Z) (lbl : option Label) (conf : option F) (probs : option (gmap string F))
    (notes : option string) :
  status = COMPLETED \/ status = FAILED ->
  written_status (status_updates status now lbl conf probs notes ∪ doc).
Proof.
  intros Hst. unfold written_status.
  rewrite set_lookup, status_updates_lookup. case_decide; [|congruence].
  destruct Hst as [-> | ->]; auto.
Qed.

Section Driver.
(** The ids the driver hands out are ObjectIds: their strings parse back
    to themselves. *)
Hypothesis driver_ids : forall w : World F, ObjectId (new_object_id w) = Some (new_object_id w).

Lemma store_inv_step {S} {SO : SettingsObject S} (settings : S) (w w' : World F) :
  store_inv w -> api_step settings w w' -> store_inv w'.
Proof.
  intros [Hdocs Htasks] Hstep. destruct Hstep as [file w | id w | limit w | id path w Hin].
  - destruct (upload_audio_store file w)
      as [[Hd Hs] | (payload & created & updated & path & Hfresh & Hd & Hs)].
    + split.
      * intros id doc. rewrite Hd. apply Hdocs.
      * intros id path. rewrite Hd, Hs. apply Htasks.
    + cbn zeta in *. split.
      * intros id doc. rewrite Hd. intros Hl.
        apply lookup_insert_Some in Hl as [[<- <-] | [Hne Hl]]; [|apply Hdocs, Hl].
        split_and!.
        -- apply driver_ids.
        -- rewrite created_document_valid. reflexivity.
        -- left. unfold created_document.
           rewrite lookup_insert_ne by discriminate.
           rewrite lookup_insert_ne by discriminate.
           apply lookup_insert_eq.
      * intros id path'. rewrite Hd, Hs. intros Hin.
        apply elem_of_app in Hin as [Hin | Hin].
        -- destruct (Htasks id path' Hin) as [doc Hdoc].
           destruct (decide (new_object_id (upload_insert_world file w) = id)) as [<-|Hne].
           ++ rewrite lookup_insert_eq. eauto.
           ++ rewrite lookup_insert_ne by exact Hne. eauto.
        -- apply list_elem_of_singleton in Hin. injection Hin as -> ->.
           rewrite lookup_insert_eq. eauto.
  - assert (Hsame : (get_prediction id w).2 = w).
    { unfold get_prediction. rewrite M_bind_unfold.
      pose proof (get_pure id w) as Hp.
      destruct (get id w) as [[[p|]|e] w1]; cbn [snd] in *; exact Hp. }
    rewrite Hsame. split; assumption.
  - assert (Hsame : (list_predictions limit w).2 = w).
    { unfold list_predictions, list_recent. rewrite M_bind_unfold. cbn [get_world].
      pose proof (read_cursor_eval (find_sort_limit w (default 20%Z limit)) w) as Hr.
      destruct (read_cursor _ w) as [[ps|e] w1]; cbn [snd]; apply Hr. }
    rewrite Hsame. split; assumption.
  - destruct (Htasks id path Hin) as [doc Hdoc].
    destruct (Hdocs id doc Hdoc) as (Hoid & Hvalid & _).
    destruct (process_prediction_stored settings id id path doc w Hoid Hdoc Hvalid)
      as (w1 & status & now & lbl & conf & probs & notes & Hrun & Hd & Hs & _ & Hst).
    rewrite Hrun. cbn [snd]. split.
    + intros id' doc'. rewrite Hd. intros Hl.
      apply lookup_insert_Some in Hl as [[<- <-] | [Hne Hl]]; [|apply Hdocs, Hl].
      split_and!.
      * exact Hoid.
      * apply validate_after_update with (t := 0%Z). exact Hvalid.
      * apply written_status_after_update, Hst.
    + intros id' path'. rewrite Hd, Hs. intros Hin'.
      destruct (Htasks id' path' Hin') as [doc' Hdoc'].
      destruct (decide (id = id')) as [<-|Hne].
      * rewrite lookup_insert_eq. eauto.
      * rewrite lookup_insert_ne by exact Hne. eauto.
Qed.

Lemma store_inv_rtc {S} {SO : SettingsObject S} (settings : S) (w0 w : World F) :
  store_inv w0 -> rtc (api_step settings) w0 w -> store_inv w.
Proof.
  intros H0 Hr. induction Hr as [w|w w1 w2 Hstep _ IH]; [exact H0|].
  apply IH. eapply store_inv_step; eassumption.
Qed.

Lemma store_inv_empty (w0 : World F) :
  documents w0 = ∅ -> scheduled w0 = [] -> store_inv w0.
Proof.
  intros Hd Hs. split.
  - intros id doc. rewrite Hd, lookup_empty. discriminate.
  - intros id path. rewrite Hs. intros Hin. inversion Hin.
Qed.

(** X15: in every world the server reaches from an empty
    collection by answering requests and running scheduled tasks, one at
    a time, every stored document reads as a [Prediction].  So [get]
    never raises, the only error of [get_prediction] is the 404 for an
    id that names no record, and a listing whose cursor yields stored
    documents never raises. *)
Theorem api_store_stays_readable {S} {SO : SettingsObject S} (settings : S)
    (w0 w : World F) :
  documents w0 = ∅ -> scheduled w0 = [] ->
  rtc (api_step settings) w0 w ->
  (forall id doc, documents w !! id = Some doc ->
     is_Ok (Prediction_validate id doc (clock w)) = true) /\
  (forall prediction_id, is_Ok (get prediction_id w).1 = true) /\
  (forall prediction_id e, (get_prediction prediction_id w).1 = Raise e ->
     e = Exn (HTTPException 404) "Prediction not found" /\
     forall oid, ObjectId prediction_id = Some oid -> documents w !! oid = None) /\
  (forall limit,
     (forall oid doc, (oid, doc) ∈ find_sort_limit w (default 20%Z limit) ->
        documents w !! oid = Some doc) ->
     is_Ok (list_predictions limit w).1 = true).
Proof.
  intros Hd Hs Hr.
  pose proof (store_inv_rtc settings w0 w (store_inv_empty w0 Hd Hs) Hr) as [Hdocs _].
  assert (Hvalid : forall id id' doc, documents w !! id = Some doc ->
            is_Ok (Prediction_validate id' doc (clock w)) = true).
  { intros id id' doc Hdoc. rewrite (validate_is_Ok_any id' id doc (clock w) 0).
    apply (Hdocs id doc Hdoc). }
  assert (Hget : forall prediction_id, is_Ok (get prediction_id w).1 = true).
  { intros pid. rewrite get_eval.
    destruct (ObjectId pid) as [oid|]; [|reflexivity].
    destruct (documents w !! oid) as [doc|] eqn:Hdoc; [|reflexivity].
    pose proof (Hvalid oid oid doc Hdoc) as Hv.
    destruct (Prediction_validate oid doc (clock w)); [reflexivity | discriminate Hv]. }
  split_and!.
  - intros id doc. apply Hvalid.
  - exact Hget.
  - intros pid e. unfold get_prediction. rewrite M_bind_unfold.
    specialize (Hget pid). rewrite get_eval in Hget |- *.
    destruct (ObjectId pid) as [oid|].
    + destruct (documents w !! oid) as [doc|] eqn:Hdoc.
      * destruct (Prediction_validate oid doc (clock w)); [discriminate | discriminate Hget].
      * cbn. intros He. injection He as <-. split; [reflexivity|].
        intros oid' Hoid. injection Hoid as <-. exact Hdoc.
    + cbn. intros He. injection He as <-. split; [reflexivity|]. discriminate.
  - intros limit Hsound. unfold list_predictions, list_recent.
    rewrite M_bind_unfold. cbn [get_world].
    pose proof (read_cursor_eval (find_sort_limit w (default 20%Z limit)) w) as Hread.
    destruct (read_cursor _ w) as [[ps|e] w']; [reflexivity|].
    destruct Hread as (_ & before & [oid doc] & after & ps & Hcur & _ & Hbad).
    assert (Hin : (oid, doc) ∈ find_sort_limit w (default 20%Z limit)).
    { rewrite Hcur. apply elem_of_app. right. apply elem_of_cons. left. reflexivity. }
    pose proof (Hvalid oid oid doc (Hsound oid doc Hin)) as Hv.
    cbn [fst snd] in Hbad. rewrite Hbad in Hv. discriminate Hv.
Qed.

(** X16: the status [processing] is never stored.  In
    every world the server reaches from an empty collection, the status
    of every stored record is pending, completed or failed: an upload
    writes pending, the background task writes completed or failed, and
    nothing writes anything else. *)
Theorem api_never_stores_processing {S} {SO : SettingsObject S} (settings : S)
    (w0 w : World F) (id : string) (doc : gmap string (value F)) :
  documents w0 = ∅ -> scheduled w0 = [] ->
  rtc (api_step settings) w0 w ->
  documents w !! id = Some doc ->
  doc !! "status" <> Some (VStr (PredictionStatus_value PROCESSING)) /\
  (doc !! "status" = Some (VStr "pending") \/
   doc !! "status" = Some (VStr "completed") \/
   doc !! "status" = Some (VStr "failed")) /\
  exists p, Prediction_validate id doc (clock w) = Ok p /\ p_status p <> PROCESSING.
Proof.
  intros Hd Hs Hr Hdoc.
  pose proof (store_inv_rtc settings w0 w (store_inv_empty w0 Hd Hs) Hr) as [Hdocs _].
  destruct (Hdocs id doc Hdoc) as (_ & Hvalid & Hst).
  assert (Hthree : doc !! "status" = Some (VStr "pending") \/
                   doc !! "status" = Some (VStr "completed") \/
                   doc !! "status" = Some (VStr "failed")) by exact Hst.
  split_and!.
  - destruct Hthree as [-> | [-> | ->]]; discriminate.
  - exact Hthree.
  - rewrite (validate_is_Ok_any id id doc 0 (clock w)) in Hvalid.
    destruct (Prediction_validate id doc (clock w)) as [p|e] eqn:Hv; [|discriminate Hvalid].
    exists p. split; [reflexivity|].
    apply Prediction_validate_Ok in Hv. destruct Hv as (_ & _ & _ & _ & _ & Hstatus & _).
    unfold status_field in Hstatus.
    destruct Hthree as [Heq | [Heq | Heq]]; rewrite Heq in Hstatus; cbn in Hstatus;
      injection Hstatus as <-; discriminate.
Qed.

(** X17: every task an upload has scheduled finds its
    record.  In every world the server reaches from an empty collection,
    running a scheduled task returns normally and leaves the task's
    record completed or failed, whatever the inference did; the stored
    files and the other records are untouched. *)
Theorem api_tasks_find_their_record {S} {SO : SettingsObject S} (settings : S)
    (w0 w : World F) (prediction_id audio_path : string) :
  documents w0 = ∅ -> scheduled w0 = [] ->
  rtc (api_step settings) w0 w ->
  (prediction_id, audio_path) ∈ scheduled w ->
  exists w' before after,
    documents w !! prediction_id = Some before /\
    _process_prediction settings prediction_id audio_path w = (Ok tt, w') /\
    documents w' = <[prediction_id := after]> (documents w) /\
    (after !! "status" = Some (VStr "completed") \/
     after !! "status" = Some (VStr "failed")) /\
    after !! "filename" = before !! "filename" /\
    after !! "storage_path" = before !! "storage_path" /\
    files w' = files w /\ scheduled w' = scheduled w.
Proof.
  intros Hd Hs Hr Hin.
  pose proof (store_inv_rtc settings w0 w (store_inv_empty w0 Hd Hs) Hr) as [Hdocs Htasks].
  destruct (Htasks prediction_id audio_path Hin) as [doc Hdoc].
  destruct (Hdocs prediction_id doc Hdoc) as (Hoid & Hvalid & _).
  destruct (process_prediction_stored settings prediction_id prediction_id audio_path doc w
              Hoid Hdoc Hvalid)
    as (w1 & status & now & lbl & conf & probs & notes & Hrun & Hd1 & Hs1 & Hf1 & Hst).
  exists w1, doc, (status_updates status now lbl conf probs notes ∪ doc).
  split_and!; try assumption.
  - rewrite set_lookup, status_updates_lookup. case_decide; [|congruence].
    destruct Hst as [-> | ->]; auto.
  - rewrite set_lookup, status_updates_other by other_key. reflexivity.
  - rewrite set_lookup, status_updates_other by other_key. reflexivity.
Qed.

End Driver.
End ApiFacts.

(** The ids of the example runtime parse back to themselves. *)
Lemma demo_driver_ids (w : World R) :
  ObjectId (Runtime := demo_runtime) (new_object_id (Runtime := demo_runtime) w)
  = Some (new_object_id (Runtime := demo_runtime) w).
Proof.
  cbn [ObjectId new_object_id demo_runtime].
  generalize (size (documents w)). intros n.
  destruct (le_lt_dec 23 n) as [Hge|Hlt].
  - unfold nth_object_id. replace (23 - n) with 0 by lia.
    replace (Nat.min n 23) with 23 by lia. reflexivity.
  - do 23 (destruct n as [|n]; [reflexivity|]). lia.
Qed.

Lemma uploaded_world_reachable :
  rtc (api_step (RT := demo_runtime) (CU := demo_cursor) default_Settings)
    (initial_world default_Settings) uploaded_world.
Proof. apply rtc_once. apply api_upload_audio. Qed.

Lemma uploaded_world_scheduled :
  scheduled uploaded_world = [("000000000000000000000001", "/tmp/copd/uploads/0.wav")].
Proof. reflexivity. Qed.

Lemma processed_world_reachable :
  rtc (api_step (RT := demo_runtime) (CU := demo_cursor) default_Settings)
    (initial_world default_Settings) processed_world.
Proof.
  eapply rtc_r; [apply uploaded_world_reachable|].
  apply api_process_prediction. rewrite uploaded_world_scheduled.
  apply list_elem_of_singleton. reflexivity.
Qed.

(** After one upload and its task, [get] does not raise, whatever the
    id. *)
Lemma api_store_stays_readable_witness :
  rtc (api_step (RT := demo_runtime) (CU := demo_cursor) default_Settings)
    (initial_world default_Settings) processed_world /\
  (forall prediction_id,
     is_Ok (get (RT := demo_runtime) prediction_id processed_world).1 = true).
Proof.
  split; [exact processed_world_reachable|].
  apply (api_store_stays_readable (RT := demo_runtime) (CU := demo_cursor)
           demo_driver_ids default_Settings (initial_world default_Settings)
           processed_world eq_refl eq_refl processed_world_reachable).
Defined.

(** After one upload the record is pending; its status is not
    processing. *)
Lemma api_never_stores_processing_witness :
  exists doc,
    documents uploaded_world !! "000000000000000000000001" = Some doc /\
    doc !! "status" = Some (VStr "pending") /\
    doc !! "status" <> Some (VStr (PredictionStatus_value PROCESSING)).
Proof.
  assert (Hdoc : exists doc, documents uploaded_world !! "000000000000000000000001"
                             = Some doc /\ doc !! "status" = Some (VStr "pending")).
  { eexists. split; reflexivity. }
  destruct Hdoc as (doc & Hdoc & Hst). exists doc. split; [exact Hdoc|]. split; [exact Hst|].
  apply (api_never_stores_processing (RT := demo_runtime) (CU := demo_cursor)
           demo_driver_ids default_Settings (initial_world default_Settings)
           uploaded_world "000000000000000000000001" doc eq_refl eq_refl
           uploaded_world_reachable Hdoc).
Defined.

(** The task of the one upload, under the default settings: it returns
    and leaves the record failed, since no service can be selected. *)
Lemma api_tasks_find_their_record_witness :
  exists w' after,
    _process_prediction (RT := demo_runtime) default_Settings
      "000000000000000000000001" "/tmp/copd/uploads/0.wav" uploaded_world = (Ok tt, w') /\
    documents w' = <["000000000000000000000001" := after]> (documents uploaded_world) /\
    (after !! "status" = Some (VStr "completed") \/
     after !! "status" = Some (VStr "failed")).
Proof.
  destruct (api_tasks_find_their_record (RT := demo_runtime) (CU := demo_cursor)
              demo_driver_ids default_Settings (initial_world default_Settings)
              uploaded_world "000000000000000000000001" "/tmp/copd/uploads/0.wav"
              eq_refl eq_refl uploaded_world_reachable)
    as (w' & before & after & _ & Hrun & Hd & Hst & _).
  - rewrite uploaded_world_scheduled. apply list_elem_of_singleton. reflexivity.
  - exists w', after. auto.
Defined.

(** ** Round trips through the store *)

Section RoundTrips.
Context {F : Type} {NP : NumPy F} {RT : Runtime F}.

(** What a successful upload stored. *)
Lemma upload_audio_Ok (file : UploadFile) (w w' : World F) (code : Z) (p : Prediction F) :
  upload_audio file w = (Ok (code, p), w') ->
  code = 201%Z /\
  exists payload created updated,
    documents w' !! p_id p
    = Some (created_document payload (bson_datetime created) (bson_datetime updated)) /\
    forall now, Prediction_validate (p_id p) (created_document payload created updated) now
                = Ok p.
Proof.
  unfold upload_audio.
  destruct (unsupported_type (upload_content_type file)); [discriminate|].
  rewrite M_bind_unfold. unfold save_upload. rewrite M_bind_unfold. cbn [get_world].
  rewrite M_bind_unfold. cbn [modify mret M_ret].
  rewrite M_bind_unfold. unfold stat_size. rewrite M_bind_unfold. cbn [get_world].
  cbn [files set_files]. rewrite lookup_insert_eq. cbn [mret M_ret].
  rewrite M_bind_unfold, create_eval. cbn zeta.
  cbn [clock set_files documents].
  match goal with
  | |- context [documents w !! ?oid] => destruct (documents w !! oid); [discriminate|]
  end.
  rewrite M_bind_unfold. unfold create_task. cbn [modify mret M_ret].
  intros Hr. injection Hr as <- <- <-. split; [reflexivity|].
  eexists. eexists. eexists. cbn [p_id documents set_scheduled set_documents].
  split; [apply lookup_insert_eq|].
  intros now. rewrite created_document_valid. reflexivity.
Qed.

(** X18: what [upload_audio] returns can be fetched, up
    to the resolution of the stored dates.  When an upload succeeds and
    the id of its record is an ObjectId string, [get_prediction] with
    that id, right after, returns the record the upload returned with
    its [created_at] and [updated_at] cut to whole milliseconds, each
    less than a millisecond before the value the upload returned; every
    other field is the same, the record pending and without label or
    notes. *)
Theorem upload_then_get (file : UploadFile) (w w' : World F) (code : Z) (p : Prediction F) :
  upload_audio file w = (Ok (code, p), w') ->
  ObjectId (p_id p) = Some (p_id p) ->
  get_prediction (p_id p) w' = (Ok (Prediction_as_stored p), w') /\
  (p_created_at p - 1000 < p_created_at (Prediction_as_stored p) <= p_created_at p)%Z /\
  (p_updated_at p - 1000 < p_updated_at (Prediction_as_stored p) <= p_updated_at p)%Z /\
  p_status p = PENDING /\ p_label p = None /\ p_notes p = None.
Proof.
  intros Hup Hoid.
  destruct (upload_audio_Ok file w w' code p Hup)
    as (_ & payload & created & updated & Hdoc & Hvalid).
  specialize (Hvalid 0%Z). rewrite created_document_valid in Hvalid.
  injection Hvalid as Hp.
  pose proof (bson_datetime_le created) as Hc.
  pose proof (bson_datetime_le updated) as Hu.
  split_and!.
  - unfold get_prediction.
    rewrite M_bind_unfold, get_eval, Hoid, Hdoc, created_document_valid.
    rewrite <- Hp. reflexivity.
  - rewrite <- Hp. cbn [p_created_at Prediction_as_stored]. lia.
  - rewrite <- Hp. cbn [p_created_at Prediction_as_stored]. lia.
  - rewrite <- Hp. cbn [p_updated_at Prediction_as_stored]. lia.
  - rewrite <- Hp. cbn [p_updated_at Prediction_as_stored]. lia.
  - rewrite <- Hp. reflexivity.
  - rewrite <- Hp. reflexivity.
  - rewrite <- Hp. reflexivity.
Qed.

(** [_process_prediction] on a stored, well-formed record, evaluated. *)
Lemma process_prediction_eval {S} {SO : SettingsObject S} (settings : S)
    (prediction_id oid audio_path : string) (doc : gmap string (value F)) (w : World F) :
  ObjectId prediction_id = Some oid ->
  documents w !! oid = Some doc ->
  is_Ok (Prediction_validate oid doc 0) = true ->
  _process_prediction settings prediction_id audio_path w =
    (Ok tt,
     set_documents
       (<[oid := match (run_inference settings audio_path w).1 with
                 | Ok res =>
                     status_updates COMPLETED (bson_datetime (clock w)) (Some (label res))
                       (Some (confidence res)) (Some (probabilities res)) None
                 | Raise exc =>
                     status_updates FAILED (bson_datetime (clock w)) None None None (Some (str_exc exc))
                 end ∪ doc]> (documents w))
       (set_clock (clock w + 1) (run_inference settings audio_path w).2)).
Proof.
  intros Hoid Hdoc Hvalid.
  pose proof (keeps_run_inference settings audio_path w) as (Hd & Hf & Hc & Hs & _).
  unfold _process_prediction, try_finally, try_except.
  rewrite M_bind_unfold.
  destruct (run_inference settings audio_path w) as [[res|exc] w1]; cbn [fst snd] in *.
  - rewrite <- Hd in Hdoc.
    destruct (update_status_stored prediction_id oid doc COMPLETED
                (Some (label res)) (Some (confidence res)) (Some (probabilities res)) None
                w1 Hoid Hdoc Hvalid) as (p & Hup).
    rewrite M_bind_unfold, Hup. cbn [mret M_ret]. rewrite Hd, Hc. reflexivity.
  - rewrite <- Hd in Hdoc.
    destruct (update_status_stored prediction_id oid doc FAILED
                None None None (Some (str_exc exc)) w1 Hoid Hdoc Hvalid) as (p & Hup).
    rewrite M_bind_unfold, Hup. cbn [mret M_ret]. rewrite Hd, Hc. reflexivity.
Qed.

(** X19: what a client sees after the background
    task.  For a stored record that [get] reads as [p], once the task
    has run [get_prediction] returns a record with the same id, file
    name, content type, size, path and user; it is completed, with the
    label, confidence and probabilities of the inference result and the
    notes of [p], when the inference returned one, and failed, with the
    exception's string as notes and the label, confidence and
    probabilities of [p], when it raised.  It is never still pending. *)
Theorem get_after_processing {S} {SO : SettingsObject S} (settings : S)
    (prediction_id oid audio_path : string) (doc : gmap string (value F)) (w : World F)
    (p : Prediction F) :
  ObjectId prediction_id = Some oid ->
  documents w !! oid = Some doc ->
  Prediction_validate oid doc (clock w) = Ok p ->
  exists w' p',
    _process_prediction settings prediction_id audio_path w = (Ok tt, w') /\
    get_prediction prediction_id w' = (Ok p', w') /\
    p_id p' = p_id p /\ p_filename p' = p_filename p /\
    p_content_type p' = p_content_type p /\ p_file_size p' = p_file_size p /\
    p_storage_path p' = p_storage_path p /\ p_user_id p' = p_user_id p /\
    p_status p' <> PENDING /\
    match (run_inference settings audio_path w).1 with
    | Ok res =>
        p_status p' = COMPLETED /\ p_label p' = Some (label res) /\
        p_confidence p' = Some (confidence res) /\
        p_probabilities p' = Some (probabilities res) /\ p_notes p' = p_notes p
    | Raise exc =>
        p_status p' = FAILED /\ p_notes p' = Some (str_exc exc) /\
        p_label p' = p_label p /\ p_confidence p' = p_confidence p /\
        p_probabilities p' = p_probabilities p
    end.
Proof.
  intros Hoid Hdoc Hp.
  assert (Hvalid : is_Ok (Prediction_validate oid doc 0) = true).
  { rewrite (validate_is_Ok_any oid oid doc 0 (clock w)), Hp. reflexivity. }
  rewrite (process_prediction_eval settings prediction_id oid audio_path doc w
             Hoid Hdoc Hvalid).
  set (updates := match (run_inference settings audio_path w).1 with
                  | Ok res => _ | Raise exc => _ end).
  set (w1 := (run_inference settings audio_path w).2).
  set (w' := set_documents _ _).
  assert (Hafter : exists status lbl conf probs notes,
            updates = status_updates status (bson_datetime (clock w)) lbl conf probs notes).
  { unfold updates. destruct (run_inference settings audio_path w).1;
      eexists; eexists; eexists; eexists; eexists; reflexivity. }
  destruct Hafter as (status & lbl & conf & probs & notes & Hupd).
  assert (Hv' : is_Ok (Prediction_validate oid (updates ∪ doc) (clock w')) = true).
  { rewrite Hupd. apply validate_after_update with (t := 0%Z). exact Hvalid. }
  destruct (Prediction_validate oid (updates ∪ doc) (clock w')) as [p'|e] eqn:Hp';
    [|discriminate Hv'].
  exists w', p'. split; [reflexivity|].
  split.
  { unfold get_prediction. rewrite M_bind_unfold, get_eval, Hoid.
    unfold w' at 1. cbn [documents set_documents]. rewrite lookup_insert_eq, Hp'.
    reflexivity. }
  apply Prediction_validate_Ok in Hp
    as (Pid & Pfn & Pct & Pfs & Psp & Pst & Plb & Pcf & Ppr & _ & _ & Pus & Pnt).
  apply Prediction_validate_Ok in Hp'
    as (Qid & Qfn & Qct & Qfs & Qsp & Qst & Qlb & Qcf & Qpr & _ & _ & Qus & Qnt).
  assert (Hother : forall k, k ∉ status_keys -> (updates ∪ doc) !! k = doc !! k).
  { intros k Hk. rewrite Hupd, set_lookup, status_updates_other by exact Hk. reflexivity. }
  rewrite Hother in Qfn, Qct, Qfs, Qsp by other_key.
  unfold optional_str in Qus, Pus. rewrite Hother in Qus by other_key.
  assert (Hus : p_user_id p' = p_user_id p) by congruence.
  assert (Hst : status_field (updates ∪ doc)
                = Ok match (run_inference settings audio_path w).1 with
                     | Ok _ => COMPLETED
                     | Raise _ => FAILED
                     end).
  { unfold status_field, updates.
    destruct (run_inference settings audio_path w).1;
      rewrite set_lookup, status_updates_lookup; case_decide; try congruence; reflexivity. }
  rewrite Hst in Qst. injection Qst as Qst.
  split_and!; try congruence.
  - rewrite <- Qst. destruct (run_inference settings audio_path w).1; discriminate.
  - unfold label_field in Qlb, Plb. unfold optional_float in Qcf, Pcf.
    unfold optional_dict in Qpr, Ppr. unfold optional_str in Qnt, Pnt.
    unfold updates in Qlb, Qcf, Qpr, Qnt.
    destruct (run_inference settings audio_path w).1 as [res|exc];
      rewrite set_lookup, status_updates_lookup in Qlb, Qcf, Qpr, Qnt;
      repeat (case_decide; try congruence);
      cbn [fmap option_fmap option_map] in Qlb, Qcf, Qpr, Qnt.
    + rewrite Label_of_value_value in Qlb. split_and!; congruence.
    + split_and!; congruence.
Qed.

(** X20: what the background task does when its
    record is not there.  The inference runs all the same.  For an id
    that is a valid ObjectId string but names no document, the result is
    dropped: the task returns normally and the collection is as before.
    For an id that is no ObjectId string, [update_status] raises
    [InvalidId] in the [try] body and again in the [except] handler, and
    that exception leaves the coroutine.  The stored files are untouched
    either way. *)
Theorem process_prediction_without_record {S} {SO : SettingsObject S} (settings : S)
    (prediction_id audio_path : string) (w : World F) :
  (forall oid, ObjectId prediction_id = Some oid -> documents w !! oid = None) ->
  let out := _process_prediction settings prediction_id audio_path w in
  documents out.2 = documents w /\ files out.2 = files w /\
  log out.2 = log (run_inference settings audio_path w).2 /\
  out.1 = match ObjectId prediction_id with
          | Some _ => Ok tt
          | None => Raise (invalid_id prediction_id)
          end.
Proof.
  intros Hmissing. cbn zeta.
  pose proof (keeps_run_inference settings audio_path w) as (Hd & Hf & Hc & Hs & _).
  unfold _process_prediction, try_finally, try_except.
  rewrite M_bind_unfold.
  destruct (run_inference settings audio_path w) as [[res|exc] w1]; cbn [fst snd] in *;
    rewrite ?M_bind_unfold, !update_status_eval; cbn zeta;
    destruct (ObjectId prediction_id) as [oid|] eqn:Hoid.
  - rewrite Hd, (Hmissing oid eq_refl). cbn. auto.
  - rewrite M_bind_unfold, update_status_eval, Hoid. cbn. auto.
  - rewrite Hd, (Hmissing oid eq_refl). cbn. auto.
  - cbn. auto.
Qed.

End RoundTrips.

(** A WAV upload into the initial world, fetched right after: the
    record returned was updated at tick 1, the record fetched at 0. *)
Lemma upload_then_get_witness :
  exists p w',
    upload_audio (RT := demo_runtime) wav_upload (initial_world default_Settings)
      = (Ok (201%Z, p), w') /\
    p_id p = "000000000000000000000001" /\
    p_updated_at p = 1%Z /\
    p_updated_at (Prediction_as_stored p) = 0%Z /\
    get_prediction (RT := demo_runtime) (p_id p) w' = (Ok (Prediction_as_stored p), w').
Proof.
  assert (Hup : exists p w',
            upload_audio (RT := demo_runtime) wav_upload (initial_world default_Settings)
              = (Ok (201%Z, p), w') /\ p_id p = "000000000000000000000001" /\
            p_updated_at p = 1%Z).
  { eexists. eexists. split; [vm_compute; reflexivity | split; reflexivity]. }
  destruct Hup as (p & w' & Hup & Hid & Hupd). exists p, w'.
  split; [exact Hup|]. split; [exact Hid|]. split; [exact Hupd|].
  split; [cbn [p_updated_at Prediction_as_stored]; rewrite Hupd; reflexivity|].
  apply (upload_then_get (RT := demo_runtime) wav_upload (initial_world default_Settings)
           w' 201%Z p Hup).
  rewrite Hid. reflexivity.
Defined.

(** The pending record of [one_pending_world] after its task, under the
    default settings: failed, with its file name kept. *)
Lemma get_after_processing_witness :
  exists w' p',
    _process_prediction (RT := demo_runtime) default_Settings
      "000000000000000000000001" "/tmp/copd/uploads/a.wav" one_pending_world = (Ok tt, w') /\
    get_prediction (RT := demo_runtime) "000000000000000000000001" w' = (Ok p', w') /\
    p_filename p' = "a.wav" /\ p_status p' = FAILED /\
    p_notes p' = Some "'Settings' object has no attribute 'model_type'".
Proof.
  assert (Hp : exists p, Prediction_validate "000000000000000000000001" pending_document
                           (clock one_pending_world) = Ok p /\ p_filename p = "a.wav").
  { eexists. split; reflexivity. }
  destruct Hp as (p & Hp & Hname).
  destruct (get_after_processing (RT := demo_runtime) default_Settings
              "000000000000000000000001" "000000000000000000000001"
              "/tmp/copd/uploads/a.wav" pending_document one_pending_world p
              eq_refl eq_refl Hp)
    as (w' & p' & Hrun & Hget & _ & Hfn & _ & _ & _ & _ & _ & Hres).
  assert (Hinf : (run_inference (RT := demo_runtime) default_Settings
                    "/tmp/copd/uploads/a.wav" one_pending_world).1
                 = Raise (attribute_error "Settings" "model_type")) by reflexivity.
  rewrite Hinf in Hres. destruct Hres as (Hst & Hnotes & _).
  exists w', p'. split_and!; [exact Hrun | exact Hget | congruence | exact Hst | exact Hnotes].
Defined.

(** In the initial world nothing is stored: a task for a well-formed id
    returns and stores nothing; a task for an id that is no ObjectId
    raises [InvalidId]. *)
Lemma process_prediction_without_record_witness :
  (_process_prediction (RT := demo_runtime) default_Settings
     "000000000000000000000001" "a.wav" (initial_world default_Settings)).1 = Ok tt /\
  documents (_process_prediction (RT := demo_runtime) default_Settings
               "000000000000000000000001" "a.wav" (initial_world default_Settings)).2 = ∅ /\
  (_process_prediction (RT := demo_runtime) default_Settings
     "no-such-id" "a.wav" (initial_world default_Settings)).1
  = Raise (invalid_id "no-such-id").
Proof.
  assert (Hempty : forall pid oid : string,
            ObjectId (Runtime := demo_runtime) pid = Some oid ->
            documents (initial_world (F := R) default_Settings) !! oid = None).
  { intros pid oid _. apply lookup_empty. }
  destruct (process_prediction_without_record (RT := demo_runtime) default_Settings
              "000000000000000000000001" "a.wav" (initial_world default_Settings)
              (Hempty _)) as (Hd & _ & _ & Hr).
  destruct (process_prediction_without_record (RT := demo_runtime) default_Settings
              "no-such-id" "a.wav" (initial_world default_Settings)
              (Hempty _)) as (_ & _ & _ & Hr').
  split_and!; [exact Hr | exact Hd | exact Hr'].
Defined.

(** ** [save_upload]: the loop over chunks *)

Lemma str_app_empty_r (s : string) : s +:+ "" = s.
Proof.
  induction s as [|c s IH]; [reflexivity|].
  change (String c s +:+ "") with (String c (s +:+ "")). f_equal. exact IH.
Qed.

Lemma str_app_assoc (a b c : string) : (a +:+ b) +:+ c = a +:+ (b +:+ c).
Proof.
  induction a as [|x a IH]; [reflexivity|].
  change (String x ((a +:+ b) +:+ c) = String x (a +:+ (b +:+ c))). f_equal. exact IH.
Qed.

Lemma str_take_drop (n : nat) (s : string) : str_take n s +:+ str_drop n s = s.
Proof.
  revert s. induction n as [|n IH]; intros [|c s]; try reflexivity.
  change (String c (str_take n s +:+ str_drop n s) = String c s). f_equal. apply IH.
Qed.

Lemma str_drop_length (n : nat) (s : string) :
  String.length (str_drop n s) = String.length s - n.
Proof.
  revert s. induction n as [|n IH]; intros [|c s]; cbn; try reflexivity; try lia.
  apply IH.
Qed.

Lemma str_take_empty (n : nat) (s : string) :
  str_take n s = "" <-> n = 0 \/ s = "".
Proof.
  destruct n as [|n], s as [|c s]; cbn; split; auto; try discriminate.
  intros [Hn | Hs]; discriminate.
Qed.

(** With a positive chunk size and more rounds than bytes, the loop
    appends exactly what was unread. *)
Lemma copy_chunks_all (rounds size : nat) (unread written : string) :
  0 < size -> String.length unread < rounds ->
  copy_chunks rounds size unread written = written +:+ unread.
Proof.
  intros Hsize. revert unread written.
  induction rounds as [|rounds IH]; intros unread written Hlen; [lia|].
  cbn [copy_chunks upload_read].
  destruct (String.eqb_spec (str_take size unread) "") as [Hempty|Hchunk].
  - apply str_take_empty in Hempty as [Hz | ->]; [lia|].
    rewrite str_app_empty_r. reflexivity.
  - rewrite IH.
    + rewrite str_app_assoc, str_take_drop. reflexivity.
    + rewrite str_drop_length.
      assert (Hne : unread <> "").
      { intros ->. apply Hchunk. destruct size; reflexivity. }
      destruct unread as [|c u]; [contradiction|]. cbn [String.length] in *. lia.
Qed.

(** A chunk size of zero would copy nothing: the first chunk is empty. *)
Lemma copy_chunks_zero (rounds : nat) (unread written : string) :
  copy_chunks rounds 0 unread written = written.
Proof. destruct rounds, unread; reflexivity. Qed.

Section StorageFacts.
Context {F : Type} {NP : NumPy F} {RT : Runtime F}.

(** X21: [save_upload] stores the whole upload,
    whatever its length.  Reading it in chunks of up to 1 MiB until a
    chunk is empty and appending each chunk to the file writes the body
    byte for byte: nothing is lost, repeated or reordered, an upload
    whose length is a multiple of the chunk size ends on the empty read,
    and an empty upload leaves an empty file. *)
Theorem save_upload_writes_whole_body (upload : UploadFile) (w : World F) :
  save_upload_in_chunks upload w = save_upload upload w /\
  files (save_upload upload w).2 !! upload_path upload w = Some (upload_body upload) /\
  (save_upload upload w).1 = Ok (upload_path upload w) /\
  (forall other, other <> upload_path upload w ->
     files (save_upload upload w).2 !! other = files w !! other).
Proof.
  split_and!.
  - unfold save_upload_in_chunks, save_upload. cbn zeta.
    rewrite copy_chunks_all; [reflexivity | unfold CHUNK_SIZE; lia | lia].
  - unfold save_upload, upload_path. rewrite M_bind_unfold. cbn [get_world].
    rewrite M_bind_unfold. cbn [modify mret M_ret snd files set_files].
    apply lookup_insert_eq.
  - reflexivity.
  - intros other Hne. unfold save_upload, upload_path in *.
    rewrite M_bind_unfold. cbn [get_world].
    rewrite M_bind_unfold. cbn [modify mret M_ret snd files set_files].
    apply lookup_insert_ne. congruence.
Qed.

End StorageFacts.

(** ** [delete_file] *)

Section DeleteFacts.
Context {F : Type} {NP : NumPy F} {RT : Runtime F}.

Lemma delete_file_eval (path : string) (w : World F) :
  delete_file path w =
    match path_exists w path with
    | Raise e => (Raise e, w)
    | Ok false => (Ok tt, w)
    | Ok true =>
        match files w !! path with
        | Some _ => (Ok tt, set_files (delete path (files w)) w)
        | None => (Raise (Exn FileNotFoundError path), w)
        end
    end.
Proof.
  unfold delete_file. rewrite M_bind_unfold. unfold ask.
  destruct (path_exists w path) as [[|]|e]; [|reflexivity|reflexivity].
  unfold unlink. rewrite M_bind_unfold. cbn [get_world].
  destruct (files w !! path); reflexivity.
Qed.

(** X22: [delete_file] removes the file at the path and no
    other, and deleting a path that does not exist is not an error: it
    returns and changes nothing.  When the existence test agrees with
    the store at the path, [delete_file] does not raise and the path holds
    no file afterwards; and deleting the file an upload was just saved
    to, at a path that was free, puts the stored files back as they
    were. *)
Theorem delete_file_removes_only_that_file (path : string) (w : World F) :
  path_exists w path = Ok (bool_decide (is_Some (files w !! path))) ->
  delete_file path w = (Ok tt, set_files (delete path (files w)) w) /\
  files (delete_file path w).2 !! path = None /\
  (forall other, other <> path ->
     files (delete_file path w).2 !! other = files w !! other) /\
  (files w !! path = None -> delete_file path w = (Ok tt, w)) /\
  (forall upload : UploadFile,
     path = upload_path upload w ->
     files w !! path = None ->
     path_exists (save_upload upload w).2 path = Ok true ->
     files (delete_file path (save_upload upload w).2).2 = files w).
Proof.
  intros Hagree. rewrite delete_file_eval, Hagree.
  assert (Hrun : (if bool_decide (is_Some (files w !! path)) then
                    match files w !! path with
                    | Some _ => (Ok tt, set_files (delete path (files w)) w)
                    | None => (Raise (Exn FileNotFoundError path), w)
                    end
                  else (Ok tt, w)) = (Ok tt, set_files (delete path (files w)) w)).
  { destruct (files w !! path) as [c|] eqn:Hc.
    - rewrite bool_decide_eq_true_2 by eauto. reflexivity.
    - rewrite bool_decide_eq_false_2 by (intros [c Hs]; discriminate Hs).
      rewrite delete_id by exact Hc. destruct w; reflexivity. }
  rewrite Hrun. cbn [snd files set_files]. split_and!.
  - reflexivity.
  - apply lookup_delete_eq.
  - intros other Hne. apply lookup_delete_ne. congruence.
  - intros Hnone. rewrite delete_id by exact Hnone. destruct w; reflexivity.
  - intros upload Hpath Hfree Hexists. rewrite delete_file_eval, Hexists.
    subst path. unfold save_upload, upload_path in *.
    rewrite M_bind_unfold. cbn [get_world].
    rewrite M_bind_unfold. cbn [modify mret M_ret snd files set_files].
    rewrite lookup_insert_eq. cbn [snd files set_files].
    rewrite delete_insert_eq. apply delete_id. exact Hfree.
Qed.

End DeleteFacts.

(** The recording of [three_sample_world] deleted: no file is left. *)
Lemma delete_file_removes_only_that_file_witness :
  delete_file (RT := demo_runtime) "/tmp/copd/uploads/a.wav" three_sample_world
    = (Ok tt, set_files (delete "/tmp/copd/uploads/a.wav" (files three_sample_world))
                three_sample_world) /\
  files (delete_file (RT := demo_runtime) "/tmp/copd/uploads/a.wav" three_sample_world).2
    !! "/tmp/copd/uploads/a.wav" = None.
Proof.
  destruct (delete_file_removes_only_that_file (RT := demo_runtime)
              "/tmp/copd/uploads/a.wav" three_sample_world) as (Hrun & Hgone & _).
  - reflexivity.
  - split; assumption.
Defined.

(** ** [get_model_info] of the PyTorch service *)

Section ModelInfo.
Context {F : Type} {NP : NumPy F} {RT : Runtime F}.

Lemma pytorch_get_model_info_eval (w : World F) (self : PyTorchAudioInferenceService) :
  pytorch_inference_service w = Some self ->
  pytorch_get_model_info w =
    match _model_info self with
    | Some info => (Ok info, w)
    | None =>
        match loader_get_model_info w (pt_model_path self) (pt_icbhi_path self) with
        | Ok info =>
            (Ok info,
             set_pytorch_inference_service
               (Some {| pt_model_path := pt_model_path self;
                        pt_icbhi_path := pt_icbhi_path self;
                        _model := _model self; _classifier := _classifier self;
                        _model_info := Some info |}) w)
        | Raise e => (Raise e, w)
        end
    end.
Proof.
  intros Hself. unfold pytorch_get_model_info. rewrite M_bind_unfold.
  unfold pt_self. rewrite M_bind_unfold. cbn [get_world]. unfold lift. rewrite Hself.
  cbn [of_option]. destruct (_model_info self) as [info|]; [reflexivity|].
  rewrite M_bind_unfold. unfold ask.
  destruct (loader_get_model_info w _ _) as [info|e]; [|reflexivity].
  rewrite M_bind_unfold. unfold set_pt. cbn [modify]. rewrite Hself. reflexivity.
Qed.

(** X23: [get_model_info] of the PyTorch service
    goes to the checkpoint only while no model information is kept.
    What it returns it keeps; and while information is kept, from an
    earlier [get_model_info] or from a [load] that got as far as reading
    it, [get_model_info] returns it without going to the checkpoint, in
    whatever state the files then are; this holds after a [load] that
    failed later on, too. *)
Theorem pytorch_model_info_is_cached (w : World F) (self : PyTorchAudioInferenceService) :
  pytorch_inference_service w = Some self ->
  (forall (info : nat) (w' : World F),
     pytorch_get_model_info w = (Ok info, w') ->
     (pytorch_inference_service w' ≫= _model_info) = Some info) /\
  (forall (info : nat) (w' w'' : World F),
     (pytorch_inference_service w' ≫= _model_info) = Some info ->
     pytorch_inference_service w'' = pytorch_inference_service w' ->
     pytorch_get_model_info w'' = (Ok info, w'')) /\
  (forall info,
     _model self = None ->
     loader_get_model_info w (pt_model_path self) (pt_icbhi_path self) = Ok info ->
     (pytorch_inference_service (pytorch_load w).2 ≫= _model_info) = Some info).
Proof.
  intros Hself. split_and!.
  - intros info w'. rewrite (pytorch_get_model_info_eval w self Hself).
    destruct (_model_info self) as [i|] eqn:Hi.
    + intros Hr. injection Hr as <- <-. rewrite Hself. exact Hi.
    + destruct (loader_get_model_info w _ _) as [i|e]; [|discriminate].
      intros Hr. injection Hr as <- <-. reflexivity.
  - intros info w' w'' Hinfo Hsame.
    destruct (pytorch_inference_service w') as [self'|] eqn:Hself'; [|discriminate Hinfo].
    cbn in Hinfo. rewrite (pytorch_get_model_info_eval w'' self' Hsame), Hinfo.
    reflexivity.
  - intros info Hnone Hinfo.
    rewrite (pytorch_load_empty w self Hself Hnone), Hinfo. cbn zeta.
    match goal with
    | |- context [load_model_with_wrapper ?p ?i ?u ?w1] =>
        pose proof (load_model_with_wrapper_unchanged p i u w1) as Hsame;
        destruct (load_model_with_wrapper p i u w1) as [[mc|e] w2]
    end; cbn [snd] in *.
    + destruct (to_device_eval _ _ _); reflexivity.
    + rewrite Hsame. reflexivity.
Qed.

End ModelInfo.

(** The PyTorch service of the checkpoint world: after [load], the
    model information is the one the loader gave, 0. *)
Lemma pytorch_model_info_is_cached_witness :
  (pytorch_inference_service (pytorch_load (RT := demo_runtime) pytorch_service_world).2
     ≫= _model_info) = Some 0 /\
  pytorch_get_model_info (RT := demo_runtime)
    (pytorch_load (RT := demo_runtime) pytorch_service_world).2
  = (Ok 0, (pytorch_load (RT := demo_runtime) pytorch_service_world).2).
Proof.
  destruct (pytorch_model_info_is_cached (RT := demo_runtime) pytorch_service_world
              _ eq_refl) as (_ & Hcached & Hload).
  assert (Hinfo : (pytorch_inference_service
                     (pytorch_load (RT := demo_runtime) pytorch_service_world).2
                   ≫= _model_info) = Some 0).
  { apply Hload; reflexivity. }
  split; [exact Hinfo|].
  apply (Hcached 0 _ _ Hinfo). reflexivity.
Defined.

(** ** [PyTorchModelLoader] *)

Section LoaderFacts.
Context {F : Type} {RT : Runtime F} {TC : TorchCheckpoints F}.

(** X24: a loader reads its checkpoint file at most
    once.  Without a checkpoint read before, a path at which nothing
    exists raises [FileNotFoundError] whatever [torch.load] would have
    done, and any failure (of the existence test or of [torch.load])
    leaves the loader as it was; after a
    successful call the loader holds the checkpoint and returns it on
    every later call, in any world: also when the file has gone or
    changed since. *)
Theorem load_checkpoint_reads_once (self : PyTorchModelLoader) (w : World F) :
  (loader_checkpoint self = None ->
   path_exists w (loader_checkpoint_path self) = Ok false ->
   load_checkpoint self w =
     (Raise (Exn FileNotFoundError
               ("Checkpoint not found: " +:+ loader_checkpoint_path self)), self)) /\
  (forall e self', load_checkpoint self w = (Raise e, self') ->
     self' = self /\ loader_checkpoint self = None) /\
  (forall checkpoint self', load_checkpoint self w = (Ok checkpoint, self') ->
     loader_checkpoint self' = Some checkpoint /\
     loader_checkpoint_path self' = loader_checkpoint_path self /\
     (loader_checkpoint self = None ->
      path_exists w (loader_checkpoint_path self) = Ok true /\
      torch_load_checkpoint w (loader_checkpoint_path self) = Ok checkpoint) /\
     forall w' : World F, load_checkpoint self' w' = (Ok checkpoint, self')).
Proof.
  unfold load_checkpoint. split_and!.
  - intros -> ->. reflexivity.
  - intros e self'. destruct (loader_checkpoint self) as [c|]; [discriminate|].
    destruct (path_exists w _) as [[|]|e0].
    + destruct (torch_load_checkpoint w _); [discriminate|].
      intros Hr. injection Hr as _ <-. auto.
    + intros Hr. injection Hr as _ <-. auto.
    + intros Hr. injection Hr as _ <-. auto.
  - intros checkpoint self'. destruct (loader_checkpoint self) as [c|] eqn:Hc.
    + intros Hr. injection Hr as <- <-. rewrite Hc. split_and!; try reflexivity.
      discriminate.
    + destruct (path_exists w _) as [[|]|e0]; [|discriminate|discriminate].
      destruct (torch_load_checkpoint w _) as [c|e] eqn:Hl; [|discriminate].
      intros Hr. injection Hr as <- <-. cbn. split_and!; try reflexivity. auto.
Qed.

Lemma base_info_dom (checkpoint : checkpoint_dict) : dom (base_info checkpoint) = base_keys.
Proof.
  unfold base_info, base_keys. rewrite !dom_insert_L, dom_singleton_L. reflexivity.
Qed.

Lemma args_info_dom (checkpoint : checkpoint_dict) (info : gmap string pyval) :
  dom (args_info checkpoint info) =
    match ck_namespace checkpoint with Some _ => args_keys | None => ∅ end ∪ dom info.
Proof.
  unfold args_info, args_keys. destruct (ck_namespace checkpoint) as [args|].
  - rewrite dom_union_L, !dom_insert_L, dom_singleton_L. reflexivity.
  - apply set_eq. intros k. rewrite elem_of_union, elem_of_empty. tauto.
Qed.

(** The entries of [base_info] are not replaced by those of the arguments. *)
Lemma args_info_base (checkpoint : checkpoint_dict) (k : string) :
  k ∈ base_keys ->
  args_info checkpoint (base_info checkpoint) !! k = base_info checkpoint !! k.
Proof.
  intros Hk. unfold args_info. destruct (ck_namespace checkpoint) as [args|]; [|reflexivity].
  rewrite lookup_union_r; [reflexivity|].
  unfold base_keys in Hk. rewrite !elem_of_union, !elem_of_singleton in Hk.
  apply not_elem_of_dom. rewrite !dom_insert_L, dom_singleton_L.
  rewrite !elem_of_union, !elem_of_singleton. intros Hin.
  destruct Hk as [[[-> | ->] | ->] | ->];
    repeat (destruct Hin as [Hin | Hin]; try discriminate Hin).
Qed.

Lemma base_keys_elem :
  "epoch" ∈ base_keys /\ "has_model" ∈ base_keys /\
  "has_classifier" ∈ base_keys /\ "has_projector" ∈ base_keys.
Proof. unfold base_keys. rewrite !elem_of_union, !elem_of_singleton. auto 10. Qed.

(** What [classifier_info] adds, and when it raises. *)
Lemma classifier_info_cases (checkpoint : checkpoint_dict) (info : gmap string pyval) :
  match classifier_info checkpoint info with
  | Ok info' =>
      match classifier_weight_shape checkpoint with
      | Some shape =>
          exists i o, shape !! 1 = Some i /\ shape !! 0 = Some o /\
            info' = <["classifier_output_dim" := PyInt o]>
                      (<["classifier_input_dim" := PyInt i]> info)
      | None => info' = info
      end
  | Raise e =>
      exn_cls e = IndexError /\
      (ck_classifier checkpoint = Some (StateList []) \/
       exists shape,
         classifier_weight_shape checkpoint = Some shape /\
         length shape < 2)
  end.
Proof.
  unfold classifier_info, classifier_weight_shape, first_classifier_state.
  destruct (ck_classifier checkpoint) as [[d | [|d l]]|]; cbn; try reflexivity.
  - destruct (d !! "weight") as [shape|]; cbn; [|reflexivity].
    destruct shape as [|o [|i shape]]; cbn.
    + split; [reflexivity|]. right. eexists. split; [reflexivity|]. cbn. lia.
    + split; [reflexivity|]. right. eexists. split; [reflexivity|]. cbn. lia.
    + exists i, o. auto.
  - split; [reflexivity|]. left. reflexivity.
  - destruct (d !! "weight") as [shape|]; cbn; [|reflexivity].
    destruct shape as [|o [|i shape]]; cbn.
    + split; [reflexivity|]. right. eexists. split; [reflexivity|]. cbn. lia.
    + split; [reflexivity|]. right. eexists. split; [reflexivity|]. cbn. lia.
    + exists i, o. auto.
Qed.

(** X25: what [get_model_info] of a loader returns.
    The dictionary always has the keys [epoch], [has_model],
    [has_classifier] and [has_projector]; it has [model_type], [n_cls],
    [n_mels], [sample_rate] and [desired_length] exactly when the
    checkpoint has [args], with [model_type] the string "unknown" when
    the arguments have no [model]; and it has the two classifier
    dimensions exactly when the classifier's state (the first one, when
    it is a list) has a [weight], the input dimension being the second
    entry of its shape.  Apart from a failure to load the checkpoint,
    the only exception is the [IndexError] of an empty list of
    classifier states or of a weight with fewer than two dimensions. *)
Theorem loader_model_info_keys (self : PyTorchModelLoader) (w : World F) :
  match PyTorchModelLoader_get_model_info self w with
  | (Ok info, self') =>
      exists checkpoint,
        load_checkpoint self w = (Ok checkpoint, self') /\
        dom info = info_keys checkpoint /\
        info !! "epoch" = Some (default PyNone (ck_epoch checkpoint)) /\
        info !! "has_model" = Some (PyBool (bool_decide (is_Some (ck_model checkpoint)))) /\
        info !! "model_type" =
          (fun args => namespace_getattr args "model" (PyStr "unknown"))
            <$> ck_namespace checkpoint /\
        forall shape,
          classifier_weight_shape checkpoint = Some shape ->
          info !! "classifier_input_dim" = PyInt <$> shape !! 1 /\
          info !! "classifier_output_dim" = PyInt <$> shape !! 0
  | (Raise e, self') =>
      load_checkpoint self w = (Raise e, self') \/
      exists checkpoint,
        load_checkpoint self w = (Ok checkpoint, self') /\
        exn_cls e = IndexError /\
        (ck_classifier checkpoint = Some (StateList []) \/
         exists shape,
           classifier_weight_shape checkpoint = Some shape /\
           length shape < 2)
  end.
Proof.
  unfold PyTorchModelLoader_get_model_info.
  destruct (load_checkpoint self w) as [[checkpoint|e] self']; [|left; reflexivity].
  pose proof (classifier_info_cases checkpoint (args_info checkpoint (base_info checkpoint)))
    as Hcases.
  destruct (classifier_info checkpoint _) as [info|e].
  2:{ right. exists checkpoint. split; [reflexivity | exact Hcases]. }
  exists checkpoint. split; [reflexivity|].
  pose proof (args_info_base checkpoint) as Hbase.
  pose proof base_keys_elem as (Hepoch & Hhas & _).
  assert (Hmt : args_info checkpoint (base_info checkpoint) !! "model_type" =
                (fun args => namespace_getattr args "model" (PyStr "unknown"))
                  <$> ck_namespace checkpoint).
  { unfold args_info. destruct (ck_namespace checkpoint) as [args|]; cbn.
    - rewrite lookup_union_l'; [apply lookup_insert_eq|].
      rewrite lookup_insert_eq. eauto.
    - reflexivity. }
  unfold info_keys.
  destruct (classifier_weight_shape checkpoint) as [shape|].
  - destruct Hcases as (i & o & Hi & Ho & ->).
    split_and!.
    + rewrite !dom_insert_L, args_info_dom, base_info_dom. unfold dims_keys.
      apply set_eq. intros k. rewrite !elem_of_union. tauto.
    + rewrite !lookup_insert_ne by discriminate. rewrite Hbase by assumption.
      reflexivity.
    + rewrite !lookup_insert_ne by discriminate. rewrite Hbase by assumption.
      reflexivity.
    + rewrite !lookup_insert_ne by discriminate. exact Hmt.
    + intros shape' Hs. injection Hs as <-. rewrite Hi, Ho. split.
      * rewrite lookup_insert_ne by discriminate. apply lookup_insert_eq.
      * apply lookup_insert_eq.
  - subst info. split_and!.
    + rewrite args_info_dom, base_info_dom.
      apply set_eq. intros k. rewrite !elem_of_union, elem_of_empty. tauto.
    + rewrite Hbase by assumption. reflexivity.
    + rewrite Hbase by assumption. reflexivity.
    + exact Hmt.
    + discriminate.
Qed.

End LoaderFacts.

(** A loader in the checkpoint world: the checkpoint is read, and read
    again from the loader alone in a world without the file. *)
Lemma load_checkpoint_reads_once_witness :
  exists self',
    load_checkpoint (RT := demo_runtime) (TC := demo_checkpoints)
      (new_PyTorchModelLoader "best.pth" (Some "ICBHI_2017")) checkpoint_world
      = (Ok demo_checkpoint, self') /\
    load_checkpoint (RT := demo_runtime) (TC := demo_checkpoints)
      self' (initial_world default_Settings) = (Ok demo_checkpoint, self') /\
    load_checkpoint (RT := demo_runtime) (TC := demo_checkpoints)
      (new_PyTorchModelLoader "best.pth" (Some "ICBHI_2017")) (initial_world default_Settings)
      = (Raise (Exn FileNotFoundError "Checkpoint not found: best.pth"),
         new_PyTorchModelLoader "best.pth" (Some "ICBHI_2017")).
Proof.
  destruct (load_checkpoint_reads_once (RT := demo_runtime) (TC := demo_checkpoints)
              (new_PyTorchModelLoader "best.pth" (Some "ICBHI_2017")) checkpoint_world)
    as (_ & _ & Hok).
  destruct (load_checkpoint_reads_once (RT := demo_runtime) (TC := demo_checkpoints)
              (new_PyTorchModelLoader "best.pth" (Some "ICBHI_2017"))
              (initial_world default_Settings)) as (Hmissing & _ & _).
  eexists. split; [reflexivity|]. split.
  - apply (Hok demo_checkpoint _ eq_refl).
  - apply Hmissing; reflexivity.
Defined.

(** The model information of [demo_checkpoint]: its arguments have no
    [model], and its classifier maps 768 features to 4 classes. *)
Lemma loader_model_info_keys_witness :
  exists info self',
    PyTorchModelLoader_get_model_info (RT := demo_runtime) (TC := demo_checkpoints)
      (new_PyTorchModelLoader "best.pth" None) checkpoint_world = (Ok info, self') /\
    dom info = info_keys demo_checkpoint /\
    info !! "model_type" = Some (PyStr "unknown") /\
    info !! "classifier_input_dim" = Some (PyInt 768) /\
    info !! "classifier_output_dim" = Some (PyInt 4).
Proof.
  pose proof (loader_model_info_keys (RT := demo_runtime) (TC := demo_checkpoints)
                (new_PyTorchModelLoader "best.pth" None) checkpoint_world) as Hinfo.
  assert (Hload : load_checkpoint (RT := demo_runtime) (TC := demo_checkpoints)
                    (new_PyTorchModelLoader "best.pth" None) checkpoint_world
                  = (Ok demo_checkpoint,
                     {| loader_checkpoint_path := "best.pth"; loader_icbhi_path := None;
                        loader_checkpoint := Some demo_checkpoint |})) by reflexivity.
  destruct (PyTorchModelLoader_get_model_info (new_PyTorchModelLoader "best.pth" None)
              checkpoint_world) as [[info|e] self'].
  - destruct Hinfo as (checkpoint & Hc & Hdom & _ & _ & Hmt & Hdims).
    rewrite Hload in Hc. injection Hc as <- <-.
    exists info. eexists. split; [reflexivity|].
    destruct (Hdims [4; 768]%Z eq_refl) as [Hin Hout].
    split_and!; [exact Hdom | exact Hmt | exact Hin | exact Hout].
  - exfalso. destruct Hinfo as [Hraise | (checkpoint & Hc & _ & Hbad)].
    + rewrite Hload in Hraise. discriminate Hraise.
    + rewrite Hload in Hc. injection Hc as <- <-.
      destruct Hbad as [Hempty | (shape & Hshape & Hlen)].
      * discriminate Hempty.
      * assert (Hs : classifier_weight_shape demo_checkpoint = Some [4; 768]%Z)
          by reflexivity.
        rewrite Hs in Hshape. injection Hshape as <-. cbn in Hlen. lia.
Defined.

(** ** [load_waveform]: fitting twice *)

Section FitTwice.
Context {F : Type} {NP : NumPy F} {RT : Runtime F}.

(** X26: fitting is idempotent.  What [load_waveform]
    returns already has the target length, and fitting a waveform of
    exactly the target length to that length returns it unchanged:
    nothing is padded and nothing cut. *)
Theorem fit_length_idempotent (waveform : list F) (sample_rate : Z) :
  (0 <= sample_rate)%Z ->
  fit_length (fit_length waveform sample_rate) sample_rate = fit_length waveform sample_rate /\
  (Z.of_nat (length waveform) = (sample_rate * DEFAULT_DURATION_SEC)%Z ->
   fit_length waveform sample_rate = waveform).
Proof.
  intros Hs.
  assert (Hexact : forall a : list F,
            Z.of_nat (length a) = (sample_rate * 5)%Z -> fit_length a sample_rate = a).
  { intros a Ha. rewrite fit_length_long by lia.
    apply take_ge. lia. }
  split.
  - apply Hexact. apply fit_length_length, Hs.
  - unfold DEFAULT_DURATION_SEC. apply Hexact.
Qed.

End FitTwice.

(** Three samples at one sample per second: five samples, and five
    again when fit a second time. *)
Lemma fit_length_idempotent_witness :
  fit_length (fit_length [1; 2; 3]%R 1) 1 = fit_length [1; 2; 3]%R 1 /\
  fit_length [1; 2; 3]%R 1 = [1; 2; 3; 0; 0]%R.
Proof.
  split; [|reflexivity].
  apply (fit_length_idempotent [1; 2; 3]%R 1). lia.
Defined.

(** ** Which checkpoints load, and what the models are given *)

Section SupportedModels.
Context {F : Type} {NP : NumPy F} {RT : Runtime F}.

Lemma opt_eqb_true (o : option string) (s : string) : opt_eqb o s = true <-> o = Some s.
Proof.
  unfold opt_eqb. destruct o as [x|]; [|split; discriminate].
  rewrite String.eqb_eq. split; congruence.
Qed.

(** What a successful import branch did. *)
Lemma import_and_build_Ok (checkpoint : Checkpoint) (model_type : option string)
    (icbhi_path_str original_cwd : string) (w w' : World F) (mc : nat * nat) :
  import_and_build checkpoint model_type icbhi_path_str original_cwd w = (Ok mc, w') ->
  exists name,
    (name = "hftt" \/ name = "beats") /\ model_type = Some name /\
    os_chdir w icbhi_path_str = Ok tt /\
    import_get_backbone_class (set_cwd icbhi_path_str w) = Ok tt /\
    build_backbone (set_cwd icbhi_path_str w) checkpoint name icbhi_path_str = Ok mc.1 /\
    restore_state (set_cwd icbhi_path_str w) checkpoint mc.1 = Ok mc.2.
Proof.
  unfold import_and_build, try_finally.
  rewrite M_bind_unfold. unfold chdir at 1. rewrite M_bind_unfold. unfold ask at 1.
  destruct (os_chdir w icbhi_path_str) as [[]|e] eqn:Hcd.
  2:{ destruct (chdir original_cwd w) as [[u|e'] w1]; discriminate. }
  cbn [modify]. rewrite M_bind_unfold. unfold ask at 1.
  destruct (import_get_backbone_class (set_cwd icbhi_path_str w)) as [[]|e] eqn:Himp.
  2:{ destruct (chdir original_cwd _) as [[u|e'] w1]; discriminate. }
  rewrite M_bind_unfold.
  assert (Hbuild : forall name,
            model_type = Some name -> (name = "hftt" \/ name = "beats") ->
            (let '(r, w1) :=
               match ask (fun w0 => build_backbone w0 checkpoint name icbhi_path_str)
                       (set_cwd icbhi_path_str w) with
               | (Ok a, w1) =>
                   (ask (fun w0 => restore_state w0 checkpoint a) ≫= fun classifier =>
                    mret (a, classifier)) w1
               | (Raise e, w1) => (Raise e, w1)
               end in
             match chdir original_cwd w1 with
             | (Ok _, w2) => (r, w2)
             | (Raise e, w2) => (Raise e, w2)
             end) = (Ok mc, w') ->
            exists name0,
              (name0 = "hftt" \/ name0 = "beats") /\ model_type = Some name0 /\
              Ok tt = Ok tt /\ Ok tt = Ok tt /\
              build_backbone (set_cwd icbhi_path_str w) checkpoint name0 icbhi_path_str
                = Ok mc.1 /\
              restore_state (set_cwd icbhi_path_str w) checkpoint mc.1 = Ok mc.2).
  { intros name Hname Hsupported. unfold ask at 1.
    destruct (build_backbone (set_cwd icbhi_path_str w) checkpoint name icbhi_path_str)
      as [model|e] eqn:Hb.
    2:{ destruct (chdir original_cwd _) as [[u|e'] w1]; discriminate. }
    rewrite M_bind_unfold. unfold ask at 1.
    destruct (restore_state (set_cwd icbhi_path_str w) checkpoint model)
      as [classifier|e] eqn:Hr.
    2:{ destruct (chdir original_cwd _) as [[u|e'] w1]; discriminate. }
    cbn [mret M_ret].
    destruct (chdir original_cwd _) as [[u|e'] w1]; [|discriminate].
    intros Hout. injection Hout as <- _. exists name. cbn [fst snd]. auto 10. }
  destruct (opt_eqb model_type "hftt") eqn:Hh.
  { apply opt_eqb_true in Hh. apply (Hbuild "hftt" Hh). left. reflexivity. }
  destruct (opt_eqb model_type "beats") eqn:Hbt.
  { apply opt_eqb_true in Hbt. apply (Hbuild "beats" Hbt). right. reflexivity. }
  cbn [raise]. destruct (chdir original_cwd _) as [[u|e'] w1]; discriminate.
Qed.

(** X28: only "hftt" and "beats" checkpoints load.
    Whenever [load_model_with_wrapper] returns a model and classifier,
    the checkpoint is a dictionary whose arguments name one of these two
    model types, and
    the pair is the backbone of that name built in the ICBHI_2017
    directory and the classifier restored from the checkpoint.  A
    checkpoint without arguments, or with any other model type, never
    yields a model. *)
Theorem load_model_with_wrapper_supported_models (checkpoint_path : string)
    (icbhi_path : attr) (use_icbhi_import : bool) (w w' : World F) (mc : nat * nat) :
  load_model_with_wrapper checkpoint_path icbhi_path use_icbhi_import w = (Ok mc, w') ->
  exists checkpoint args name icbhi_path_str w1,
    torch_load w checkpoint_path = Ok (PickledDict checkpoint) /\
    ckpt_args checkpoint = Some args /\ args_model args = Some name /\
    (name = "hftt" \/ name = "beats") /\
    icbhi_absolute icbhi_path w = Ok icbhi_path_str /\
    cwd w1 = icbhi_path_str /\
    build_backbone w1 checkpoint name icbhi_path_str = Ok mc.1 /\
    restore_state w1 checkpoint mc.1 = Ok mc.2.
Proof.
  rewrite load_model_with_wrapper_eval.
  destruct (torch_load w checkpoint_path) as [[checkpoint|type_name]|e];
    cbn [mbind result_bind checkpoint_get]; [|discriminate|discriminate].
  destruct (import_guard icbhi_path use_icbhi_import w) as [[|]|e];
    [|discriminate|discriminate].
  destruct (icbhi_absolute icbhi_path w) as [icbhi_path_str|e]; [|discriminate].
  cbn zeta.
  destruct (import_and_build _ _ _ _ _) as [[mc'|e] w2] eqn:Hbranch; [|discriminate].
  intros Hout. injection Hout as -> ->.
  apply import_and_build_Ok in Hbranch
    as (name & Hsupported & Hname & _ & _ & Hbuild & Hrestore).
  destruct (ckpt_args checkpoint) as [args|] eqn:Hargs; [|discriminate Hname].
  exists checkpoint, args, name, icbhi_path_str.
  eexists. split_and!; try reflexivity; try eassumption. reflexivity.
Qed.

End SupportedModels.

(** The checkpoint world, whose checkpoint is an "hftt" one. *)
Lemma load_model_with_wrapper_supported_models_witness :
  exists w' checkpoint args,
    load_model_with_wrapper (RT := demo_runtime) "best.pth" (APath "ICBHI_2017") true
      checkpoint_world = (Ok (2, 3), w') /\
    torch_load (Runtime := demo_runtime) checkpoint_world "best.pth"
    = Ok (PickledDict checkpoint) /\
    ckpt_args checkpoint = Some args /\ args_model args = Some "hftt".
Proof.
  assert (Hrun : exists w', load_model_with_wrapper (RT := demo_runtime) "best.pth"
                              (APath "ICBHI_2017") true checkpoint_world = (Ok (2, 3), w')).
  { eexists. vm_compute. reflexivity. }
  destruct Hrun as (w' & Hrun).
  destruct (load_model_with_wrapper_supported_models (RT := demo_runtime) _ _ _ _ _ _ Hrun)
    as (checkpoint & args & name & icbhi_path_str & w1 & Hload & Hargs & Hname & _).
  exists w', checkpoint, args. split_and!; try assumption.
  assert (Hck : torch_load (Runtime := demo_runtime) checkpoint_world "best.pth"
                = Ok (PickledDict
                        {| ckpt_ref := 0; ckpt_args := Some {| args_model := Some "hftt" |} |}))
    by reflexivity.
  rewrite Hck in Hload. injection Hload as <-. cbn in Hargs. injection Hargs as <-.
  reflexivity.
Defined.

Section OneCall.
Context {F : Type} {NP : NumPy F} {RT : Runtime F}.

(** X29: the inference pipeline of a background task calls a
    model at most once, and what it gives the model is always made from
    a clip of exactly 80000 samples (five seconds at 16 kHz): the raw
    samples for the PyTorch service, their mel-spectrogram features for
    the ONNX service, never the other way round.  A model is called only
    when [settings.model_type] can be read, and then it is the service
    that the setting names. *)
Theorem run_inference_calls_once {S} {SO : SettingsObject S} (settings : S)
    (audio_path : string) (w : World F) :
  exists events,
    log (run_inference settings audio_path w).2 = (log w ++ events)%list /\
    (no_predict_call events \/
     exists before b x after,
       events = (before ++ EvPredict b x :: after)%list /\
       no_predict_call before /\ no_predict_call after /\
       model_input b x /\
       model_type_is_pytorch settings = Ok (bool_decide (b = PYTORCH))).
Proof.
  unfold run_inference. rewrite M_bind_unfold.
  destruct (quiet_get_inference_service settings w) as (r0 & Hlog0 & Hq0).
  destruct (get_inference_service settings w) as [[b|e] w1] eqn:Hsvc; cbn [snd] in *.
  2:{ exists r0. split; [exact Hlog0 | left; exact Hq0]. }
  rewrite M_bind_unfold. unfold load_waveform. rewrite M_bind_unfold. unfold ask.
  destruct (librosa_load w1 audio_path DEFAULT_SAMPLE_RATE) as [raw|e].
  2:{ exists r0. split; [exact Hlog0 | left; exact Hq0]. }
  cbn [mret M_ret]. rewrite M_bind_unfold. unfold lift at 1.
  destruct (get_inference_service_returns settings w w1 b Hsvc) as (m & Hm & Hb).
  rewrite (model_type_is_pytorch_str settings m Hm).
  assert (Hlen : Z.of_nat (length (fit_length raw DEFAULT_SAMPLE_RATE))
                 = (DEFAULT_SAMPLE_RATE * DEFAULT_DURATION_SEC)%Z).
  { apply fit_length_length. unfold DEFAULT_SAMPLE_RATE. lia. }
  assert (Hflag : String.eqb (str_lower m) "pytorch" = bool_decide (b = PYTORCH)).
  { destruct (String.eqb_spec (str_lower m) "pytorch") as [Heq|Hne].
    - rewrite bool_decide_eq_true_2; [reflexivity | apply Hb, Heq].
    - rewrite bool_decide_eq_false_2; [reflexivity|]. intros Hpt. apply Hne, Hb, Hpt. }
  destruct (String.eqb (str_lower m) "pytorch") eqn:Hpt.
  - destruct (predict_calls b (Arr1 (fit_length raw DEFAULT_SAMPLE_RATE)) w1)
      as (rest & Hlog & Hq).
    exists (r0 ++ EvPredict b (Arr1 (fit_length raw DEFAULT_SAMPLE_RATE)) :: rest)%list.
    split; [rewrite Hlog, Hlog0, <- app_assoc; reflexivity|].
    right. exists r0, b, (Arr1 (fit_length raw DEFAULT_SAMPLE_RATE)), rest.
    split_and!; try assumption; try reflexivity.
    + exists (fit_length raw DEFAULT_SAMPLE_RATE). split; [exact Hlen|].
      symmetry in Hflag. apply bool_decide_eq_true in Hflag. subst b. reflexivity.
    + rewrite Hflag. reflexivity.
  - rewrite M_bind_unfold. unfold extract_mel_spectrogram, lift.
    destruct (mel_spectrogram (fit_length raw DEFAULT_SAMPLE_RATE)) as [features|e] eqn:Hmel.
    2:{ exists r0. split; [exact Hlog0 | left; exact Hq0]. }
    destruct (predict_calls b (Arr2 features) w1) as (rest & Hlog & Hq).
    exists (r0 ++ EvPredict b (Arr2 features) :: rest)%list.
    split; [rewrite Hlog, Hlog0, <- app_assoc; reflexivity|].
    right. exists r0, b, (Arr2 features), rest.
    split_and!; try assumption; try reflexivity.
    + exists (fit_length raw DEFAULT_SAMPLE_RATE). split; [exact Hlen|].
      symmetry in Hflag. apply bool_decide_eq_false in Hflag.
      destruct b; [|contradiction]. exists features. split; [exact Hmel | reflexivity].
    + rewrite Hflag. reflexivity.
Qed.

End OneCall.

(** ** The checking script and the loader *)

Lemma classifier_info_is_Ok (checkpoint : checkpoint_dict) (info info' : gmap string pyval) :
  is_Ok (classifier_info checkpoint info) = is_Ok (classifier_info checkpoint info').
Proof.
  unfold classifier_info.
  destruct (ck_classifier checkpoint) as [[d | l]|]; cbn; try reflexivity.
  - destruct (d !! "weight") as [shape|]; [|reflexivity].
    destruct (getitem shape 1); cbn; [|reflexivity].
    destruct (getitem shape 0); reflexivity.
  - destruct (getitem l 0) as [d|e]; cbn; [|reflexivity].
    destruct (d !! "weight") as [shape|]; [|reflexivity].
    destruct (getitem shape 1); cbn; [|reflexivity].
    destruct (getitem shape 0); reflexivity.
Qed.

(** The script accepts a checkpoint that has a model and a classifier
    whose dimensions can be read. *)
Lemma validate_structure_true (checkpoint : checkpoint_dict) :
  validate_structure checkpoint = Ok true <->
  is_Some (ck_model checkpoint) /\ is_Some (ck_classifier checkpoint) /\
  is_Ok (classifier_info checkpoint ∅) = true.
Proof.
  unfold validate_structure, classifier_info.
  destruct (ck_model checkpoint) as [model_state|].
  2:{ split; [discriminate|]. intros ([x Hx] & _). discriminate Hx. }
  destruct (ck_classifier checkpoint) as [[d | l]|]; cbn.
  - destruct (d !! "weight") as [shape|]; [|split; eauto].
    destruct (getitem shape 1); cbn; [|split; [discriminate | intros (_ & _ & H); discriminate H]].
    destruct (getitem shape 0); cbn; split; eauto; try discriminate.
    intros (_ & _ & H); discriminate H.
  - destruct (getitem l 0) as [d|e]; cbn;
      [|split; [discriminate | intros (_ & _ & H); discriminate H]].
    destruct (d !! "weight") as [shape|]; [|split; eauto].
    destruct (getitem shape 1); cbn; [|split; [discriminate | intros (_ & _ & H); discriminate H]].
    destruct (getitem shape 0); cbn; split; eauto; try discriminate.
    intros (_ & _ & H); discriminate H.
  - split; [discriminate|]. intros (_ & [x Hx] & _). discriminate Hx.
Qed.

Section ScriptFacts.
Context {F : Type} {RT : Runtime F} {TC : TorchCheckpoints F}.

(** X30: what the checking script's verdict means.
    [test_model_loading] returns [True], and the script exits with
    status 0, exactly when the file exists, [torch.load] reads it, the
    checkpoint has a [model] and a [classifier], and the classifier's
    dimensions can be read.  Everything else gives status 1: any
    exception inside the [try] block gives [False], and the only
    exception that leaves the function is one of the existence test,
    which comes before the block.  And whenever it returns [True], a
    loader made for that path in the same world returns the model
    information, with [has_model] and [has_classifier] true. *)
Theorem test_model_loading_verdict (w : World F) (icbhi_path : option string) :
  (test_model_loading w = Ok true <->
   path_exists w MODEL_PATH = Ok true /\
   exists checkpoint,
     torch_load_checkpoint w MODEL_PATH = Ok checkpoint /\
     is_Some (ck_model checkpoint) /\ is_Some (ck_classifier checkpoint) /\
     is_Ok (classifier_info checkpoint ∅) = true) /\
  (forall e, test_model_loading w = Raise e <-> path_exists w MODEL_PATH = Raise e) /\
  (exit_status w = 0%Z <-> test_model_loading w = Ok true) /\
  (exit_status w = 1%Z <-> test_model_loading w <> Ok true) /\
  (test_model_loading w = Ok true ->
   exists info self',
     PyTorchModelLoader_get_model_info (new_PyTorchModelLoader MODEL_PATH icbhi_path) w
       = (Ok info, self') /\
     info !! "has_model" = Some (PyBool true) /\
     info !! "has_classifier" = Some (PyBool true)).
Proof.
  assert (Hiff : test_model_loading w = Ok true <->
            path_exists w MODEL_PATH = Ok true /\
            exists checkpoint,
              torch_load_checkpoint w MODEL_PATH = Ok checkpoint /\
              is_Some (ck_model checkpoint) /\ is_Some (ck_classifier checkpoint) /\
              is_Ok (classifier_info checkpoint ∅) = true).
  { unfold test_model_loading.
    destruct (path_exists w MODEL_PATH) as [[|]|e0]; cbn [mbind result_bind negb].
    2:{ split; [discriminate | intros [H _]; discriminate H]. }
    2:{ split; [discriminate | intros [H _]; discriminate H]. }
    destruct (torch_load_checkpoint w MODEL_PATH) as [checkpoint|e]; cbn [mbind result_bind].
    2:{ split; [discriminate | intros (_ & c & H & _); discriminate H]. }
    pose proof (validate_structure_true checkpoint) as Hv.
    destruct (validate_structure checkpoint) as [[|]|e].
    - split; [|reflexivity]. intros _. split; [reflexivity|].
      exists checkpoint. split; [reflexivity|]. apply Hv. reflexivity.
    - split; [discriminate|]. intros (_ & c & Hc & Hrest). injection Hc as <-.
      apply Hv in Hrest. discriminate Hrest.
    - split; [discriminate|]. intros (_ & c & Hc & Hrest). injection Hc as <-.
      apply Hv in Hrest. discriminate Hrest. }
  split; [exact Hiff|]. split; [|split; [|split]].
  - intros e. unfold test_model_loading.
    destruct (path_exists w MODEL_PATH) as [[|]|e0]; cbn [mbind result_bind negb].
    + destruct (torch_load_checkpoint w MODEL_PATH ≫= validate_structure);
        split; discriminate.
    + split; discriminate.
    + reflexivity.
  - unfold exit_status. destruct (test_model_loading w) as [[|]|e]; split; congruence.
  - unfold exit_status. destruct (test_model_loading w) as [[|]|e]; split; congruence.
  - intros Htrue. apply Hiff in Htrue as (Hexists & checkpoint & Hload & Hmodel & Hcls & Hdims).
    unfold PyTorchModelLoader_get_model_info, load_checkpoint.
    cbn [new_PyTorchModelLoader loader_checkpoint loader_checkpoint_path loader_icbhi_path].
    rewrite Hexists, Hload.
    pose proof (classifier_info_cases checkpoint
                  (args_info checkpoint (base_info checkpoint))) as Hcases.
    rewrite (classifier_info_is_Ok checkpoint ∅
               (args_info checkpoint (base_info checkpoint))) in Hdims.
    destruct (classifier_info checkpoint (args_info checkpoint (base_info checkpoint)))
      as [info|e]; [|discriminate Hdims].
    exists info. eexists. split; [reflexivity|].
    pose proof base_keys_elem as (_ & Hk1 & Hk2 & _).
    assert (Hhas : args_info checkpoint (base_info checkpoint) !! "has_model"
                   = Some (PyBool true) /\
                   args_info checkpoint (base_info checkpoint) !! "has_classifier"
                   = Some (PyBool true)).
    { rewrite !args_info_base by assumption. unfold base_info.
      rewrite !(bool_decide_eq_true_2 (is_Some (ck_model checkpoint))) by exact Hmodel.
      rewrite !(bool_decide_eq_true_2 (is_Some (ck_classifier checkpoint))) by exact Hcls.
      split.
      - rewrite lookup_insert_ne by discriminate. apply lookup_insert_eq.
      - rewrite lookup_insert_ne by discriminate. rewrite lookup_insert_ne by discriminate.
        apply lookup_insert_eq. }
    destruct (classifier_weight_shape checkpoint) as [shape|].
    + destruct Hcases as (i & o & _ & _ & ->).
      rewrite !lookup_insert_ne by discriminate. exact Hhas.
    + subst info. exact Hhas.
Qed.

End ScriptFacts.

(** The script in a world that holds the checkpoint: success, status 0,
    and the loader reads the model information. *)
Lemma test_model_loading_verdict_witness :
  test_model_loading (RT := demo_runtime) (TC := demo_checkpoints) script_world = Ok true /\
  exit_status (RT := demo_runtime) (TC := demo_checkpoints) script_world = 0%Z /\
  exists info self',
    PyTorchModelLoader_get_model_info (RT := demo_runtime) (TC := demo_checkpoints)
      (new_PyTorchModelLoader MODEL_PATH None) script_world = (Ok info, self') /\
    info !! "has_model" = Some (PyBool true) /\
    info !! "has_classifier" = Some (PyBool true).
Proof.
  destruct (test_model_loading_verdict (RT := demo_runtime) (TC := demo_checkpoints)
              script_world None) as (_ & _ & Hexit & _ & Hloader).
  assert (Htrue : test_model_loading (RT := demo_runtime) (TC := demo_checkpoints)
                    script_world = Ok true) by reflexivity.
  split; [exact Htrue|]. split; [apply Hexit, Htrue | apply Hloader, Htrue].
Defined.
